(** * back-to-one: schedule builder, looks gallery and call sheet

    A shallow embedding of the three view components of the repository
    (ScheduleBuilder, LooksManagement, CallSheetGenerator) and of the
    properties their specification states about them.

    Conventions of the embedding.
    - A JavaScript number that is integral in the source (a sequence
      index, an array index, a millisecond count) is a [Z]; integers of
      these magnitudes are exact in a double.  The two places where the
      source computes with fractions are modelled as such: the duration
      label with binary64 floats ([PrimFloat]), whose rounding decides
      the label; the page loop with exact rationals ([Q]), the heights
      that decide its page count being exact in a double.
    - What a date string denotes is decided by the JavaScript engine: the
      duration label takes the engine's [getTime] as an argument.
    - A string is a [string] whose characters stand for the code units
      below 256.
    - The hosted backend is a record of tables; every request is written
      to a log, and whether it is accepted is decided by the environment.
    - An [async] handler is a computation in a state-and-exception monad
      over the world (backend, JavaScript object store, log).  A handler
      reads the React state it closed over and returns the state that its
      setters leave behind. *)

From Stdlib Require Import ZArith QArith Qround Lqa String Ascii List Bool Lia DecimalString.
From Stdlib Require Import PrimFloat FloatOps SpecFloat FloatAxioms Uint63.
From stdpp Require Import base option list gmap strings.
From stdpp Require Import sorting.

Local Open Scope Z_scope.
Local Set Warnings "-register-all".

(** ** JavaScript values *)

Module Js.

(** The scalar values a loosely typed field ([any]) can hold.  An absent
    property reads as [Undefined]. *)
Inductive value :=
| Undefined
| Null
| Bool (b : bool)
| Num (n : Z)
| Str (s : string).

Definition str_truthy (s : string) : bool :=
  match s with EmptyString => false | String _ _ => true end.

(** ToBoolean *)
Definition truthy (v : value) : bool :=
  match v with
  | Undefined | Null => false
  | Bool b => b
  | Num n => negb (n =? 0)
  | Str s => str_truthy s
  end.

(** [a || b] *)
Definition or (a b : value) : value := if truthy a then a else b.

(** A field of type [string | null]. *)
Definition of_option (o : option string) : value :=
  match o with Some s => Str s | None => Null end.

(** WhiteSpace and LineTerminator code units below 256:
    TAB, LF, VT, FF, CR, SP, NBSP. *)
Definition is_space (c : ascii) : bool :=
  let n := nat_of_ascii c in
  ((9 <=? n)%nat && (n <=? 13)%nat) || (n =? 32)%nat || (n =? 160)%nat.

Fixpoint trimStart (s : string) : string :=
  match s with
  | EmptyString => EmptyString
  | String c s' => if is_space c then trimStart s' else s
  end.

Fixpoint trimEnd (s : string) : string :=
  match s with
  | EmptyString => EmptyString
  | String c s' =>
      match trimEnd s' with
      | EmptyString => if is_space c then EmptyString else String c EmptyString
      | t => String c t
      end
  end.

(** String.prototype.trim *)
Definition trim (s : string) : string := trimEnd (trimStart s).

(** Number::toString of an integral number (below 10^21 in magnitude). *)
Definition string_of_Z (n : Z) : string := NilZero.string_of_int (Z.to_int n).

End Js.

(** ** JavaScript numbers with a fractional part *)

Module JsNumber.

(** The double of an integer below 2^63 in magnitude: the integer
    itself below 2^53, the nearest double from there on. *)
Definition of_Z (n : Z) : float :=
  if n <? 0 then PrimFloat.opp (PrimFloat.of_uint63 (Uint63.of_Z (- n)))
  else PrimFloat.of_uint63 (Uint63.of_Z n).

(** floor (v / 2^s + 1/2) *)
Definition round_half_up (v s : Z) : Z := Z.shiftr (2 * v + Z.shiftl 1 s) (s + 1).

(** An integral number, as [Math.round] returns it. *)
Inductive integral :=
| NaN
| Infinite (negative : bool)
| Int (n : Z).

(** [Math.round]: the integer closest to the exact value of [x], the
    one towards +∞ when two are equally close. *)
Definition Math_round (x : float) : integral :=
  match Prim2SF x with
  | S754_nan => NaN
  | S754_infinity s => Infinite s
  | S754_zero _ => Int 0
  | S754_finite s m e =>
      let v := if s then Z.neg m else Z.pos m in
      if 0 <=? e then Int (Z.shiftl v e) else Int (round_half_up v (- e))
  end.

(** Number::toString of an integral number (below 10^21 in magnitude);
    both zeros print as "0". *)
Definition toString (n : integral) : string :=
  match n with
  | NaN => "NaN"
  | Infinite true => "-Infinity"
  | Infinite false => "Infinity"
  | Int n => Js.string_of_Z n
  end.

(** For the magnitude m * 2^e: the integer n for which n / 10 is
    closest to it, the larger one when two are equally close. *)
Definition tenths (m : positive) (e : Z) : Z :=
  if 0 <=? e then Z.shiftl (10 * Z.pos m) e
  else round_half_up (10 * Z.pos m) (- e).

(** n / 10 written with one digit after the point, [n] not negative *)
Definition show_tenths (n : Z) : string :=
  Js.string_of_Z (n / 10) +:+ "." +:+ Js.string_of_Z (n mod 10).

(** [x.toFixed(1)], for [x] below 10^21 in magnitude *)
Definition toFixed1 (x : float) : string :=
  match Prim2SF x with
  | S754_nan => "NaN"
  | S754_infinity s => if s then "-Infinity" else "Infinity"
  | S754_zero _ => "0.0"
  | S754_finite s m e => (if s then "-" else "") +:+ show_tenths (tenths m e)
  end.

End JsNumber.

(** ** Dates *)

Module JsDate.

Definition digit (c : ascii) : option Z :=
  let n := Z.of_nat (nat_of_ascii c) in
  if (48 <=? n) && (n <=? 57) then Some (n - 48) else None.

Definition two_digits (c1 c2 : ascii) : option Z :=
  match digit c1, digit c2 with
  | Some a, Some b => Some (10 * a + b)
  | _, _ => None
  end.

Definition three_digits (c1 c2 c3 : ascii) : option Z :=
  match digit c1, two_digits c2 c3 with
  | Some a, Some b => Some (100 * a + b)
  | _, _ => None
  end.

(** A date-time string gives a local time, or a time with its offset
    from UTC in minutes. *)
Inductive zone :=
| Local
| Offset (minutes : Z).

(** The end of a date-time string: nothing, "Z", or a sign and "HH:mm". *)
Definition utcOffset (s : string) : option zone :=
  match s with
  | EmptyString => Some Local
  | String c EmptyString => if Ascii.eqb c "Z" then Some (Offset 0) else None
  | String sign (String h1 (String h2 (String c (String m1 (String m2 EmptyString))))) =>
      match two_digits h1 h2, two_digits m1 m2 with
      | Some h, Some m =>
          if Ascii.eqb c ":" && (h <? 24) && (m <? 60) then
            if Ascii.eqb sign "+" then Some (Offset (60 * h + m))
            else if Ascii.eqb sign "-" then Some (Offset (- (60 * h + m)))
            else None
          else None
      | _, _ => None
      end
  | _ => None
  end.

(** What follows "HH:mm": nothing, ":ss" or ":ss.sss".  The result is
    the milliseconds they add and the rest of the string. *)
Definition secondsOf (s : string) : option (Z * string) :=
  match s with
  | String c (String s1 (String s2 rest)) =>
      if Ascii.eqb c ":" then
        match two_digits s1 s2 with
        | Some sec =>
            if sec <? 60 then
              match rest with
              | String p (String f1 (String f2 (String f3 rest'))) =>
                  if Ascii.eqb p "." then
                    match three_digits f1 f2 f3 with
                    | Some ms => Some (1000 * sec + ms, rest')
                    | None => None
                    end
                  else Some (1000 * sec, rest)
              | _ => Some (1000 * sec, rest)
              end
            else None
        | None => None
        end
      else Some (0, s)
  | _ => Some (0, s)
  end.

(** The time of a date-time string in the format that the language
    specification fixes: "HH:mm", "HH:mm:ss" or "HH:mm:ss.sss", followed
    by nothing, by "Z" or by an offset; 24:00 is the end of the day.  The
    result is the time in milliseconds after midnight, and the zone. *)
Definition timeOfDay (time : string) : option (Z * zone) :=
  match time with
  | String h1 (String h2 (String c (String m1 (String m2 rest)))) =>
      match two_digits h1 h2, two_digits m1 m2, secondsOf rest with
      | Some h, Some m, Some (ms, rest') =>
          if Ascii.eqb c ":" && (m <? 60)
             && ((h <? 24) || ((h =? 24) && (m =? 0) && (ms =? 0))) then
            match utcOffset rest' with
            | Some z => Some ((h * 60 + m) * 60000 + ms, z)
            | None => None
            end
          else None
      | _, _, _ => None
      end
  | _ => None
  end.

(** What is left of a string after a prefix. *)
Fixpoint after (prefix s : string) : option string :=
  match prefix, s with
  | EmptyString, _ => Some s
  | String a prefix', String b s' => if Ascii.eqb a b then after prefix' s' else None
  | String _ _, EmptyString => None
  end.

(** Midnight of 2000-01-01 in UTC, in milliseconds since the epoch. *)
Definition midnight_2000_01_01 : Z := 946684800000.

(** [new Date(s).getTime()] is the engine's.  This is the one of an
    engine whose local zone is UTC, for the strings the schedule builder
    passes, which start with "2000-01-01T": the time value of a string in
    the specified format, and NaN ([None]) for every other string, which
    the specification leaves to the engine. *)
Definition getTime (s : string) : option Z :=
  match after "2000-01-01T" s with
  | Some time =>
      match timeOfDay time with
      | Some (ms, Local) => Some (midnight_2000_01_01 + ms)
      | Some (ms, Offset minutes) => Some (midnight_2000_01_01 + ms - 60000 * minutes)
      | None => None
      end
  | None => None
  end.

End JsDate.

(** ** Rows of the hosted backend *)

(** Row identities are backend-generated strings that the client only
    compares for equality; they are numbered here. *)
Definition rowid := nat.

Module Blueprint.
(** One element of [template_data : any[]]. *)
Record t := {
  title : Js.value;
  description : Js.value;
  start_time : Js.value;
  end_time : Js.value;
  category : Js.value;
  location : Js.value;
  notes : Js.value }.
End Blueprint.

Module ScheduleItem.
(** The object literal an insert sends: the columns the client sets.  The
    columns the backend fills by default ([crew_needed],
    [equipment_needed], [is_milestone]) are read by no handler and are
    left out. *)
Record draft := {
  production_id : string;
  title : Js.value;
  description : Js.value;
  start_time : Js.value;
  end_time : Js.value;
  category : Js.value;
  location : Js.value;
  notes : Js.value;
  sequence_order : Z }.

(** A stored row, as [.select()] returns it. *)
Record t := { id : rowid; columns : draft }.
End ScheduleItem.

Module Look.
Record draft := {
  d_production_id : string;
  d_name : string;
  d_description : string;
  d_sequence_order : Z;
  d_styling_notes : string }.

Record t := {
  id : rowid;
  production_id : string;
  name : string;
  description : string;
  image_url : option string;
  sequence_order : Z;
  styling_notes : string;
  created_at : string }.

Definition of_draft (i : rowid) (now : string) (d : draft) : t :=
  {| id := i; production_id := d_production_id d; name := d_name d;
     description := d_description d; image_url := None;
     sequence_order := d_sequence_order d;
     styling_notes := d_styling_notes d; created_at := now |}.

(** [o.sequence_order = v] *)
Definition set_sequence_order (v : Z) (o : t) : t :=
  {| id := id o; production_id := production_id o; name := name o;
     description := description o; image_url := image_url o;
     sequence_order := v;
     styling_notes := styling_notes o; created_at := created_at o |}.
End Look.

(** ** The world a handler runs in *)

Inductive request :=
| InsertScheduleItems (rows : list ScheduleItem.draft)
| DeleteScheduleItemsOfProduction (production_id : string)
| DeleteScheduleItemById (id : rowid)
| InsertLooks (rows : list Look.draft)
| UpdateLookSequenceOrder (id : rowid) (sequence_order : Z).

Inductive event :=
| Request (r : request)
| Confirm (message : string)
| Alert (message : string)
| ConsoleError (message : string).

Definition is_request (e : event) : bool :=
  match e with Request _ => true | _ => false end.

Definition is_confirm (e : event) : bool :=
  match e with Confirm _ => true | _ => false end.

(** A reference to a JavaScript object. *)
Definition loc := nat.

Record World := {
  (** table [schedule_items] *)
  schedule_items : list ScheduleItem.t;
  (** table [looks] *)
  looks_table : list Look.t;
  (** the next identity the backend hands out, and its clock *)
  next_id : rowid;
  now : string;
  (** the Look objects that the arrays held in React state refer to *)
  objects : gmap loc Look.t;
  (** what the handlers did, oldest first *)
  log : list event;
  (** the environment: whether the backend rejects the k-th request, and
      what the user answers to the k-th confirmation dialog *)
  rejects : nat -> bool;
  answers : nat -> bool }.

Definition with_schedule_items (v : list ScheduleItem.t) (w : World) : World :=
  {| schedule_items := v; looks_table := looks_table w; next_id := next_id w;
     now := now w; objects := objects w; log := log w;
     rejects := rejects w; answers := answers w |}.

Definition with_looks_table (v : list Look.t) (w : World) : World :=
  {| schedule_items := schedule_items w; looks_table := v; next_id := next_id w;
     now := now w; objects := objects w; log := log w;
     rejects := rejects w; answers := answers w |}.

Definition with_next_id (v : rowid) (w : World) : World :=
  {| schedule_items := schedule_items w; looks_table := looks_table w; next_id := v;
     now := now w; objects := objects w; log := log w;
     rejects := rejects w; answers := answers w |}.

Definition with_objects (v : gmap loc Look.t) (w : World) : World :=
  {| schedule_items := schedule_items w; looks_table := looks_table w;
     next_id := next_id w; now := now w; objects := v; log := log w;
     rejects := rejects w; answers := answers w |}.

Definition with_log (v : list event) (w : World) : World :=
  {| schedule_items := schedule_items w; looks_table := looks_table w;
     next_id := next_id w; now := now w; objects := objects w; log := v;
     rejects := rejects w; answers := answers w |}.

Definition count_events (p : event -> bool) (w : World) : nat :=
  length (List.filter p (log w)).

Definition requests_of (es : list event) : list request :=
  omap (fun e => match e with Request r => Some r | _ => None end) es.

Definition alerts_of (es : list event) : list string :=
  omap (fun e => match e with Alert m => Some m | _ => None end) es.

(** ** Handlers as computations *)

Inductive outcome (A : Type) :=
| Returned (a : A)
| Threw (error : string).
Arguments Returned {A} a.
Arguments Threw {A} error.

Definition Eff (A : Type) : Type := World -> outcome A * World.

#[export] Instance Eff_ret : MRet Eff := fun A a w => (Returned a, w).

#[export] Instance Eff_bind : MBind Eff := fun A B k m w =>
  match m w with
  | (Returned a, w') => k a w'
  | (Threw e, w') => (Threw e, w')
  end.

Definition throw {A : Type} (e : string) : Eff A := fun w => (Threw e, w).

Definition emit (e : event) : Eff unit :=
  fun w => (Returned tt, with_log (log w ++ [e]) w).

(** [window.confirm]: blocks until the user answers. *)
Definition confirm (message : string) : Eff bool :=
  fun w => (Returned (answers w (count_events is_confirm w)),
            with_log (log w ++ [Confirm message]) w).

Definition alert (message : string) : Eff unit := emit (Alert message).

Definition console_error (message : string) : Eff unit := emit (ConsoleError message).

(** A request goes out and the backend either accepts it, or rejects it
    and leaves the tables as they are. *)
Definition send (r : request) : Eff bool :=
  fun w => (Returned (negb (rejects w (count_events is_request w))),
            with_log (log w ++ [Request r]) w).

(** The [{ data, error }] pair of a query that returns rows. *)
Inductive response (A : Type) :=
| Data (data : A)
| Error (error : string).
Arguments Data {A} data.
Arguments Error {A} error.

Definition update_world (f : World -> World) : Eff unit :=
  fun w => (Returned tt, f w).

Definition read_world {A : Type} (f : World -> A) : Eff A :=
  fun w => (Returned (f w), w).

(** ** The record store gateway *)

Module Gateway.

(** [from('schedule_items').insert(rows).select()] *)
Definition insert_schedule_items (rows : list ScheduleItem.draft)
  : Eff (response (list ScheduleItem.t)) :=
  accepted ← send (InsertScheduleItems rows);
  if accepted : bool then
    i ← read_world next_id;
    let data := imap (fun k d => {| ScheduleItem.id := i + k;
                                    ScheduleItem.columns := d |})%nat rows in
    update_world (fun w =>
      with_next_id (i + length rows)%nat
        (with_schedule_items (schedule_items w ++ data) w));;
    mret (Data data)
  else mret (Error "rejected").

(** [from('schedule_items').delete().eq('production_id', pid)];
    the result is the [error] of the response. *)
Definition delete_schedule_items_of_production (pid : string)
  : Eff (option string) :=
  accepted ← send (DeleteScheduleItemsOfProduction pid);
  if accepted : bool then
    update_world (fun w =>
      with_schedule_items
        (filter (fun r => ScheduleItem.production_id (ScheduleItem.columns r) ≠ pid)
                (schedule_items w)) w);;
    mret None
  else mret (Some "rejected").

(** [from('schedule_items').delete().eq('id', id)] *)
Definition delete_schedule_item (id : rowid) : Eff (option string) :=
  accepted ← send (DeleteScheduleItemById id);
  if accepted : bool then
    update_world (fun w =>
      with_schedule_items
        (filter (fun r => ScheduleItem.id r ≠ id) (schedule_items w)) w);;
    mret None
  else mret (Some "rejected").

(** [from('looks').insert(rows).select()] *)
Definition insert_looks (rows : list Look.draft) : Eff (response (list Look.t)) :=
  accepted ← send (InsertLooks rows);
  if accepted : bool then
    i ← read_world next_id;
    t ← read_world now;
    let data := imap (fun k d => Look.of_draft (i + k) t d)%nat rows in
    update_world (fun w =>
      with_next_id (i + length rows)%nat
        (with_looks_table (looks_table w ++ data) w));;
    mret (Data data)
  else mret (Error "rejected").

Definition set_order_where (id : rowid) (v : Z) (rows : list Look.t) : list Look.t :=
  (fun r => if decide (Look.id r = id) then Look.set_sequence_order v r else r) <$> rows.

(** [from('looks').update({ sequence_order: v }).eq('id', id)] *)
Definition update_look_sequence_order (id : rowid) (v : Z) : Eff (option string) :=
  accepted ← send (UpdateLookSequenceOrder id v);
  if accepted : bool then
    update_world (fun w => with_looks_table (set_order_where id v (looks_table w)) w);;
    mret None
  else mret (Some "rejected").

End Gateway.

(** ** ScheduleBuilder *)

Module ScheduleBuilder.

(** The new-item form. *)
Record NewItem := {
  title : string;
  description : string;
  start_time : string;
  end_time : string;
  category : string;
  location : string;
  notes : string }.

Definition blankItem : NewItem :=
  {| title := ""; description := ""; start_time := ""; end_time := "";
     category := "general"; location := ""; notes := "" |}.

(** The React state the handlers close over; [params_id] is the
    production of the route. *)
Record State := {
  params_id : string;
  scheduleItems : list ScheduleItem.t;
  newItem : NewItem;
  showAddForm : bool }.

Definition setScheduleItems (v : list ScheduleItem.t) (st : State) : State :=
  {| params_id := params_id st; scheduleItems := v;
     newItem := newItem st; showAddForm := showAddForm st |}.

Definition setNewItem (v : NewItem) (st : State) : State :=
  {| params_id := params_id st; scheduleItems := scheduleItems st;
     newItem := v; showAddForm := showAddForm st |}.

Definition setShowAddForm (v : bool) (st : State) : State :=
  {| params_id := params_id st; scheduleItems := scheduleItems st;
     newItem := newItem st; showAddForm := v |}.

(** The row [addScheduleItem] inserts. *)
Definition newItemRow (st : State) : ScheduleItem.draft :=
  let f := newItem st in
  {| ScheduleItem.production_id := params_id st;
     ScheduleItem.title := Js.Str (Js.trim (title f));
     ScheduleItem.description := Js.Str (Js.trim (description f));
     ScheduleItem.start_time := Js.Str (start_time f);
     ScheduleItem.end_time := Js.or (Js.Str (end_time f)) Js.Null;
     ScheduleItem.category := Js.Str (category f);
     ScheduleItem.location := Js.or (Js.Str (Js.trim (location f))) Js.Null;
     ScheduleItem.notes := Js.or (Js.Str (Js.trim (notes f))) Js.Null;
     ScheduleItem.sequence_order := Z.of_nat (length (scheduleItems st)) |}.

Definition addScheduleItem (st : State) : Eff State :=
  if negb (Js.str_truthy (Js.trim (title (newItem st))))
     || negb (Js.str_truthy (start_time (newItem st)))
  then mret st
  else
    r ← Gateway.insert_schedule_items [newItemRow st];
    match r with
    | Error _ =>
        console_error "Error adding schedule item:";;
        mret st
    | Data data =>
        mret (setShowAddForm false
                (setNewItem blankItem
                   (setScheduleItems (scheduleItems st ++ data) st)))
    end.

Definition deleteScheduleItem (itemId : rowid) (st : State) : Eff State :=
  error ← Gateway.delete_schedule_item itemId;
  match error with
  | Some _ =>
      console_error "Error deleting schedule item:";;
      mret st
  | None =>
      mret (setScheduleItems
              (filter (fun item => ScheduleItem.id item ≠ itemId) (scheduleItems st)) st)
  end.

(** The callback of [templateData.map] in [applyTemplate]. *)
Definition itemToInsert (pid : string) (index : nat) (item : Blueprint.t)
  : ScheduleItem.draft :=
  {| ScheduleItem.production_id := pid;
     ScheduleItem.title := Blueprint.title item;
     ScheduleItem.description := Js.or (Blueprint.description item) (Js.Str "");
     ScheduleItem.start_time := Blueprint.start_time item;
     ScheduleItem.end_time := Js.or (Blueprint.end_time item) Js.Null;
     ScheduleItem.category := Js.or (Blueprint.category item) (Js.Str "general");
     ScheduleItem.location := Js.or (Blueprint.location item) Js.Null;
     ScheduleItem.notes := Js.or (Blueprint.notes item) Js.Null;
     ScheduleItem.sequence_order := Z.of_nat index |}.

(** The part of [applyTemplate] below the comment "Add template items". *)
Definition addTemplateItems (templateData : list Blueprint.t) (st : State)
  : Eff State :=
  let itemsToInsert := imap (itemToInsert (params_id st)) templateData in
  r ← Gateway.insert_schedule_items itemsToInsert;
  match r with
  | Error _ =>
      console_error "Error applying template:";;
      mret st
  | Data data => mret (setScheduleItems data st)
  end.

Definition applyTemplate (templateData : list Blueprint.t) (st : State)
  : Eff State :=
  if (0 <? length (scheduleItems st))%nat then
    ok ← confirm "This will replace your current schedule. Continue?";
    if negb ok then mret st
    else
      (** the response of the delete is dropped *)
      Gateway.delete_schedule_items_of_production (params_id st);;
      addTemplateItems templateData st
  else addTemplateItems templateData st.

(** Everything in [calculateDuration] after [diffMs] is known.  NaN
    stands for the difference when a date is invalid. *)
Definition durationLabel (diffMs : float) : string :=
  let diffHours := (diffMs / (1000 * 60 * 60))%float in
  if (diffHours <? 1)%float then
    let diffMinutes := JsNumber.Math_round (diffMs / (1000 * 60))%float in
    JsNumber.toString diffMinutes +:+ "min"
  else JsNumber.toFixed1 diffHours +:+ "h".

(** [getTime s] is [new Date(s).getTime()]: what a string denotes is
    decided by the engine, which returns a whole number of milliseconds,
    or NaN ([None]) for an invalid date.  The double of the difference of
    two time values is what the subtraction of their doubles gives. *)
Definition calculateDuration (getTime : string -> option Z)
    (startTime : string) (endTime : option string) : string :=
  match endTime with
  | None | Some EmptyString => ""
  | Some endTime =>
      let start := getTime ("2000-01-01T" +:+ startTime) in
      let end_ := getTime ("2000-01-01T" +:+ endTime) in
      let diffMs :=
        match end_, start with
        | Some e, Some s => JsNumber.of_Z (e - s)
        | _, _ => PrimFloat.nan
        end in
      durationLabel diffMs
  end.

End ScheduleBuilder.

(** ** LooksManagement *)

Module LooksManagement.

(** [looks] is an array of references: the objects live in the world's
    store, and [moveUp] and [moveDown] write to them in place. *)
Record State := {
  params_id : string;
  looks : list loc;
  newLookName : string }.

Definition setLooks (v : list loc) (st : State) : State :=
  {| params_id := params_id st; looks := v; newLookName := newLookName st |}.

Definition setNewLookName (v : string) (st : State) : State :=
  {| params_id := params_id st; looks := looks st; newLookName := v |}.

(** Reading a property of [undefined] throws. *)
Definition deref (l : loc) : Eff Look.t :=
  fun w => match objects w !! l with
           | Some o => (Returned o, w)
           | None => (Threw "TypeError: Cannot read properties of undefined", w)
           end.

(** [a[i].sequence_order = v], where [a[i]] is [undefined] when [i] is
    not an index of [a]. *)
Definition assign_sequence_order (target : option loc) (v : Z) : Eff loc :=
  match target with
  | None => throw "TypeError: Cannot set properties of undefined (setting 'sequence_order')"
  | Some l =>
      update_world (fun w => with_objects (alter (Look.set_sequence_order v) l (objects w)) w);;
      mret l
  end.

(** The rows of a response become new objects. *)
Definition allocate (o : Look.t) : Eff loc :=
  fun w => let l := fresh (dom (objects w)) in
           (Returned l, with_objects (<[l := o]> (objects w)) w).

(** [Math.max(x, ...rest)] *)
Definition Math_max (x : Z) (rest : list Z) : Z := foldl Z.max x rest.

(** In [createLook] the next index is [Math.max(...) + 1].  The sum of
    doubles is the sum of integers as long as it stays within 2^53 in
    magnitude; what the properties say about the next index, they say of
    sequence indices below 2^53. *)

Definition createLook (st : State) : Eff State :=
  if negb (Js.str_truthy (Js.trim (newLookName st))) then mret st
  else
    orders ← mapM (fun l => o ← deref l; mret (Look.sequence_order o)) (looks st);
    let nextOrder :=
      match orders with
      | [] => 0
      | x :: rest => Math_max x rest + 1
      end in
    r ← Gateway.insert_looks
          [ {| Look.d_production_id := params_id st;
               Look.d_name := Js.trim (newLookName st);
               Look.d_description := "";
               Look.d_sequence_order := nextOrder;
               Look.d_styling_notes := "" |} ];
    match r with
    | Error _ =>
        console_error "Error creating look:";;
        mret st
    | Data data =>
        fresh_looks ← mapM allocate data;
        mret (setNewLookName "" (setLooks (looks st ++ fresh_looks) st))
    end.

(** [index] is an array index: the callers pass the position that
    [looks.map] hands them. *)
Definition moveUp (index : nat) (st : State) : Eff State :=
  if (index =? 0)%nat then mret st
  else
    let temp := looks st !! index in
    let neighbour := looks st !! (index - 1)%nat in
    (** after the swap [newLooks[index]] is [neighbour] and
        [newLooks[index - 1]] is [temp] *)
    lower ← assign_sequence_order neighbour (Z.of_nat index);
    upper ← assign_sequence_order temp (Z.of_nat index - 1);
    let newLooks := <[(index - 1)%nat := upper]> (<[index := lower]> (looks st)) in
    lower_obj ← deref lower;
    upper_obj ← deref upper;
    (** [Promise.all] of the two updates; its result is dropped *)
    Gateway.update_look_sequence_order (Look.id lower_obj) (Z.of_nat index);;
    Gateway.update_look_sequence_order (Look.id upper_obj) (Z.of_nat index - 1);;
    mret (setLooks newLooks st).

Definition moveDown (index : nat) (st : State) : Eff State :=
  if Z.of_nat index =? Z.of_nat (length (looks st)) - 1 then mret st
  else
    let temp := looks st !! index in
    let neighbour := looks st !! (index + 1)%nat in
    (** after the swap [newLooks[index]] is [neighbour] and
        [newLooks[index + 1]] is [temp] *)
    upper ← assign_sequence_order neighbour (Z.of_nat index);
    lower ← assign_sequence_order temp (Z.of_nat index + 1);
    let newLooks := <[(index + 1)%nat := lower]> (<[index := upper]> (looks st)) in
    upper_obj ← deref upper;
    lower_obj ← deref lower;
    Gateway.update_look_sequence_order (Look.id upper_obj) (Z.of_nat index);;
    Gateway.update_look_sequence_order (Look.id lower_obj) (Z.of_nat index + 1);;
    mret (setLooks newLooks st).

End LooksManagement.

(** ** CallSheetGenerator *)

Module Production.
Record t := {
  id : string;
  name : string;
  shoot_date : option string;
  call_time : option string;
  location_address : option string;
  location_details : option string;
  client_name : option string;
  producer_name : option string;
  producer_phone : option string;
  weather_backup : option string;
  parking_info : option string;
  special_notes : option string;
  created_at : string }.
End Production.

Module CrewMember.
Record t := {
  id : string;
  name : string;
  role : string;
  call_time : option string;
  phone : option string;
  email : option string;
  notes : option string }.
End CrewMember.

Module LookName.
(** What the call sheet selects of a look: [id, name, sequence_order]. *)
Record t := { id : string; name : string; sequence_order : Z }.
End LookName.

Module CallSheetGenerator.

(** *** The export loop of [generatePDF] *)

Definition imgWidth : Q := 210.
Definition pageHeight : Q := 295.

(** [(canvas.height * imgWidth) / canvas.width] *)
Definition imgHeight (canvas_width canvas_height : Z) : Q :=
  (inject_Z canvas_height * imgWidth) / inject_Z canvas_width.

(** The [while (heightLeft >= 0)] loop.  The result lists, page after
    page, the [position] at which the image is drawn on the page that
    the iteration adds; [None] when the fuel does not reach the exit. *)
Fixpoint addPages (fuel : nat) (imgHeight heightLeft : Q) : option (list Q) :=
  match fuel with
  | O => None
  | S fuel' =>
      if Qle_bool 0 heightLeft then
        let position := (heightLeft - imgHeight)%Q in
        (fun pages => position :: pages)
          <$> addPages fuel' imgHeight (heightLeft - pageHeight)%Q
      else Some []
  end.

(** The pages of the document [generatePDF] saves: the first page with
    the image at position 0, then the pages of the loop. *)
Definition pdfPages (fuel : nat) (canvas_width canvas_height : Z)
  : option (list Q) :=
  let imgHeight := imgHeight canvas_width canvas_height in
  let heightLeft := imgHeight in
  let position := 0%Q in
  let heightLeft := (heightLeft - pageHeight)%Q in
  (fun pages => position :: pages) <$> addPages fuel imgHeight heightLeft.

(** The number of bands of height [band] that cover a height: the
    least n with n * band >= height. *)
Definition bandsNeeded (height band : Q) : Z := Qceiling (height / band).

(** *** The call-sheet preview *)

(** What React renders, without the styling attributes. *)
Inductive node :=
| Text (s : string)
(** [new Date(iso).toLocaleDateString()], which depends on the locale *)
| LocaleDate (iso : string)
| Element (tag : string) (children : list node).

(** [{value && element}]: nothing is rendered for a falsy value. *)
Definition present (o : option string) : bool := Js.truthy (Js.of_option o).

Definition when (o : option string) (render : string -> list node) : list node :=
  match o with
  | Some s => if Js.str_truthy s then render s else []
  | None => []
  end.

(** [value || fallback], for a value of type [string | null] *)
Definition orDefault (o : option string) (fallback : string) : string :=
  match o with
  | Some s => if Js.str_truthy s then s else fallback
  | None => fallback
  end.

(** [{value || fallback}] *)
Definition orElse (o : option string) (fallback : string) : node :=
  Text (orDefault o fallback).

Definition strong (label : string) : node := Element "strong" [Text label].

Definition header (production : Production.t) : node :=
  Element "div"
    ([ Element "h1" [Text "CALL SHEET"];
       Element "h2" [Text (Production.name production)] ]
     ++ when (Production.client_name production)
          (fun client => [Element "p" [Text "Client: "; Text client]])).

Definition productionInfo (production : Production.t) : node :=
  Element "div"
    [ Element "div"
        [ strong "Date:"; Text " ";
          match Production.shoot_date production with
          | Some d => if Js.str_truthy d then LocaleDate d else Text "TBD"
          | None => Text "TBD"
          end ];
      Element "div"
        [ strong "Call Time:"; Text " ";
          orElse (Production.call_time production) "TBD" ];
      Element "div"
        [ strong "Producer:"; Text " ";
          orElse (Production.producer_name production) "TBD" ];
      Element "div"
        [ strong "Phone:"; Text " ";
          orElse (Production.producer_phone production) "TBD" ] ].

Definition location (production : Production.t) : node :=
  Element "div"
    ([ Element "h3" [Text "LOCATION"];
       Element "p" [ strong "Address:"; Text " ";
                     orElse (Production.location_address production) "TBD" ] ]
     ++ when (Production.location_details production)
          (fun v => [Element "p" [strong "Details:"; Text " "; Text v]])
     ++ when (Production.parking_info production)
          (fun v => [Element "p" [strong "Parking:"; Text " "; Text v]])
     ++ when (Production.weather_backup production)
          (fun v => [Element "p" [strong "Weather Backup:"; Text " "; Text v]])).

Definition crewRow (member : CrewMember.t) : node :=
  Element "tr"
    [ Element "td" [Text (CrewMember.name member)];
      Element "td" [Text (CrewMember.role member)];
      Element "td" [orElse (CrewMember.call_time member) "-"];
      Element "td" [orElse (CrewMember.phone member) "-"] ].

(** [{crew.length > 0 && (...)}] *)
Definition crewSection (crew : list CrewMember.t) : list node :=
  if (0 <? length crew)%nat then
    [ Element "div"
        [ Element "h3" [Text "CREW"];
          Element "table"
            [ Element "thead"
                [ Element "tr"
                    [ Element "th" [Text "Name"]; Element "th" [Text "Role"];
                      Element "th" [Text "Call Time"]; Element "th" [Text "Phone"] ] ];
              Element "tbody" (crewRow <$> crew) ] ] ]
  else [].

Definition lookLine (index : nat) (look : LookName.t) : node :=
  Element "li"
    [ Text "Look "; Text (Js.string_of_Z (Z.of_nat index + 1)); Text ": ";
      Text (LookName.name look) ].

(** [{looks.length > 0 && (...)}] *)
Definition looksSection (looks : list LookName.t) : list node :=
  if (0 <? length looks)%nat then
    [ Element "div"
        [ Element "h3" [Text "LOOKS"];
          Element "ol" (imap lookLine looks) ] ]
  else [].

Definition emergencyContacts (production : Production.t) : node :=
  Element "div"
    [ Element "h3" [Text "EMERGENCY CONTACTS"];
      Element "p"
        [ strong "Producer:"; Text " ";
          orElse (Production.producer_name production) "TBD"; Text " - ";
          orElse (Production.producer_phone production) "TBD" ];
      Element "p" [strong "Emergency Services:"; Text " 911"] ].

Definition specialNotes (production : Production.t) : list node :=
  when (Production.special_notes production)
    (fun v => [ Element "div"
                  [ Element "h3" [Text "SPECIAL NOTES"];
                    Element "p" [Text v] ] ]).

(** The element behind [callSheetRef]. *)
Definition callSheet (production : Production.t) (crew : list CrewMember.t)
    (looks : list LookName.t) : node :=
  Element "div"
    ([ header production; productionInfo production; location production ]
     ++ crewSection crew
     ++ looksSection looks
     ++ [ emergencyContacts production ]
     ++ specialNotes production).

(** *** Reading a rendered document *)

(** The texts of the section headings ([h3]) of a document, in order. *)
Fixpoint headings (n : node) : list string :=
  match n with
  | Element tag children =>
      (if String.eqb tag "h3" then
         match children with
         | [Text s] => [s]
         | _ => []
         end
       else [])
      ++ flat_map headings children
  | _ => []
  end.

(** What follows the label [<strong>label</strong>] in its line, for
    every line of the document that starts with that label. *)
Fixpoint labelled (label : string) (n : node) : list (list node) :=
  match n with
  | Element _ children =>
      match children with
      | Element tag [Text l] :: value =>
          if String.eqb tag "strong" && String.eqb l label then [value] else []
      | _ => []
      end
      ++ flat_map (labelled label) children
  | _ => []
  end.

End CallSheetGenerator.

(** * The handlers behind the look cards and the call-sheet form *)

(** ** What they add to the world *)

Module CrewForm.
(** The new-crew form.  With the production of the page in front it is
    the row that [addCrewMember] inserts. *)
Record t := {
  name : string;
  role : string;
  call_time : string;
  phone : string;
  email : string }.

Definition blank : t :=
  {| name := ""; role := ""; call_time := ""; phone := ""; email := "" |}.

(** What the backend stores for an inserted row, under the identity it
    gives to it; [notes] is not sent. *)
Definition stored (id : string) (f : t) : CrewMember.t :=
  {| CrewMember.id := id; CrewMember.name := name f; CrewMember.role := role f;
     CrewMember.call_time := Some (call_time f); CrewMember.phone := Some (phone f);
     CrewMember.email := Some (email f); CrewMember.notes := None |}.
End CrewForm.

Module ProductionField.
(** The column names that the details form passes to [updateProduction]. *)
Inductive t :=
| client_name | producer_name | producer_phone | shoot_date | call_time
| location_address | location_details | parking_info | weather_backup.

(** [f === g] *)
Definition same (f g : t) : bool :=
  match f, g with
  | client_name, client_name | producer_name, producer_name
  | producer_phone, producer_phone | shoot_date, shoot_date | call_time, call_time
  | location_address, location_address | location_details, location_details
  | parking_info, parking_info | weather_backup, weather_backup => true
  | _, _ => false
  end.

Definition get (f : t) (p : Production.t) : option string :=
  match f with
  | client_name => Production.client_name p
  | producer_name => Production.producer_name p
  | producer_phone => Production.producer_phone p
  | shoot_date => Production.shoot_date p
  | call_time => Production.call_time p
  | location_address => Production.location_address p
  | location_details => Production.location_details p
  | parking_info => Production.parking_info p
  | weather_backup => Production.weather_backup p
  end.

(** [{ ...p, [f]: v }] *)
Definition put (f : t) (v : option string) (p : Production.t) : Production.t :=
  let field g := if same f g then v else get g p in
  {| Production.id := Production.id p;
     Production.name := Production.name p;
     Production.shoot_date := field shoot_date;
     Production.call_time := field call_time;
     Production.location_address := field location_address;
     Production.location_details := field location_details;
     Production.client_name := field client_name;
     Production.producer_name := field producer_name;
     Production.producer_phone := field producer_phone;
     Production.weather_backup := field weather_backup;
     Production.parking_info := field parking_info;
     Production.special_notes := Production.special_notes p;
     Production.created_at := Production.created_at p |}.
End ProductionField.

(** The requests of these handlers. *)
Inductive call :=
| SelectLooks (production_id : string)
| DeleteLookById (id : rowid)
| UpdateLookImageUrl (id : rowid) (image_url : string)
| UpdateProduction (id : string) (field : ProductionField.t) (value : string)
| InsertCrewMembers (rows : list (string * CrewForm.t))
| DeleteCrewMemberById (id : string).

(** A [File] of the file picker. *)
Definition File := string.

Record Site := {
  (** the tables, objects and log of the handlers above *)
  world : World;
  (** table [productions] *)
  productions : list Production.t;
  (** table [crew_members]: the production and the columns the page reads *)
  crew_members : list (string * CrewMember.t);
  (** the requests of the handlers below, oldest first, and whether the
      backend rejects the k-th of them *)
  calls : list call;
  refuses : nat -> bool;
  (** the identity the backend gives to a crew member, from its counter *)
  crew_ids : nat -> string;
  (** the lines of [console.log] *)
  console : list string;
  (** the URLs that [URL.createObjectURL] hands out, and the files that
      the URLs made so far stand for *)
  object_urls : nat -> string;
  blobs : list (string * File);
  (** the width and the height of the canvas that [html2canvas] draws of
      the preview, or nothing when it fails *)
  canvas : option (Z * Z);
  (** the documents saved: file name and pages *)
  saved : list (string * list Q) }.

Definition with_world (v : World) (s : Site) : Site :=
  {| world := v; productions := productions s; crew_members := crew_members s;
     calls := calls s; refuses := refuses s; crew_ids := crew_ids s;
     console := console s; object_urls := object_urls s; blobs := blobs s;
     canvas := canvas s; saved := saved s |}.

Definition with_productions (v : list Production.t) (s : Site) : Site :=
  {| world := world s; productions := v; crew_members := crew_members s;
     calls := calls s; refuses := refuses s; crew_ids := crew_ids s;
     console := console s; object_urls := object_urls s; blobs := blobs s;
     canvas := canvas s; saved := saved s |}.

Definition with_crew_members (v : list (string * CrewMember.t)) (s : Site) : Site :=
  {| world := world s; productions := productions s; crew_members := v;
     calls := calls s; refuses := refuses s; crew_ids := crew_ids s;
     console := console s; object_urls := object_urls s; blobs := blobs s;
     canvas := canvas s; saved := saved s |}.

Definition with_calls (v : list call) (s : Site) : Site :=
  {| world := world s; productions := productions s; crew_members := crew_members s;
     calls := v; refuses := refuses s; crew_ids := crew_ids s;
     console := console s; object_urls := object_urls s; blobs := blobs s;
     canvas := canvas s; saved := saved s |}.

Definition with_console (v : list string) (s : Site) : Site :=
  {| world := world s; productions := productions s; crew_members := crew_members s;
     calls := calls s; refuses := refuses s; crew_ids := crew_ids s;
     console := v; object_urls := object_urls s; blobs := blobs s;
     canvas := canvas s; saved := saved s |}.

Definition with_blobs (v : list (string * File)) (s : Site) : Site :=
  {| world := world s; productions := productions s; crew_members := crew_members s;
     calls := calls s; refuses := refuses s; crew_ids := crew_ids s;
     console := console s; object_urls := object_urls s; blobs := v;
     canvas := canvas s; saved := saved s |}.

Definition with_saved (v : list (string * list Q)) (s : Site) : Site :=
  {| world := world s; productions := productions s; crew_members := crew_members s;
     calls := calls s; refuses := refuses s; crew_ids := crew_ids s;
     console := console s; object_urls := object_urls s; blobs := blobs s;
     canvas := canvas s; saved := v |}.

(** ** Handlers over the larger world *)

Definition Act (A : Type) : Type := Site -> outcome A * Site.

#[export] Instance Act_ret : MRet Act := fun A a s => (Returned a, s).

#[export] Instance Act_bind : MBind Act := fun A B k m s =>
  match m s with
  | (Returned a, s') => k a s'
  | (Threw e, s') => (Threw e, s')
  end.

(** A computation of the handlers above, run on the world of the site. *)
Definition lift {A : Type} (m : Eff A) : Act A :=
  fun s => let (r, w') := m (world s) in (r, with_world w' s).

Definition call_backend (c : call) : Act bool :=
  fun s => (Returned (negb (refuses s (length (calls s)))),
            with_calls (calls s ++ [c]) s).

Definition console_log (message : string) : Act unit :=
  fun s => (Returned tt, with_console (console s ++ [message]) s).

Definition update_site (f : Site -> Site) : Act unit :=
  fun s => (Returned tt, f s).

Definition read_site {A : Type} (f : Site -> A) : Act A :=
  fun s => (Returned (f s), s).

(** [try { body } catch (error) { handler }] *)
Definition try_catch {A : Type} (body : Act A) (handler : string -> Act A) : Act A :=
  fun s => match body s with
           | (Threw e, s') => handler e s'
           | returned => returned
           end.

(** [URL.createObjectURL(file)]: every call makes a URL of its own. *)
Definition createObjectURL (file : File) : Act string :=
  fun s => let url := object_urls s (length (blobs s)) in
           (Returned url, with_blobs (blobs s ++ [(url, file)]) s).

(** [html2canvas(element, options)] *)
Definition html2canvas : Act (Z * Z) :=
  fun s => match canvas s with
           | Some c => (Returned c, s)
           | None => (Threw "html2canvas", s)
           end.

(** [pdf.save(name)] for a document of the given pages *)
Definition save (name : string) (pages : list Q) : Act unit :=
  update_site (fun s => with_saved (saved s ++ [(name, pages)]) s).

Module Backend.

(** [order('sequence_order', { ascending: true })] *)
Definition by_sequence_order (a b : Look.t) : Prop :=
  Look.sequence_order a <= Look.sequence_order b.

#[global] Instance by_sequence_order_dec (a b : Look.t) : Decision (by_sequence_order a b).
Proof. unfold by_sequence_order. apply _. Defined.

(** [from('looks').select('*').eq('production_id', pid).order('sequence_order',
    { ascending: true })]; rows with the same sequence index, which a
    backend may list in any order, are listed as the sort leaves them. *)
Definition select_looks (pid : string) : Act (response (list Look.t)) :=
  accepted ← call_backend (SelectLooks pid);
  if accepted : bool then
    rows ← lift (read_world looks_table);
    mret (Data (merge_sort by_sequence_order
                  (filter (fun r => Look.production_id r = pid) rows)))
  else mret (Error "rejected").

(** [from('looks').delete().eq('id', id)] *)
Definition delete_look (id : rowid) : Act (option string) :=
  accepted ← call_backend (DeleteLookById id);
  if accepted : bool then
    lift (update_world (fun w =>
      with_looks_table (filter (fun r => Look.id r ≠ id) (looks_table w)) w));;
    mret None
  else mret (Some "rejected").

(** [{ ...look, image_url: v }] *)
Definition with_image_url (v : string) (o : Look.t) : Look.t :=
  {| Look.id := Look.id o; Look.production_id := Look.production_id o;
     Look.name := Look.name o; Look.description := Look.description o;
     Look.image_url := Some v; Look.sequence_order := Look.sequence_order o;
     Look.styling_notes := Look.styling_notes o; Look.created_at := Look.created_at o |}.

Definition set_image_where (id : rowid) (v : string) (rows : list Look.t) : list Look.t :=
  (fun r => if decide (Look.id r = id) then with_image_url v r else r) <$> rows.

(** [from('looks').update({ image_url: v }).eq('id', id)] *)
Definition update_look_image_url (id : rowid) (v : string) : Act (option string) :=
  accepted ← call_backend (UpdateLookImageUrl id v);
  if accepted : bool then
    lift (update_world (fun w =>
      with_looks_table (set_image_where id v (looks_table w)) w));;
    mret None
  else mret (Some "rejected").

(** [from('productions').update({ [field]: value }).eq('id', pid)] *)
Definition update_production (pid : string) (field : ProductionField.t) (value : string)
  : Act (option string) :=
  accepted ← call_backend (UpdateProduction pid field value);
  if accepted : bool then
    update_site (fun s =>
      with_productions
        ((fun p => if decide (Production.id p = pid)
                   then ProductionField.put field (Some value) p else p)
           <$> productions s) s);;
    mret None
  else mret (Some "rejected").

(** [from('crew_members').insert(rows).select()] *)
Definition insert_crew_members (rows : list (string * CrewForm.t))
  : Act (response (list CrewMember.t)) :=
  accepted ← call_backend (InsertCrewMembers rows);
  if accepted : bool then
    i ← lift (read_world next_id);
    ids ← read_site crew_ids;
    let data := imap (fun k row => (fst row, CrewForm.stored (ids (i + k)%nat) (snd row)))
                  rows in
    lift (update_world (with_next_id (i + length rows)%nat));;
    update_site (fun s => with_crew_members (crew_members s ++ data) s);;
    mret (Data (snd <$> data))
  else mret (Error "rejected").

(** [from('crew_members').delete().eq('id', id)] *)
Definition delete_crew_member (id : string) : Act (option string) :=
  accepted ← call_backend (DeleteCrewMemberById id);
  if accepted : bool then
    update_site (fun s =>
      with_crew_members
        (filter (fun row => CrewMember.id (snd row) ≠ id) (crew_members s)) s);;
    mret None
  else mret (Some "rejected").

End Backend.

(** ** LooksManagement: the look cards *)

Module LookCards.

(** The state of the page: what [createLook], [moveUp] and [moveDown]
    close over, whether the looks are still being loaded, and the look
    whose image is being uploaded. *)
Record State := {
  gallery : LooksManagement.State;
  loading : bool;
  uploading : option rowid }.

Definition setLooks (v : list loc) (st : State) : State :=
  {| gallery := LooksManagement.setLooks v (gallery st); loading := loading st;
     uploading := uploading st |}.

Definition setLoading (v : bool) (st : State) : State :=
  {| gallery := gallery st; loading := v; uploading := uploading st |}.

Definition setUploading (v : option rowid) (st : State) : State :=
  {| gallery := gallery st; loading := loading st; uploading := v |}.

Definition looks (st : State) : list loc := LooksManagement.looks (gallery st).

Definition loadLooks (st : State) : Act State :=
  r ← Backend.select_looks (LooksManagement.params_id (gallery st));
  st ← match r with
       | Error _ =>
           lift (console_error "Error loading looks:");;
           mret st
       | Data data =>
           console_log "✅ Loaded looks:";;
           (** the rows of the response become the objects of the page *)
           newLooks ← lift (mapM LooksManagement.allocate data);
           mret (setLooks newLooks st)
       end;
  mret (setLoading false st).

(** The callback of [looks.map] in [updateImageUrl] and [uploadImage]:
    the look with the identity gets a new object with the URL that
    [imageUrl] evaluates to; the others stay the objects they were. *)
Definition withImage (lookId : rowid) (imageUrl : Act string) (l : loc) : Act loc :=
  look ← lift (LooksManagement.deref l);
  if decide (Look.id look = lookId) then
    url ← imageUrl;
    lift (LooksManagement.allocate (Backend.with_image_url url look))
  else mret l.

Definition updateImageUrl (lookId : rowid) (imageUrl : string) (st : State) : Act State :=
  console_log "🔗 Updating image URL for look:";;
  error ← Backend.update_look_image_url lookId imageUrl;
  match error with
  | Some _ =>
      lift (console_error "❌ Failed to update image URL:");;
      lift (alert "Failed to save image URL");;
      mret st
  | None =>
      newLooks ← mapM (withImage lookId (mret imageUrl)) (looks st);
      console_log "✅ Image URL updated successfully";;
      mret (setLooks newLooks st)
  end.

Definition uploadImage (lookId : rowid) (file : File) (st : State) : Act State :=
  let st := setUploading (Some lookId) st in
  url ← createObjectURL file;
  error ← Backend.update_look_image_url lookId url;
  st ← match error with
       | Some _ =>
           lift (console_error "❌ Failed to upload image:");;
           lift (alert "Failed to upload image");;
           mret st
       | None =>
           newLooks ← mapM (withImage lookId (createObjectURL file)) (looks st);
           console_log "✅ Image uploaded successfully";;
           mret (setLooks newLooks st)
       end;
  mret (setUploading None st).

(** The callback of [looks.filter] in [deleteLook]. *)
Definition keeps (lookId : rowid) (l : loc) : Act (option loc) :=
  look ← lift (LooksManagement.deref l);
  mret (if decide (Look.id look ≠ lookId) then Some l else None).

Definition deleteLook (lookId : rowid) (st : State) : Act State :=
  ok ← lift (confirm "Are you sure you want to delete this look?");
  if negb ok then mret st
  else
    error ← Backend.delete_look lookId;
    match error with
    | Some _ =>
        lift (console_error "Error deleting look:");;
        mret st
    | None =>
        kept ← mapM (keeps lookId) (looks st);
        mret (setLooks (omap id kept) st)
    end.

(** The reorder buttons of the card that [looks.map] renders at [index]:
    [disabled={index === 0}] and [disabled={index === looks.length - 1}]. *)
Definition upDisabled (index : nat) : bool := (index =? 0)%nat.

Definition downDisabled (st : State) (index : nat) : bool :=
  Z.of_nat index =? Z.of_nat (length (looks st)) - 1.

End LookCards.

(** ** CallSheetGenerator: the form *)

Module CallSheetForm.

Record State := {
  params_id : string;
  production : option Production.t;
  crew : list CrewMember.t;
  looks : list LookName.t;
  generating : bool;
  newCrew : CrewForm.t;
  (** whether [callSheetRef.current] is an element *)
  callSheetRef : bool }.

Definition setProduction (v : option Production.t) (st : State) : State :=
  {| params_id := params_id st; production := v; crew := crew st; looks := looks st;
     generating := generating st; newCrew := newCrew st; callSheetRef := callSheetRef st |}.

Definition setCrew (v : list CrewMember.t) (st : State) : State :=
  {| params_id := params_id st; production := production st; crew := v; looks := looks st;
     generating := generating st; newCrew := newCrew st; callSheetRef := callSheetRef st |}.

Definition setGenerating (v : bool) (st : State) : State :=
  {| params_id := params_id st; production := production st; crew := crew st;
     looks := looks st; generating := v; newCrew := newCrew st;
     callSheetRef := callSheetRef st |}.

Definition setNewCrew (v : CrewForm.t) (st : State) : State :=
  {| params_id := params_id st; production := production st; crew := crew st;
     looks := looks st; generating := generating st; newCrew := v;
     callSheetRef := callSheetRef st |}.

Definition updateProduction (field : ProductionField.t) (value : string) (st : State)
  : Act State :=
  error ← Backend.update_production (params_id st) field value;
  match error with
  | Some _ =>
      lift (console_error "Error updating production:");;
      mret st
  | None =>
      (** [setProduction(prev => prev ? { ...prev, [field]: value } : null)] *)
      mret (setProduction (ProductionField.put field (Some value) <$> production st) st)
  end.

Definition addCrewMember (st : State) : Act State :=
  if negb (Js.str_truthy (Js.trim (CrewForm.name (newCrew st))))
     || negb (Js.str_truthy (Js.trim (CrewForm.role (newCrew st))))
  then mret st
  else
    r ← Backend.insert_crew_members [(params_id st, newCrew st)];
    match r with
    | Error _ =>
        lift (console_error "Error adding crew member:");;
        mret st
    | Data data => mret (setNewCrew CrewForm.blank (setCrew (crew st ++ data) st))
    end.

Definition removeCrewMember (crewId : string) (st : State) : Act State :=
  error ← Backend.delete_crew_member crewId;
  match error with
  | Some _ =>
      lift (console_error "Error removing crew member:");;
      mret st
  | None => mret (setCrew (filter (fun c => CrewMember.id c ≠ crewId) (crew st)) st)
  end.

(** The [try] block of [generatePDF]; nothing when the fuel does not
    reach the end of the loop. *)
Definition exportPDF (fuel : nat) (production : Production.t) : Act (option unit) :=
  c ← html2canvas;
  match CallSheetGenerator.pdfPages fuel (fst c) (snd c) with
  | None => mret None
  | Some pages =>
      save (Production.name production +:+ " - Call Sheet.pdf") pages;;
      console_log "‚úÖ PDF generated successfully";;
      mret (Some tt)
  end.

Definition generatePDF (fuel : nat) (st : State) : Act (option State) :=
  match callSheetRef st, production st with
  | true, Some production =>
      let st := setGenerating true st in
      done ← try_catch (exportPDF fuel production)
                (fun error =>
                   lift (console_error "‚ùå Error generating PDF:");;
                   lift (alert "Failed to generate PDF");;
                   mret (Some tt));
      match done with
      | None => mret None
      | Some _ => mret (Some (setGenerating false st))
      end
  | _, _ => mret (Some st)
  end.

End CallSheetForm.

(** * Vocabulary of the properties *)

(** The rows the backend stores for an accepted insert. *)
Definition stored_from (first : rowid) (rows : list ScheduleItem.draft)
  : list ScheduleItem.t :=
  imap (fun k d => {| ScheduleItem.id := first + k; ScheduleItem.columns := d |})%nat rows.

(** What [field || default] stores: the default for a field that is
    absent ([undefined] or [null]) or otherwise falsy (the empty string,
    0, [false]), and the field itself for every other value. *)
Definition passed_or_defaulted (field default stored : Js.value) : Prop :=
  match field with
  | Js.Undefined | Js.Null => stored = default
  | Js.Str EmptyString | Js.Num 0 | Js.Bool false => stored = default
  | Js.Str (String _ _) | Js.Num (Z.pos _) | Js.Num (Z.neg _) | Js.Bool true =>
      stored = field
  end.

(** The row is what the blueprint at position [k] of a template becomes:
    it carries the production, the position as its sequence index, the
    title and the start time of the blueprint, and the other fields of
    the blueprint or their defaults. *)
Definition expands (pid : string) (k : nat) (item : Blueprint.t)
    (row : ScheduleItem.draft) : Prop :=
  ScheduleItem.production_id row = pid
  /\ ScheduleItem.sequence_order row = Z.of_nat k
  /\ ScheduleItem.title row = Blueprint.title item
  /\ ScheduleItem.start_time row = Blueprint.start_time item
  /\ passed_or_defaulted (Blueprint.description item) (Js.Str "")
       (ScheduleItem.description row)
  /\ passed_or_defaulted (Blueprint.end_time item) Js.Null (ScheduleItem.end_time row)
  /\ passed_or_defaulted (Blueprint.category item) (Js.Str "general")
       (ScheduleItem.category row)
  /\ passed_or_defaulted (Blueprint.location item) Js.Null (ScheduleItem.location row)
  /\ passed_or_defaulted (Blueprint.notes item) Js.Null (ScheduleItem.notes row).

(** The rows match the template: one row per blueprint, in the order of
    the blueprints, each what its blueprint becomes. *)
Definition matches_template (pid : string) (templateData : list Blueprint.t)
    (rows : list ScheduleItem.draft) : Prop :=
  length rows = length templateData
  /\ forall (k : nat) (item : Blueprint.t),
       templateData !! k = Some item ->
       exists row : ScheduleItem.draft, rows !! k = Some row /\ expands pid k item row.

(** A computation is quiet when it leaves the alerts of the log as they
    were, whatever it returns or throws. *)
Definition quiet {A : Type} (m : Eff A) : Prop :=
  forall w : World, alerts_of (log (snd (m w))) = alerts_of (log w).

(** What one of the two writes of a reorder does to the table. *)
Definition write_order (rejected : bool) (id : rowid) (v : Z) (table : list Look.t)
  : list Look.t :=
  if rejected then table else Gateway.set_order_where id v table.

(** [o'] is [o] but for its sequence index. *)
Definition same_but_order (o o' : Look.t) : Prop :=
  Look.id o' = Look.id o
  /\ Look.production_id o' = Look.production_id o
  /\ Look.name o' = Look.name o
  /\ Look.description o' = Look.description o
  /\ Look.image_url o' = Look.image_url o
  /\ Look.styling_notes o' = Look.styling_notes o
  /\ Look.created_at o' = Look.created_at o.

(** What one update of a sequence index makes of the table.  Rejected, it
    leaves the table as it is.  Accepted, it leaves every row in its
    place; a row with the identity carries the index and is the same
    otherwise, a row with another identity is the same. *)
Definition written (rejected : bool) (id : rowid) (v : Z) (before after : list Look.t)
  : Prop :=
  if rejected then after = before
  else
    length after = length before
    /\ forall (i : nat) (r : Look.t),
         before !! i = Some r ->
         exists r' : Look.t,
           after !! i = Some r'
           /\ (Look.id r = id -> Look.sequence_order r' = v /\ same_but_order r r')
           /\ (Look.id r ≠ id -> r' = r).

(** The array of looks is well formed when every slot refers to an object
    of its own, and the object exists. *)
Definition well_formed (st : LooksManagement.State) (w : World) : Prop :=
  NoDup (LooksManagement.looks st)
  /\ forall l, l ∈ LooksManagement.looks st -> is_Some (objects w !! l).

Definition well_formedb (st : LooksManagement.State) (w : World) : bool :=
  bool_decide (NoDup (LooksManagement.looks st))
  && forallb (fun l => bool_decide (is_Some (objects w !! l))) (LooksManagement.looks st).

(** The index [createLook] computes from the sequence indices it reads. *)
Definition nextOrder_of (orders : list Z) : Z :=
  match orders with
  | [] => 0
  | x :: rest => LooksManagement.Math_max x rest + 1
  end.

(** ** The numbering of the schedule and of the gallery *)

(** The schedule is numbered when every item carries its position as its
    sequence index. *)
Definition numbered (items : list ScheduleItem.t) : Prop :=
  forall (k : nat) (item : ScheduleItem.t),
    items !! k = Some item ->
    ScheduleItem.sequence_order (ScheduleItem.columns item) = Z.of_nat k.

(** The gallery is in step when every look carries its position as its
    sequence index. *)
Definition in_step (st : LooksManagement.State) (w : World) : Prop :=
  forall (i : nat) (l : loc),
    LooksManagement.looks st !! i = Some l ->
    exists o, objects w !! l = Some o /\ Look.sequence_order o = Z.of_nat i.

(** The looks shown and the rows stored agree when every stored row with
    the identity of a shown look carries that look's sequence index. *)
Definition agrees (st : LooksManagement.State) (w : World) : Prop :=
  forall (l : loc) (o r : Look.t),
    l ∈ LooksManagement.looks st -> objects w !! l = Some o ->
    r ∈ looks_table w -> Look.id r = Look.id o ->
    Look.sequence_order r = Look.sequence_order o.

(** Different looks of the gallery are different rows. *)
Definition distinct_rows (st : LooksManagement.State) (w : World) : Prop :=
  forall (l l' : loc) (o o' : Look.t),
    l ∈ LooksManagement.looks st -> l' ∈ LooksManagement.looks st ->
    objects w !! l = Some o -> objects w !! l' = Some o' ->
    Look.id o = Look.id o' -> l = l'.

(** The row [createLook] inserts when the looks it reads are [os]. *)
Definition lookRow (st : LooksManagement.State) (os : list Look.t) : Look.draft :=
  {| Look.d_production_id := LooksManagement.params_id st;
     Look.d_name := Js.trim (LooksManagement.newLookName st);
     Look.d_description := "";
     Look.d_sequence_order := nextOrder_of (Look.sequence_order <$> os);
     Look.d_styling_notes := "" |}.


(** Two looks exchange their places and take the positions as their
    sequence indices. *)
Definition swapped (st : LooksManagement.State) (w : World) (i j : nat) (a b : loc)
    (st' : LooksManagement.State) (w' : World) : Prop :=
  st' = LooksManagement.setLooks (<[j := a]> (<[i := b]> (LooksManagement.looks st))) st
  /\ objects w' = alter (Look.set_sequence_order (Z.of_nat j)) a
                    (alter (Look.set_sequence_order (Z.of_nat i)) b (objects w)).

(** Every look of the gallery has a stored row. *)
Definition all_stored (st : LooksManagement.State) (w : World) : Prop :=
  forall (l : loc) (o : Look.t),
    l ∈ LooksManagement.looks st -> objects w !! l = Some o ->
    exists r, r ∈ looks_table w /\ Look.id r = Look.id o.


(** The gallery is ascending when the sequence indices grow along the
    page: a look further down carries a greater index.  It is the order
    in which a query sorted by sequence index lists the looks. *)
Definition ascending (st : LooksManagement.State) (w : World) : Prop :=
  forall (i j : nat) (li lj : loc) (oi oj : Look.t),
    (i < j)%nat ->
    LooksManagement.looks st !! i = Some li -> LooksManagement.looks st !! j = Some lj ->
    objects w !! li = Some oi -> objects w !! lj = Some oj ->
    Look.sequence_order oi < Look.sequence_order oj.

(** ** The call sheet *)



(** ** The look cards and the call-sheet form *)

(** The label of the line of the preview that shows nothing but the
    value of a field of the details form; the client name, the producer
    name and the shoot date are shown otherwise. *)
Definition line_label (f : ProductionField.t) : option string :=
  match f with
  | ProductionField.call_time => Some "Call Time:"
  | ProductionField.producer_phone => Some "Phone:"
  | ProductionField.location_address => Some "Address:"
  | ProductionField.location_details => Some "Details:"
  | ProductionField.parking_info => Some "Parking:"
  | ProductionField.weather_backup => Some "Weather Backup:"
  | _ => None
  end.

(** The list that [deleteLook] sets: the looks whose object has another
    identity. *)
Definition others (lookId : rowid) (ls : list loc) (os : list Look.t) : list loc :=
  fst <$> filter (fun p => Look.id (snd p) ≠ lookId) (zip ls os).


(** A computation that returns a URL and leaves the world as it is. *)
Definition makes_url (m : Act string) : Prop :=
  forall s, exists url s1, m s = (Returned url, s1) /\ world s1 = world s.

(** * Sample data *)

Module Samples.

Definition world0 : World :=
  {| schedule_items := []; looks_table := []; next_id := 0%nat; now := "2025-01-01T00:00:00Z";
     objects := ∅; log := []; rejects := fun _ => false; answers := fun _ => true |}.

Definition form : ScheduleBuilder.NewItem :=
  {| ScheduleBuilder.title := "  Hair & Makeup ";
     ScheduleBuilder.description := "";
     ScheduleBuilder.start_time := "09:00";
     ScheduleBuilder.end_time := "";
     ScheduleBuilder.category := "prep";
     ScheduleBuilder.location := "  ";
     ScheduleBuilder.notes := "" |}.

Definition builder0 : ScheduleBuilder.State :=
  {| ScheduleBuilder.params_id := "p1";
     ScheduleBuilder.scheduleItems := [];
     ScheduleBuilder.newItem := form;
     ScheduleBuilder.showAddForm := true |}.

Definition bp_setup : Blueprint.t :=
  {| Blueprint.title := Js.Str "Crew call"; Blueprint.description := Js.Undefined;
     Blueprint.start_time := Js.Str "08:00"; Blueprint.end_time := Js.Str "09:00";
     Blueprint.category := Js.Str "setup"; Blueprint.location := Js.Null;
     Blueprint.notes := Js.Undefined |}.

Definition bp_shoot : Blueprint.t :=
  {| Blueprint.title := Js.Str "First look"; Blueprint.description := Js.Str "On set";
     Blueprint.start_time := Js.Str "09:00"; Blueprint.end_time := Js.Undefined;
     Blueprint.category := Js.Undefined; Blueprint.location := Js.Str "Studio A";
     Blueprint.notes := Js.Str "" |}.

Definition template : list Blueprint.t := [bp_setup; bp_shoot].

(** A schedule of two stored items, as the template leaves it. *)
Definition item0 : ScheduleItem.t :=
  {| ScheduleItem.id := 0%nat;
     ScheduleItem.columns := ScheduleBuilder.itemToInsert "p1" 0 bp_setup |}.

Definition item1 : ScheduleItem.t :=
  {| ScheduleItem.id := 1%nat;
     ScheduleItem.columns := ScheduleBuilder.itemToInsert "p1" 1 bp_shoot |}.

Definition builder1 : ScheduleBuilder.State :=
  {| ScheduleBuilder.params_id := "p1";
     ScheduleBuilder.scheduleItems := [item0; item1];
     ScheduleBuilder.newItem := form;
     ScheduleBuilder.showAddForm := true |}.

Definition world1 : World :=
  {| schedule_items := [item0; item1]; looks_table := []; next_id := 2%nat;
     now := "2025-01-01T00:00:00Z"; objects := ∅; log := [];
     rejects := fun _ => false; answers := fun _ => true |}.

(** The user declines every question. *)
Definition world_declining : World :=
  {| schedule_items := [item0; item1]; looks_table := []; next_id := 2%nat;
     now := "2025-01-01T00:00:00Z"; objects := ∅; log := [];
     rejects := fun _ => false; answers := fun _ => false |}.

(** The backend rejects the first request and accepts the later ones. *)
Definition world_failing_first : World :=
  {| schedule_items := [item0; item1]; looks_table := []; next_id := 2%nat;
     now := "2025-01-01T00:00:00Z"; objects := ∅; log := [];
     rejects := fun k => (k =? 0)%nat; answers := fun _ => true |}.

(** A gallery of three looks. *)
Definition look (i : rowid) (n : string) (order : Z) : Look.t :=
  {| Look.id := i; Look.production_id := "p1"; Look.name := n;
     Look.description := ""; Look.image_url := None; Look.sequence_order := order;
     Look.styling_notes := ""; Look.created_at := "2025-01-01T00:00:00Z" |}.

Definition gallery : LooksManagement.State :=
  {| LooksManagement.params_id := "p1";
     LooksManagement.looks := [10; 11; 12]%nat;
     LooksManagement.newLookName := " Evening Glamour " |}.

Definition galleryWorld : World :=
  {| schedule_items := [];
     looks_table := [look 100%nat "Casual Denim" 0; look 101%nat "Resort" 1;
                    look 102%nat "Tailoring" 2];
     next_id := 103%nat; now := "2025-01-01T00:00:00Z";
     objects := <[10%nat := look 100%nat "Casual Denim" 0]>
                  (<[11%nat := look 101%nat "Resort" 1]>
                     (<[12%nat := look 102%nat "Tailoring" 2]> ∅));
     log := []; rejects := fun _ => false; answers := fun _ => true |}.

(** The schedule after the first of the two template items was deleted:
    the item that is left carries sequence index 1. *)
Definition builder_gap : ScheduleBuilder.State :=
  {| ScheduleBuilder.params_id := "p1";
     ScheduleBuilder.scheduleItems := [item1];
     ScheduleBuilder.newItem := form;
     ScheduleBuilder.showAddForm := true |}.

Definition world_gap : World :=
  {| schedule_items := [item1]; looks_table := []; next_id := 2%nat;
     now := "2025-01-01T00:00:00Z"; objects := ∅;
     log := [Request (DeleteScheduleItemById 0%nat)];
     rejects := fun _ => false; answers := fun _ => true |}.

(** A production that has nothing but its name. *)
Definition bare : Production.t :=
  {| Production.id := "p1"; Production.name := "Spring Lookbook";
     Production.shoot_date := None; Production.call_time := None;
     Production.location_address := None; Production.location_details := None;
     Production.client_name := None; Production.producer_name := None;
     Production.producer_phone := None; Production.weather_backup := None;
     Production.parking_info := None; Production.special_notes := None;
     Production.created_at := "2025-01-01T00:00:00Z" |}.

(** A crew member without a call time and without a phone. *)
Definition stylist : CrewMember.t :=
  {| CrewMember.id := "c1"; CrewMember.name := "Ada"; CrewMember.role := "Stylist";
     CrewMember.call_time := None; CrewMember.phone := None;
     CrewMember.email := None; CrewMember.notes := None |}.

End Samples.

(** ** Further sample data *)

Module Scenarios.

(** The backend accepts the first request and rejects the second. *)
Definition world_failing_second : World :=
  {| schedule_items := [Samples.item0; Samples.item1]; looks_table := [];
     next_id := 2%nat; now := "2025-01-01T00:00:00Z"; objects := ∅; log := [];
     rejects := fun k => (k =? 1)%nat; answers := fun _ => true |}.

(** The gallery of three looks with a backend that accepts the first
    request and rejects the second. *)
Definition galleryWorld_failing_second : World :=
  {| schedule_items := []; looks_table := looks_table Samples.galleryWorld;
     next_id := 103%nat; now := "2025-01-01T00:00:00Z";
     objects := objects Samples.galleryWorld;
     log := []; rejects := fun k => (k =? 1)%nat; answers := fun _ => true |}.

End Scenarios.

Module Office.

(** A site with nothing stored but the bare production. *)
Definition site0 : Site :=
  {| world := Samples.world0;
     productions := [Samples.bare];
     crew_members := [];
     calls := [];
     refuses := fun _ => false;
     crew_ids := fun k => "crew-" +:+ Js.string_of_Z (Z.of_nat k);
     console := [];
     object_urls := fun k => "blob:" +:+ Js.string_of_Z (Z.of_nat k);
     blobs := [];
     canvas := Some (840, 2000);
     saved := [] |}.

(** The backend rejects every request. *)
Definition site_refusing : Site :=
  {| world := Samples.world0;
     productions := [Samples.bare];
     crew_members := [];
     calls := [];
     refuses := fun _ => true;
     crew_ids := fun k => "crew-" +:+ Js.string_of_Z (Z.of_nat k);
     console := [];
     object_urls := fun k => "blob:" +:+ Js.string_of_Z (Z.of_nat k);
     blobs := [];
     canvas := None;
     saved := [] |}.

(** The call-sheet page of the bare production, with a name typed into
    the crew form between spaces and no call time. *)
Definition page : CallSheetForm.State :=
  {| CallSheetForm.params_id := "p1";
     CallSheetForm.production := Some Samples.bare;
     CallSheetForm.crew := [];
     CallSheetForm.looks := [];
     CallSheetForm.generating := false;
     CallSheetForm.newCrew :=
       {| CrewForm.name := " Ada "; CrewForm.role := "Stylist"; CrewForm.call_time := "";
          CrewForm.phone := "555 0100"; CrewForm.email := "" |};
     CallSheetForm.callSheetRef := true |}.

End Office.

Module Studio.

(** The gallery of three looks, with a backend that accepts everything and
    a user who agrees to everything. *)
Definition site : Site :=
  {| world := Samples.galleryWorld;
     productions := [];
     crew_members := [];
     calls := [];
     refuses := fun _ => false;
     crew_ids := fun k => "crew-" +:+ Js.string_of_Z (Z.of_nat k);
     console := [];
     object_urls := fun k => "blob:" +:+ Js.string_of_Z (Z.of_nat k);
     blobs := [];
     canvas := None;
     saved := [] |}.

(** The same gallery with a backend that rejects everything. *)
Definition site_refusing : Site :=
  {| world := Samples.galleryWorld;
     productions := [];
     crew_members := [];
     calls := [];
     refuses := fun _ => true;
     crew_ids := fun k => "crew-" +:+ Js.string_of_Z (Z.of_nat k);
     console := [];
     object_urls := fun k => "blob:" +:+ Js.string_of_Z (Z.of_nat k);
     blobs := [];
     canvas := None;
     saved := [] |}.

Definition cards : LookCards.State :=
  {| LookCards.gallery := Samples.gallery; LookCards.loading := false;
     LookCards.uploading := None |}.

(** A gallery of four looks. *)
Definition catalogue : LookCards.State :=
  {| LookCards.gallery :=
       {| LooksManagement.params_id := "p1";
          LooksManagement.looks := [20; 21; 22; 23]%nat;
          LooksManagement.newLookName := "" |};
     LookCards.loading := false;
     LookCards.uploading := None |}.

Definition catalogueWorld : World :=
  {| schedule_items := [];
     looks_table := [Samples.look 200%nat "Casual Denim" 0; Samples.look 201%nat "Resort" 1;
                    Samples.look 202%nat "Tailoring" 2; Samples.look 203%nat "Evening" 3];
     next_id := 204%nat; now := "2025-01-01T00:00:00Z";
     objects := <[20%nat := Samples.look 200%nat "Casual Denim" 0]>
                  (<[21%nat := Samples.look 201%nat "Resort" 1]>
                     (<[22%nat := Samples.look 202%nat "Tailoring" 2]>
                        (<[23%nat := Samples.look 203%nat "Evening" 3]> ∅)));
     log := []; rejects := fun _ => false; answers := fun _ => true |}.

Definition catalogueSite : Site :=
  {| world := catalogueWorld;
     productions := [];
     crew_members := [];
     calls := [];
     refuses := fun _ => false;
     crew_ids := fun k => "crew-" +:+ Js.string_of_Z (Z.of_nat k);
     console := [];
     object_urls := fun k => "blob:" +:+ Js.string_of_Z (Z.of_nat k);
     blobs := [];
     canvas := None;
     saved := [] |}.

End Studio.

(** * Properties *)

(** ** Running a handler *)

(** Unfolds the monad and the gateway in a handler applied to a world. *)
Ltac run :=
  unfold Gateway.insert_schedule_items, Gateway.delete_schedule_items_of_production,
    Gateway.delete_schedule_item, Gateway.insert_looks,
    Gateway.update_look_sequence_order, console_error, alert, emit, confirm, send,
    update_world, read_world, throw;
  unfold mbind, mret, Eff_bind, Eff_ret;
  cbv beta iota zeta.

(** Reads the fields of a world that was built by the setters. *)
Ltac world_simpl :=
  cbn [schedule_items looks_table next_id now objects log rejects answers
       with_schedule_items with_looks_table with_next_id with_objects with_log
       fst snd].

Section WorldFacts.

Lemma bind_run {A B : Type} (m : Eff A) (k : A -> Eff B) (w : World) :
  (m ≫= k) w = match m w with
               | (Returned a, w') => k a w'
               | (Threw e, w') => (Threw e, w')
               end.
Proof. reflexivity. Qed.

Lemma requests_of_app (a b : list event) :
  requests_of (a ++ b) = requests_of a ++ requests_of b.
Proof. unfold requests_of. apply omap_app. Qed.

Lemma alerts_of_app (a b : list event) :
  alerts_of (a ++ b) = alerts_of a ++ alerts_of b.
Proof. unfold alerts_of. apply omap_app. Qed.

End WorldFacts.

(** ** Strings *)

Lemma append_assoc (a b c : string) : (a +:+ b) +:+ c = a +:+ (b +:+ c).
Proof.
  induction a as [| x a IH]; [reflexivity |].
  change (String x ((a +:+ b) +:+ c) = String x (a +:+ (b +:+ c))).
  f_equal. exact IH.
Qed.

Lemma str_truthy_true (s : string) : Js.str_truthy s = true <-> s ≠ "".
Proof. destruct s; simpl; split; congruence. Qed.

Example trim_inner_space : Js.trim "  Hair & Makeup	 " = "Hair & Makeup".
Proof. reflexivity. Qed.

Example trim_blank : Js.trim "   " = "".
Proof. reflexivity. Qed.

(** ** addScheduleItem *)

Section AddScheduleItem.
Import ScheduleBuilder.

Lemma addScheduleItem_guarded (st : State) (w : World) :
  Js.trim (title (newItem st)) = "" \/ start_time (newItem st) = "" ->
  addScheduleItem st w = (Returned st, w).
Proof.
  intros H. unfold addScheduleItem.
  destruct H as [H | H]; rewrite H; simpl; [reflexivity |].
  rewrite orb_true_r. reflexivity.
Qed.

Lemma addScheduleItem_sends (st : State) (w : World) :
  Js.trim (title (newItem st)) ≠ "" -> start_time (newItem st) ≠ "" ->
  let row := newItemRow st in
  let stored := {| ScheduleItem.id := next_id w; ScheduleItem.columns := row |} in
  addScheduleItem st w =
    if rejects w (count_events is_request w) then
      (Returned st,
       with_log (log w ++ [Request (InsertScheduleItems [row]);
                           ConsoleError "Error adding schedule item:"]) w)
    else
      (Returned (setShowAddForm false
                   (setNewItem blankItem
                      (setScheduleItems (scheduleItems st ++ [stored]) st))),
       with_next_id (next_id w + 1)%nat
         (with_schedule_items (schedule_items w ++ [stored])
            (with_log (log w ++ [Request (InsertScheduleItems [row])]) w))).
Proof.
  intros Ht Hs. apply str_truthy_true in Ht, Hs.
  unfold addScheduleItem. rewrite Ht, Hs. cbn [negb orb].
  run. destruct (rejects w (count_events is_request w)); simpl.
  - unfold with_log; simpl. rewrite <- app_assoc. reflexivity.
  - rewrite Nat.add_0_r. reflexivity.
Qed.

End AddScheduleItem.

(** C10. [addScheduleItem] with a title that is blank after trimming, or with
    no start time, sends nothing and leaves the schedule as it is.  With
    both present it sends one insert of one row whose title is the trimmed
    input and whose end time, location and notes are null when the form
    leaves them empty; when the backend accepts the row, it is stored and
    appended to the local schedule. *)
Theorem addScheduleItem_validates (st : ScheduleBuilder.State) (w : World) :
  let f := ScheduleBuilder.newItem st in
  let result := ScheduleBuilder.addScheduleItem st w in
  (Js.trim (ScheduleBuilder.title f) = "" \/ ScheduleBuilder.start_time f = "" ->
   result = (Returned st, w))
  /\
  (Js.trim (ScheduleBuilder.title f) ≠ "" -> ScheduleBuilder.start_time f ≠ "" ->
   exists row : ScheduleItem.draft,
     requests_of (log (snd result)) = requests_of (log w) ++ [InsertScheduleItems [row]]
     /\ ScheduleItem.title row = Js.Str (Js.trim (ScheduleBuilder.title f))
     /\ ScheduleItem.start_time row = Js.Str (ScheduleBuilder.start_time f)
     /\ (ScheduleBuilder.end_time f = "" -> ScheduleItem.end_time row = Js.Null)
     /\ (Js.trim (ScheduleBuilder.location f) = "" -> ScheduleItem.location row = Js.Null)
     /\ (Js.trim (ScheduleBuilder.notes f) = "" -> ScheduleItem.notes row = Js.Null)
     /\ (rejects w (count_events is_request w) = false ->
         let stored := {| ScheduleItem.id := next_id w; ScheduleItem.columns := row |} in
         schedule_items (snd result) = schedule_items w ++ [stored]
         /\ exists st', fst result = Returned st'
              /\ ScheduleBuilder.scheduleItems st' = ScheduleBuilder.scheduleItems st ++ [stored])).
Proof.
  intros f result. split.
  - apply addScheduleItem_guarded.
  - intros Ht Hs. exists (ScheduleBuilder.newItemRow st).
    subst result. rewrite (addScheduleItem_sends st w Ht Hs).
    repeat apply conj.
    + destruct (rejects w _); simpl; rewrite requests_of_app; reflexivity.
    + reflexivity.
    + reflexivity.
    + intros E. cbn. fold f. rewrite E. reflexivity.
    + intros E. cbn. fold f. rewrite E. reflexivity.
    + intros E. cbn. fold f. rewrite E. reflexivity.
    + intros E. rewrite E. split; [reflexivity |].
      eexists. split; reflexivity.
Qed.

Lemma addScheduleItem_validates_witness :
  exists row : ScheduleItem.draft,
    requests_of (log (snd (ScheduleBuilder.addScheduleItem Samples.builder0 Samples.world0)))
      = [InsertScheduleItems [row]]
    /\ ScheduleItem.title row = Js.Str "Hair & Makeup"
    /\ ScheduleItem.location row = Js.Null.
Proof.
  destruct (proj2 (addScheduleItem_validates Samples.builder0 Samples.world0))
    as (row & Hreq & Ht & _ & _ & Hl & _).
  - vm_compute. congruence.
  - vm_compute. congruence.
  - exists row. split; [exact Hreq | split; [exact Ht | apply Hl; reflexivity]].
Defined.

(** ** applyTemplate *)

Section ApplyTemplate.
Import ScheduleBuilder.

Lemma addTemplateItems_run (templateData : list Blueprint.t) (st : State) (w : World) :
  let rows := imap (itemToInsert (params_id st)) templateData in
  let data := stored_from (next_id w) rows in
  addTemplateItems templateData st w =
    if rejects w (count_events is_request w) then
      (Returned st,
       with_log (log w ++ [Request (InsertScheduleItems rows);
                           ConsoleError "Error applying template:"]) w)
    else
      (Returned (setScheduleItems data st),
       with_next_id (next_id w + length rows)%nat
         (with_schedule_items (schedule_items w ++ data)
            (with_log (log w ++ [Request (InsertScheduleItems rows)]) w))).
Proof.
  intros rows data. unfold addTemplateItems. run.
  destruct (rejects w (count_events is_request w)); simpl.
  - unfold with_log; simpl. rewrite <- app_assoc. reflexivity.
  - reflexivity.
Qed.

Lemma applyTemplate_empty (templateData : list Blueprint.t) (st : State) (w : World) :
  scheduleItems st = [] ->
  applyTemplate templateData st w = addTemplateItems templateData st w.
Proof. intros E. unfold applyTemplate. rewrite E. reflexivity. Qed.

Lemma applyTemplate_declined (templateData : list Blueprint.t) (st : State) (w : World) :
  scheduleItems st ≠ [] ->
  answers w (count_events is_confirm w) = false ->
  applyTemplate templateData st w =
    (Returned st,
     with_log (log w ++ [Confirm "This will replace your current schedule. Continue?"]) w).
Proof.
  intros Hne Hno. unfold applyTemplate.
  destruct (scheduleItems st) as [| x l]; [congruence |].
  cbn [length Nat.ltb Nat.leb]. run. rewrite Hno. reflexivity.
Qed.

Lemma applyTemplate_confirmed (templateData : list Blueprint.t) (st : State) (w : World) :
  scheduleItems st ≠ [] ->
  answers w (count_events is_confirm w) = true ->
  let asked := with_log (log w ++ [Confirm "This will replace your current schedule. Continue?"]) w in
  let request := Request (DeleteScheduleItemsOfProduction (params_id st)) in
  applyTemplate templateData st w =
    addTemplateItems templateData st
      (if rejects w (count_events is_request w) then
         with_log (log asked ++ [request]) asked
       else
         with_schedule_items
           (filter (fun r => ScheduleItem.production_id (ScheduleItem.columns r) ≠ params_id st)
                   (schedule_items w))
           (with_log (log asked ++ [request]) asked)).
Proof.
  intros Hne Hyes asked request. unfold applyTemplate.
  destruct (scheduleItems st) as [| x l] eqn:E; [congruence |].
  cbn [length Nat.ltb Nat.leb]. run. rewrite Hyes. cbn [negb].
  assert (Hc : count_events is_request asked = count_events is_request w).
  { unfold count_events, asked. simpl. rewrite List.filter_app. simpl.
    rewrite app_nil_r. reflexivity. }
  fold asked. rewrite Hc. change (rejects asked) with (rejects w).
  destruct (rejects w (count_events is_request w)); reflexivity.
Qed.

Lemma count_requests_snoc (w : World) (r : request) :
  count_events is_request (with_log (log w ++ [Request r]) w)
  = S (count_events is_request w).
Proof.
  unfold count_events. simpl. rewrite List.filter_app, length_app. simpl. lia.
Qed.

Lemma count_requests_confirm (w : World) (m : string) :
  count_events is_request (with_log (log w ++ [Confirm m]) w)
  = count_events is_request w.
Proof.
  unfold count_events. simpl. rewrite List.filter_app, length_app. simpl. lia.
Qed.

Lemma itemToInsert_lookup (pid : string) (templateData : list Blueprint.t) (k : nat) :
  imap (itemToInsert pid) templateData !! k = itemToInsert pid k <$> templateData !! k.
Proof. apply list_lookup_imap. Qed.

Lemma stored_from_columns (first : rowid) (rows : list ScheduleItem.draft) :
  ScheduleItem.columns <$> stored_from first rows = rows.
Proof.
  unfold stored_from. revert first. induction rows as [| d rows IH]; intros first.
  - reflexivity.
  - cbn. f_equal. rewrite <- (IH (S first)) at 2.
    f_equal. apply imap_ext. intros i x _. cbn. f_equal. lia.
Qed.

Lemma filter_production_split (pid : string) (old new : list ScheduleItem.t) :
  Forall (fun r => ScheduleItem.production_id (ScheduleItem.columns r) = pid) new ->
  filter (fun r => ScheduleItem.production_id (ScheduleItem.columns r) = pid)
    (filter (fun r => ScheduleItem.production_id (ScheduleItem.columns r) ≠ pid) old ++ new)
  = new.
Proof.
  intros Hnew. rewrite filter_app.
  assert (Hold : filter (fun r => ScheduleItem.production_id (ScheduleItem.columns r) = pid)
            (filter (fun r => ScheduleItem.production_id (ScheduleItem.columns r) ≠ pid) old) = []).
  { induction old as [| r old IH]; [reflexivity |].
    rewrite (filter_cons _ r old). destruct (decide _) as [Hr | Hr].
    - rewrite filter_cons. destruct (decide _); [contradiction | exact IH].
    - exact IH. }
  rewrite Hold. simpl.
  induction Hnew as [| r new Hr _ IH]; [reflexivity |].
  rewrite filter_cons. destruct (decide _); [| contradiction]. f_equal. exact IH.
Qed.

Lemma stored_from_production (pid : string) (first : rowid) (templateData : list Blueprint.t) :
  Forall (fun r => ScheduleItem.production_id (ScheduleItem.columns r) = pid)
    (stored_from first (imap (itemToInsert pid) templateData)).
Proof.
  apply Forall_forall. intros r Hr.
  apply list_elem_of_lookup in Hr as [k Hk].
  unfold stored_from in Hk. rewrite list_lookup_imap in Hk.
  rewrite itemToInsert_lookup in Hk.
  destruct (templateData !! k); simpl in Hk; [| discriminate].
  injection Hk as <-. reflexivity.
Qed.

End ApplyTemplate.

Section Expansion.
Import ScheduleBuilder.

Lemma or_passed_or_defaulted (field default : Js.value) :
  passed_or_defaulted field default (Js.or field default).
Proof. destruct field as [| | [|] | [| p | p] | [| c s]]; reflexivity. Qed.

Lemma itemToInsert_expands (pid : string) (k : nat) (item : Blueprint.t) :
  expands pid k item (itemToInsert pid k item).
Proof.
  unfold expands, itemToInsert. cbn.
  do 4 (split; [reflexivity |]).
  repeat split; apply or_passed_or_defaulted.
Qed.

Lemma template_rows_match (pid : string) (templateData : list Blueprint.t) :
  matches_template pid templateData (imap (itemToInsert pid) templateData).
Proof.
  split; [apply length_imap |].
  intros k item Hk. eexists. split.
  - rewrite itemToInsert_lookup, Hk. reflexivity.
  - apply itemToInsert_expands.
Qed.

Lemma stored_from_ids (first : rowid) (rows : list ScheduleItem.draft) :
  ScheduleItem.id <$> stored_from first rows = seq first (length rows).
Proof.
  unfold stored_from. revert first. induction rows as [| d rows IH]; intros first.
  - reflexivity.
  - cbn. f_equal; [apply Nat.add_0_r |]. rewrite <- (IH (S first)).
    f_equal. apply imap_ext. intros i x _. cbn. f_equal. lia.
Qed.

Lemma filter_complement_nil {A : Type} (P : A -> Prop) `{!forall x, Decision (P x)}
    (l : list A) :
  filter (fun x => ¬ P x) l = [] -> filter P l = l.
Proof.
  induction l as [| x l IH]; [reflexivity |].
  rewrite !filter_cons. destruct (decide (P x)) as [Hp | Hp].
  - destruct (decide (¬ P x)) as [Hn | _]; [contradiction |].
    intros E. f_equal. apply IH. exact E.
  - destruct (decide (¬ P x)) as [_ | Hn]; [discriminate | contradiction].
Qed.

(** A confirmed expansion, whatever the backend makes of its two
    requests. *)
Lemma applyTemplate_confirmed_run (templateData : list Blueprint.t) (st : State) (w : World) :
  scheduleItems st ≠ [] ->
  answers w (count_events is_confirm w) = true ->
  let pid := params_id st in
  let k := count_events is_request w in
  let rows := imap (itemToInsert pid) templateData in
  let data := stored_from (next_id w) rows in
  let kept :=
    if rejects w k then schedule_items w
    else filter (fun r => ScheduleItem.production_id (ScheduleItem.columns r) ≠ pid)
           (schedule_items w) in
  let sent := [Confirm "This will replace your current schedule. Continue?";
               Request (DeleteScheduleItemsOfProduction pid);
               Request (InsertScheduleItems rows)] in
  applyTemplate templateData st w =
    if rejects w (S k) then
      (Returned st,
       with_schedule_items kept
         (with_log (log w ++ sent ++ [ConsoleError "Error applying template:"]) w))
    else
      (Returned (setScheduleItems data st),
       with_next_id (next_id w + length rows)%nat
         (with_schedule_items (kept ++ data) (with_log (log w ++ sent) w))).
Proof.
  intros Hne Hyes pid k rows data kept sent.
  rewrite (applyTemplate_confirmed templateData st w Hne Hyes).
  rewrite addTemplateItems_run. fold pid rows. subst kept.
  destruct (rejects w (count_events is_request w)) eqn:Hdel; fold k in Hdel; rewrite ?Hdel.
  - rewrite count_requests_snoc, count_requests_confirm. fold k.
    change (rejects (with_log _ _)) with (rejects w).
    destruct (rejects w (S k)); unfold with_log, with_schedule_items, with_next_id;
      world_simpl; rewrite <- !app_assoc; reflexivity.
  - change (count_events is_request (with_schedule_items _ ?x))
      with (count_events is_request x).
    rewrite count_requests_snoc, count_requests_confirm. fold k.
    change (rejects (with_schedule_items _ _)) with (rejects w).
    destruct (rejects w (S k)); unfold with_log, with_schedule_items, with_next_id;
      world_simpl; rewrite <- !app_assoc; reflexivity.
Qed.

End Expansion.

(** C4. [applyTemplate] on an empty local schedule asks nothing and deletes
    nothing: it sends one insert whose rows are the blueprints in order,
    one row per blueprint; row k has sequence index k, the title and the
    start time of blueprint k, and for each other field the default when
    the blueprint leaves it absent ([undefined] or [null]) or otherwise
    falsy, and the blueprint's value when it has one: the empty string
    for the description, 'general' for the category, null for the end
    time, the location and the notes.  When the backend accepts the
    insert, the local schedule becomes exactly the stored rows. *)
Theorem applyTemplate_on_empty_schedule
    (templateData : list Blueprint.t) (st : ScheduleBuilder.State) (w : World) :
  ScheduleBuilder.scheduleItems st = [] ->
  let result := ScheduleBuilder.applyTemplate templateData st w in
  exists rows : list ScheduleItem.draft,
    requests_of (log (snd result)) = requests_of (log w) ++ [InsertScheduleItems rows]
    /\ length rows = length templateData
    /\ (forall (k : nat) (item : Blueprint.t),
          templateData !! k = Some item ->
          exists row : ScheduleItem.draft,
            rows !! k = Some row
            /\ ScheduleItem.sequence_order row = Z.of_nat k
            /\ ScheduleItem.production_id row = ScheduleBuilder.params_id st
            /\ ScheduleItem.title row = Blueprint.title item
            /\ ScheduleItem.start_time row = Blueprint.start_time item
            /\ passed_or_defaulted (Blueprint.description item) (Js.Str "")
                 (ScheduleItem.description row)
            /\ passed_or_defaulted (Blueprint.end_time item) Js.Null
                 (ScheduleItem.end_time row)
            /\ passed_or_defaulted (Blueprint.category item) (Js.Str "general")
                 (ScheduleItem.category row)
            /\ passed_or_defaulted (Blueprint.location item) Js.Null
                 (ScheduleItem.location row)
            /\ passed_or_defaulted (Blueprint.notes item) Js.Null
                 (ScheduleItem.notes row))
    /\ (rejects w (count_events is_request w) = false ->
        exists st' : ScheduleBuilder.State,
          fst result = Returned st'
          /\ length (ScheduleBuilder.scheduleItems st') = length templateData
          /\ ScheduleItem.columns <$> ScheduleBuilder.scheduleItems st' = rows
          /\ schedule_items (snd result)
             = schedule_items w ++ ScheduleBuilder.scheduleItems st').
Proof.
  intros Hempty result.
  exists (imap (ScheduleBuilder.itemToInsert (ScheduleBuilder.params_id st)) templateData).
  subst result. rewrite (applyTemplate_empty _ _ _ Hempty), addTemplateItems_run.
  destruct (template_rows_match (ScheduleBuilder.params_id st) templateData) as [Hlen Hrows].
  split; [destruct (rejects w _); simpl; rewrite requests_of_app; reflexivity |].
  split; [exact Hlen |]. split.
  - intros k item Hk. destruct (Hrows k item Hk) as (row & Hrow & Hp & Hs & Hrest).
    exists row. split; [exact Hrow |]. split; [exact Hs |]. split; [exact Hp |].
    exact Hrest.
  - intros Hok. rewrite Hok. eexists. split; [reflexivity |].
    split; [simpl; unfold stored_from; rewrite !length_imap; reflexivity |].
    split; [simpl; apply stored_from_columns | reflexivity].
Qed.

Lemma applyTemplate_on_empty_schedule_witness :
  exists (rows : list ScheduleItem.draft) (row0 row1 : ScheduleItem.draft),
    requests_of (log (snd (ScheduleBuilder.applyTemplate Samples.template
                             Samples.builder0 Samples.world0)))
      = [InsertScheduleItems rows]
    /\ length rows = 2%nat
    /\ rows !! 0%nat = Some row0 /\ rows !! 1%nat = Some row1
    /\ ScheduleItem.sequence_order row0 = 0 /\ ScheduleItem.sequence_order row1 = 1
    /\ ScheduleItem.title row0 = Js.Str "Crew call"
    /\ ScheduleItem.title row1 = Js.Str "First look"
    /\ ScheduleItem.description row0 = Js.Str ""
    /\ ScheduleItem.description row1 = Js.Str "On set"
    /\ ScheduleItem.end_time row0 = Js.Str "09:00"
    /\ ScheduleItem.end_time row1 = Js.Null
    /\ ScheduleItem.category row0 = Js.Str "setup"
    /\ ScheduleItem.category row1 = Js.Str "general"
    /\ ScheduleItem.location row0 = Js.Null
    /\ ScheduleItem.location row1 = Js.Str "Studio A"
    /\ ScheduleItem.notes row0 = Js.Null
    /\ ScheduleItem.notes row1 = Js.Null.
Proof.
  destruct (applyTemplate_on_empty_schedule Samples.template Samples.builder0
              Samples.world0 eq_refl) as (rows & Hreq & Hlen & Hrows & _).
  destruct (Hrows 0%nat Samples.bp_setup eq_refl)
    as (row0 & H0 & Hs0 & _ & Ht0 & _ & Hd0 & He0 & Hc0 & Hl0 & Hn0).
  destruct (Hrows 1%nat Samples.bp_shoot eq_refl)
    as (row1 & H1 & Hs1 & _ & Ht1 & _ & Hd1 & He1 & Hc1 & Hl1 & Hn1).
  exists rows, row0, row1.
  split; [exact Hreq |]. split; [exact Hlen |]. split; [exact H0 |]. split; [exact H1 |].
  split; [exact Hs0 |]. split; [exact Hs1 |]. split; [exact Ht0 |]. split; [exact Ht1 |].
  split; [exact Hd0 |]. split; [exact Hd1 |]. split; [exact He0 |]. split; [exact He1 |].
  split; [exact Hc0 |]. split; [exact Hc1 |]. split; [exact Hl0 |]. split; [exact Hl1 |].
  split; [exact Hn0 | exact Hn1].
Defined.

(** C5. With a non-empty local schedule [applyTemplate] first asks the user.
    When the user declines, the handler returns with the state as it was
    and nothing is sent: the only trace is the question.  When the user
    agrees, it sends the delete of the production's schedule items and
    then the insert of rows that match the template, blueprint by
    blueprint; when the backend accepts both, the local schedule is the
    stored rows, which carry new identities and the columns sent, the
    stored schedule of the production is exactly the local one, so the
    old items of the production are gone, and the rows of other
    productions are what they were. *)
Theorem applyTemplate_on_existing_schedule
    (templateData : list Blueprint.t) (st : ScheduleBuilder.State) (w : World) :
  ScheduleBuilder.scheduleItems st ≠ [] ->
  let pid := ScheduleBuilder.params_id st in
  let question := Confirm "This will replace your current schedule. Continue?" in
  let result := ScheduleBuilder.applyTemplate templateData st w in
  let of_production := fun r => ScheduleItem.production_id (ScheduleItem.columns r) = pid in
  (answers w (count_events is_confirm w) = false ->
   result = (Returned st, with_log (log w ++ [question]) w))
  /\
  (answers w (count_events is_confirm w) = true ->
   exists rows : list ScheduleItem.draft,
     matches_template pid templateData rows
     /\ (exists rest, log (snd result) = log w ++ question :: rest)
     /\ requests_of (log (snd result))
        = requests_of (log w) ++ [DeleteScheduleItemsOfProduction pid; InsertScheduleItems rows]
     /\ (rejects w (count_events is_request w) = false ->
         rejects w (S (count_events is_request w)) = false ->
         exists st' : ScheduleBuilder.State,
           fst result = Returned st'
           /\ ScheduleItem.columns <$> ScheduleBuilder.scheduleItems st' = rows
           /\ ScheduleItem.id <$> ScheduleBuilder.scheduleItems st'
              = seq (next_id w) (length templateData)
           /\ filter of_production (schedule_items (snd result))
              = ScheduleBuilder.scheduleItems st'
           /\ filter (fun r => ¬ of_production r) (schedule_items (snd result))
              = filter (fun r => ¬ of_production r) (schedule_items w))).
Proof.
  intros Hne pid question result of_production. split.
  - intros Hno. apply applyTemplate_declined; assumption.
  - intros Hyes.
    set (rows := imap (ScheduleBuilder.itemToInsert pid) templateData).
    exists rows. split; [apply template_rows_match |].
    subst result. rewrite (applyTemplate_confirmed_run templateData st w Hne Hyes).
    fold pid rows. split; [| split].
    + destruct (rejects w (S _)); world_simpl; eexists; reflexivity.
    + destruct (rejects w (S _)); world_simpl; rewrite !requests_of_app; reflexivity.
    + intros Hdel Hins. rewrite Hdel, Hins. world_simpl.
      eexists. split; [reflexivity |].
      cbn [ScheduleBuilder.scheduleItems ScheduleBuilder.setScheduleItems].
      split; [apply stored_from_columns |].
      split; [rewrite stored_from_ids; unfold rows; rewrite length_imap; reflexivity |].
      split; [apply filter_production_split; apply stored_from_production |].
      rewrite filter_app.
      assert (Hnew : filter (fun r => ¬ of_production r)
                (stored_from (next_id w) rows) = []).
      { pose proof (stored_from_production pid (next_id w) templateData) as Hall.
        fold rows in Hall. induction Hall as [| r l Hr _ IH]; [reflexivity |].
        rewrite filter_cons. destruct (decide _) as [Hd | Hd]; [| exact IH].
        exfalso. apply Hd. exact Hr. }
      rewrite Hnew, app_nil_r.
      apply list_filter_filter_l. intros r Hr. exact Hr.
Qed.

Lemma applyTemplate_on_existing_schedule_witness :
  ScheduleBuilder.applyTemplate Samples.template Samples.builder1 Samples.world_declining
  = (Returned Samples.builder1,
     with_log [Confirm "This will replace your current schedule. Continue?"]
       Samples.world_declining)
  /\ exists (st' : ScheduleBuilder.State) (new0 new1 : ScheduleItem.t),
       fst (ScheduleBuilder.applyTemplate Samples.template Samples.builder1 Samples.world1)
       = Returned st'
       /\ ScheduleBuilder.scheduleItems st' = [new0; new1]
       /\ schedule_items (snd (ScheduleBuilder.applyTemplate Samples.template
                                 Samples.builder1 Samples.world1))
          = [new0; new1]
       /\ ScheduleItem.id new0 = 2%nat /\ ScheduleItem.id new1 = 3%nat
       /\ ScheduleItem.title (ScheduleItem.columns new0) = Js.Str "Crew call"
       /\ ScheduleItem.title (ScheduleItem.columns new1) = Js.Str "First look"
       /\ ScheduleItem.category (ScheduleItem.columns new1) = Js.Str "general"
       /\ ScheduleItem.sequence_order (ScheduleItem.columns new1) = 1.
Proof.
  split.
  - apply (proj1 (applyTemplate_on_existing_schedule Samples.template Samples.builder1
                    Samples.world_declining ltac:(discriminate))).
    reflexivity.
  - destruct (proj2 (applyTemplate_on_existing_schedule Samples.template Samples.builder1
                       Samples.world1 ltac:(discriminate)) eq_refl)
      as (rows & [Hlen Hrows] & _ & _ & Hok).
    destruct (Hok eq_refl eq_refl) as (st' & Hst & Hcols & Hids & Hown & Hother).
    destruct (Hrows 0%nat Samples.bp_setup eq_refl) as (row0 & H0 & _ & _ & Ht0 & _).
    destruct (Hrows 1%nat Samples.bp_shoot eq_refl)
      as (row1 & H1 & _ & Hs1 & Ht1 & _ & _ & _ & Hc1 & _).
    cbn in Hids.
    destruct (ScheduleBuilder.scheduleItems st') as [| new0 [| new1 [| more items]]] eqn:E;
      try discriminate Hids.
    injection Hids as Hid0 Hid1.
    rewrite <- Hcols in H0, H1. cbn in H0, H1.
    injection H0 as <-. injection H1 as <-.
    exists st', new0, new1.
    split; [exact Hst |]. split; [exact E |]. split.
    + rewrite <- Hown. symmetry. apply filter_complement_nil. rewrite Hother. reflexivity.
    + split; [exact Hid0 |]. split; [exact Hid1 |]. split; [exact Ht0 |].
      split; [exact Ht1 |]. split; [exact Hc1 | exact Hs1].
Defined.

(** ** Handlers that raise no alert *)

Create HintDb quiet.

Section Quiet.

Lemma quiet_ret {A : Type} (a : A) : quiet (mret a).
Proof. intros w. reflexivity. Qed.

Lemma quiet_throw {A : Type} (e : string) : quiet (throw (A := A) e).
Proof. intros w. reflexivity. Qed.

Lemma quiet_bind {A B : Type} (m : Eff A) (k : A -> Eff B) :
  quiet m -> (forall a, quiet (k a)) -> quiet (m ≫= k).
Proof.
  intros Hm Hk w. unfold mbind, Eff_bind. specialize (Hm w).
  destruct (m w) as [[a | e] w']; simpl in *.
  - rewrite Hk. exact Hm.
  - exact Hm.
Qed.

Lemma quiet_send (r : request) : quiet (send r).
Proof. intros w. simpl. rewrite alerts_of_app, app_nil_r. reflexivity. Qed.

Lemma quiet_confirm (m : string) : quiet (confirm m).
Proof. intros w. simpl. rewrite alerts_of_app, app_nil_r. reflexivity. Qed.

Lemma quiet_console_error (m : string) : quiet (console_error m).
Proof. intros w. simpl. rewrite alerts_of_app, app_nil_r. reflexivity. Qed.

Lemma quiet_read_world {A : Type} (f : World -> A) : quiet (read_world f).
Proof. intros w. reflexivity. Qed.

Lemma quiet_update_world (f : World -> World) :
  (forall w, log (f w) = log w) -> quiet (update_world f).
Proof. intros Hf w. simpl. rewrite Hf. reflexivity. Qed.

Lemma quiet_if {A : Type} (b : bool) (m1 m2 : Eff A) :
  quiet m1 -> quiet m2 -> quiet (if b then m1 else m2).
Proof. destruct b; auto. Qed.

End Quiet.

#[local] Hint Resolve quiet_ret quiet_throw quiet_send quiet_confirm
  quiet_console_error quiet_read_world quiet_if : quiet.
#[local] Hint Extern 2 (quiet (_ ≫= _)) => apply quiet_bind; [| intros ?] : quiet.
#[local] Hint Extern 2 (quiet (update_world _)) =>
  apply quiet_update_world; intros ?; reflexivity : quiet.
#[local] Hint Extern 3 (quiet (match ?x with _ => _ end)) => destruct x : quiet.

Section QuietHandlers.

Lemma insert_schedule_items_quiet rows : quiet (Gateway.insert_schedule_items rows).
Proof. unfold Gateway.insert_schedule_items. auto 10 with quiet. Qed.

Lemma delete_schedule_items_quiet pid :
  quiet (Gateway.delete_schedule_items_of_production pid).
Proof. unfold Gateway.delete_schedule_items_of_production. auto 10 with quiet. Qed.

Lemma update_look_sequence_order_quiet id v :
  quiet (Gateway.update_look_sequence_order id v).
Proof. unfold Gateway.update_look_sequence_order. auto 10 with quiet. Qed.

Lemma deref_quiet l : quiet (LooksManagement.deref l).
Proof. intros w. unfold LooksManagement.deref. destruct (objects w !! l); reflexivity. Qed.

Lemma assign_sequence_order_quiet target v :
  quiet (LooksManagement.assign_sequence_order target v).
Proof. unfold LooksManagement.assign_sequence_order. auto 10 with quiet. Qed.

Lemma addTemplateItems_quiet templateData st :
  quiet (ScheduleBuilder.addTemplateItems templateData st).
Proof.
  unfold ScheduleBuilder.addTemplateItems.
  apply quiet_bind; [apply insert_schedule_items_quiet |].
  intros r. auto 10 with quiet.
Qed.

Lemma applyTemplate_quiet templateData st :
  quiet (ScheduleBuilder.applyTemplate templateData st).
Proof.
  unfold ScheduleBuilder.applyTemplate.
  pose proof (addTemplateItems_quiet templateData st).
  pose proof (delete_schedule_items_quiet (ScheduleBuilder.params_id st)).
  auto 10 with quiet.
Qed.

Lemma moveUp_quiet index st : quiet (LooksManagement.moveUp index st).
Proof.
  unfold LooksManagement.moveUp.
  pose proof update_look_sequence_order_quiet.
  pose proof deref_quiet. pose proof assign_sequence_order_quiet.
  auto 12 with quiet.
Qed.

Lemma moveDown_quiet index st : quiet (LooksManagement.moveDown index st).
Proof.
  unfold LooksManagement.moveDown.
  pose proof update_look_sequence_order_quiet.
  pose proof deref_quiet. pose proof assign_sequence_order_quiet.
  auto 12 with quiet.
Qed.

End QuietHandlers.

(** ** moveUp and moveDown *)

Section Reorder.
Import LooksManagement.

Lemma lookup_assigned (objs : gmap loc Look.t) (a b : loc) (oa ob : Look.t) (va vb : Z) :
  a ≠ b -> objs !! a = Some oa -> objs !! b = Some ob ->
  let objs' := alter (Look.set_sequence_order va) a
                 (alter (Look.set_sequence_order vb) b objs) in
  objs' !! a = Some (Look.set_sequence_order va oa)
  /\ objs' !! b = Some (Look.set_sequence_order vb ob)
  /\ forall l, l ≠ a -> l ≠ b -> objs' !! l = objs !! l.
Proof.
  intros Hab Ha Hb objs'. subst objs'. repeat apply conj.
  - rewrite lookup_alter_eq, lookup_alter_ne, Ha by congruence. reflexivity.
  - rewrite lookup_alter_ne, lookup_alter_eq, Hb by congruence. reflexivity.
  - intros l Hla Hlb. rewrite !lookup_alter_ne by congruence. reflexivity.
Qed.

Lemma moveUp_run (index : nat) (st : State) (w : World) (a b : loc) (oa ob : Look.t) :
  index ≠ 0%nat ->
  looks st !! index = Some a -> looks st !! (index - 1)%nat = Some b ->
  a ≠ b -> objects w !! a = Some oa -> objects w !! b = Some ob ->
  let k := count_events is_request w in
  moveUp index st w =
    (Returned (setLooks (<[(index - 1)%nat := a]> (<[index := b]> (looks st))) st),
     with_looks_table
       (write_order (rejects w (S k)) (Look.id oa) (Z.of_nat index - 1)
          (write_order (rejects w k) (Look.id ob) (Z.of_nat index) (looks_table w)))
       (with_log
          (log w ++ [Request (UpdateLookSequenceOrder (Look.id ob) (Z.of_nat index));
                     Request (UpdateLookSequenceOrder (Look.id oa) (Z.of_nat index - 1))])
          (with_objects
             (alter (Look.set_sequence_order (Z.of_nat index - 1)) a
                (alter (Look.set_sequence_order (Z.of_nat index)) b (objects w)))
             w))).
Proof.
  intros Hi Ha Hb Hab Hoa Hob k.
  destruct (lookup_assigned (objects w) a b oa ob (Z.of_nat index - 1) (Z.of_nat index)
              Hab Hoa Hob) as (Ha' & Hb' & _).
  unfold moveUp. apply Nat.eqb_neq in Hi. rewrite Hi, Ha, Hb.
  unfold assign_sequence_order, deref. run. world_simpl.
  rewrite Hb'. world_simpl. rewrite Ha'. world_simpl.
  subst k. unfold count_events. world_simpl.
  destruct (rejects w (length (List.filter is_request (log w))));
    cbn [negb]; cbv beta iota; world_simpl;
    rewrite List.filter_app, length_app, Nat.add_1_r;
    destruct (rejects w (S (length (List.filter is_request (log w)))));
    cbn [negb write_order]; cbv beta iota; world_simpl;
    unfold with_log, with_looks_table, with_objects; world_simpl;
    rewrite <- app_assoc; reflexivity.
Qed.

Lemma moveDown_run (index : nat) (st : State) (w : World) (a b : loc) (oa ob : Look.t) :
  looks st !! index = Some a -> looks st !! (index + 1)%nat = Some b ->
  a ≠ b -> objects w !! a = Some oa -> objects w !! b = Some ob ->
  let k := count_events is_request w in
  moveDown index st w =
    (Returned (setLooks (<[(index + 1)%nat := a]> (<[index := b]> (looks st))) st),
     with_looks_table
       (write_order (rejects w (S k)) (Look.id oa) (Z.of_nat index + 1)
          (write_order (rejects w k) (Look.id ob) (Z.of_nat index) (looks_table w)))
       (with_log
          (log w ++ [Request (UpdateLookSequenceOrder (Look.id ob) (Z.of_nat index));
                     Request (UpdateLookSequenceOrder (Look.id oa) (Z.of_nat index + 1))])
          (with_objects
             (alter (Look.set_sequence_order (Z.of_nat index + 1)) a
                (alter (Look.set_sequence_order (Z.of_nat index)) b (objects w)))
             w))).
Proof.
  intros Ha Hb Hab Hoa Hob k.
  destruct (lookup_assigned (objects w) a b oa ob (Z.of_nat index + 1) (Z.of_nat index)
              Hab Hoa Hob) as (Ha' & Hb' & _).
  unfold moveDown.
  assert (Hlen : (index + 1 < length (looks st))%nat)
    by (apply lookup_lt_Some with (x := b); exact Hb).
  assert (Hguard : (Z.of_nat index =? Z.of_nat (length (looks st)) - 1) = false)
    by (apply Z.eqb_neq; lia).
  rewrite Hguard, Ha, Hb.
  unfold assign_sequence_order, deref. run. world_simpl.
  rewrite Hb'. world_simpl. rewrite Ha'. world_simpl.
  subst k. unfold count_events. world_simpl.
  destruct (rejects w (length (List.filter is_request (log w))));
    cbn [negb]; cbv beta iota; world_simpl;
    rewrite List.filter_app, length_app, Nat.add_1_r;
    destruct (rejects w (S (length (List.filter is_request (log w)))));
    cbn [negb write_order]; cbv beta iota; world_simpl;
    unfold with_log, with_looks_table, with_objects; world_simpl;
    rewrite <- app_assoc; reflexivity.
Qed.

Lemma moveUp_first (st : State) (w : World) : moveUp 0 st w = (Returned st, w).
Proof. reflexivity. Qed.

Lemma moveDown_last (index : nat) (st : State) (w : World) :
  Z.of_nat index = Z.of_nat (length (looks st)) - 1 ->
  moveDown index st w = (Returned st, w).
Proof.
  intros H. unfold moveDown. apply Z.eqb_eq in H. rewrite H. reflexivity.
Qed.

(** One past the last index [moveUp] writes the index into the last look
    and then throws on the missing one: the list in the state is not
    replaced and nothing is sent. *)
Example moveUp_past_the_end :
  let result := moveUp 3 Samples.gallery Samples.galleryWorld in
  fst result
  = Threw "TypeError: Cannot set properties of undefined (setting 'sequence_order')"
  /\ Look.sequence_order <$> objects (snd result) !! 12%nat = Some 3
  /\ log (snd result) = [].
Proof. vm_compute. repeat apply conj; reflexivity. Qed.

(** [moveDown] on an empty list does not return early: the guard compares
    the index with -1. *)
Example moveDown_on_empty_list :
  fst (moveDown 0 (setLooks [] Samples.gallery) Samples.galleryWorld)
  = Threw "TypeError: Cannot set properties of undefined (setting 'sequence_order')".
Proof. reflexivity. Qed.

(** A swapped list: the two positions exchange their elements and every
    other position keeps its own. *)
Lemma swap_lookup (l : list loc) (i j : nat) (a b : loc) :
  i ≠ j -> l !! i = Some a -> l !! j = Some b ->
  let l' := <[j := a]> (<[i := b]> l) in
  length l' = length l
  /\ l' !! j = Some a /\ l' !! i = Some b
  /\ forall n, n ≠ i -> n ≠ j -> l' !! n = l !! n.
Proof.
  intros Hij Hi Hj l'. subst l'.
  pose proof (lookup_lt_Some _ _ _ Hi). pose proof (lookup_lt_Some _ _ _ Hj).
  repeat apply conj.
  - rewrite !length_insert. reflexivity.
  - apply list_lookup_insert_eq. rewrite length_insert. assumption.
  - rewrite list_lookup_insert_ne by congruence.
    apply list_lookup_insert_eq. assumption.
  - intros n Hni Hnj. rewrite !list_lookup_insert_ne by congruence. reflexivity.
Qed.

End Reorder.

Lemma well_formedb_sound st w : well_formedb st w = true -> well_formed st w.
Proof.
  unfold well_formedb, well_formed. intros H.
  apply andb_true_iff in H as [H1 H2]. split.
  - exact (bool_decide_unpack _ (Is_true_true_2 _ H1)).
  - intros l Hl. rewrite forallb_forall in H2.
    apply list_elem_of_In in Hl. specialize (H2 l Hl).
    exact (bool_decide_unpack _ (Is_true_true_2 _ H2)).
Qed.

Lemma neighbours_differ (l : list loc) (i j : nat) (a b : loc) :
  NoDup l -> i ≠ j -> l !! i = Some a -> l !! j = Some b -> a ≠ b.
Proof.
  intros Hnd Hij Hi Hj Hab. subst b.
  apply Hij. exact (NoDup_lookup l i j a Hnd Hi Hj).
Qed.

Lemma set_sequence_order_spec (v : Z) (o : Look.t) :
  Look.sequence_order (Look.set_sequence_order v o) = v
  /\ same_but_order o (Look.set_sequence_order v o).
Proof. split; [reflexivity |]. repeat split. Qed.

Lemma written_write_order (rejected : bool) (id : rowid) (v : Z) (table : list Look.t) :
  written rejected id v table (write_order rejected id v table).
Proof.
  unfold written, write_order. destruct rejected; [reflexivity |].
  unfold Gateway.set_order_where. split; [apply length_fmap |].
  intros i r Hr. rewrite list_lookup_fmap, Hr. cbn [fmap option_fmap option_map].
  eexists. split; [reflexivity |]. destruct (decide (Look.id r = id)) as [E | E].
  - split; [intros _; apply set_sequence_order_spec | intros Hne; contradiction].
  - split; [intros Heq; contradiction | reflexivity].
Qed.

(** C2. In a well-formed gallery of at least two looks, [moveUp] at an index
    i with 0 < i <= N-1 returns a list of the same length in which the look
    that was at i is at i-1 and the look that was at i-1 is at i, every
    other position holding what it held; the [sequence_order] of each of
    the two objects is its new position, their other fields are what
    they were, and no other object changes; exactly two requests are
    sent, one update of [sequence_order] per swapped look, to its new
    position; each of the two that the backend accepts leaves that
    position in the rows of its look, and nothing else of the table
    changes.  [moveDown] at an index i with i < N-1 does the same with i
    and i+1. *)
Theorem reorder_swaps_neighbours (index : nat) (st : LooksManagement.State) (w : World) :
  well_formed st w ->
  let k := count_events is_request w in
  let N := length (LooksManagement.looks st) in
  ((0 < index <= N - 1)%nat ->
   exists (a b : loc) (oa ob oa' ob' : Look.t) (st' : LooksManagement.State) (w' : World)
          (table : list Look.t),
     LooksManagement.looks st !! index = Some a
     /\ LooksManagement.looks st !! (index - 1)%nat = Some b
     /\ objects w !! a = Some oa /\ objects w !! b = Some ob
     /\ LooksManagement.moveUp index st w = (Returned st', w')
     /\ length (LooksManagement.looks st') = N
     /\ LooksManagement.looks st' !! (index - 1)%nat = Some a
     /\ LooksManagement.looks st' !! index = Some b
     /\ (forall n, n ≠ index -> n ≠ (index - 1)%nat ->
           LooksManagement.looks st' !! n = LooksManagement.looks st !! n)
     /\ objects w' !! a = Some oa'
     /\ Look.sequence_order oa' = Z.of_nat (index - 1)
     /\ same_but_order oa oa'
     /\ objects w' !! b = Some ob'
     /\ Look.sequence_order ob' = Z.of_nat index
     /\ same_but_order ob ob'
     /\ (forall l, l ≠ a -> l ≠ b -> objects w' !! l = objects w !! l)
     /\ log w' = log w ++
          [Request (UpdateLookSequenceOrder (Look.id ob) (Z.of_nat index));
           Request (UpdateLookSequenceOrder (Look.id oa) (Z.of_nat (index - 1)))]
     /\ written (rejects w k) (Look.id ob) (Z.of_nat index) (looks_table w) table
     /\ written (rejects w (S k)) (Look.id oa) (Z.of_nat (index - 1)) table (looks_table w'))
  /\
  ((index < N - 1)%nat ->
   exists (a b : loc) (oa ob oa' ob' : Look.t) (st' : LooksManagement.State) (w' : World)
          (table : list Look.t),
     LooksManagement.looks st !! index = Some a
     /\ LooksManagement.looks st !! (index + 1)%nat = Some b
     /\ objects w !! a = Some oa /\ objects w !! b = Some ob
     /\ LooksManagement.moveDown index st w = (Returned st', w')
     /\ length (LooksManagement.looks st') = N
     /\ LooksManagement.looks st' !! (index + 1)%nat = Some a
     /\ LooksManagement.looks st' !! index = Some b
     /\ (forall n, n ≠ index -> n ≠ (index + 1)%nat ->
           LooksManagement.looks st' !! n = LooksManagement.looks st !! n)
     /\ objects w' !! a = Some oa'
     /\ Look.sequence_order oa' = Z.of_nat (index + 1)
     /\ same_but_order oa oa'
     /\ objects w' !! b = Some ob'
     /\ Look.sequence_order ob' = Z.of_nat index
     /\ same_but_order ob ob'
     /\ (forall l, l ≠ a -> l ≠ b -> objects w' !! l = objects w !! l)
     /\ log w' = log w ++
          [Request (UpdateLookSequenceOrder (Look.id ob) (Z.of_nat index));
           Request (UpdateLookSequenceOrder (Look.id oa) (Z.of_nat (index + 1)))]
     /\ written (rejects w k) (Look.id ob) (Z.of_nat index) (looks_table w) table
     /\ written (rejects w (S k)) (Look.id oa) (Z.of_nat (index + 1)) table (looks_table w')).
Proof.
  intros [Hnd Halloc] k N. split.
  - intros Hrange.
    destruct (lookup_lt_is_Some_2 (LooksManagement.looks st) index) as [a Ha]; [lia |].
    destruct (lookup_lt_is_Some_2 (LooksManagement.looks st) (index - 1)) as [b Hb]; [lia |].
    destruct (Halloc a) as [oa Hoa]; [eapply list_elem_of_lookup_2; exact Ha |].
    destruct (Halloc b) as [ob Hob]; [eapply list_elem_of_lookup_2; exact Hb |].
    assert (Hij : index ≠ (index - 1)%nat) by lia.
    pose proof (neighbours_differ _ _ _ _ _ Hnd Hij Ha Hb) as Hab.
    exists a, b, oa, ob, (Look.set_sequence_order (Z.of_nat (index - 1)) oa),
      (Look.set_sequence_order (Z.of_nat index) ob).
    do 2 eexists.
    exists (write_order (rejects w k) (Look.id ob) (Z.of_nat index) (looks_table w)).
    do 4 (split; [eassumption |]).
    split; [apply moveUp_run; (eassumption || lia) |].
    replace (Z.of_nat index - 1) with (Z.of_nat (index - 1)) by lia.
    destruct (swap_lookup _ index (index - 1)%nat a b Hij Ha Hb) as (Hl & H1 & H2 & H3).
    destruct (lookup_assigned (objects w) a b oa ob (Z.of_nat (index - 1)) (Z.of_nat index)
                Hab Hoa Hob) as (Ho1 & Ho2 & Ho3).
    do 4 (split; [assumption |]).
    split; [exact Ho1 |]. split; [reflexivity |].
    split; [apply set_sequence_order_spec |].
    split; [exact Ho2 |]. split; [reflexivity |].
    split; [apply set_sequence_order_spec |].
    split; [exact Ho3 |]. split; [reflexivity |].
    split; apply written_write_order.
  - intros Hrange.
    destruct (lookup_lt_is_Some_2 (LooksManagement.looks st) index) as [a Ha]; [lia |].
    destruct (lookup_lt_is_Some_2 (LooksManagement.looks st) (index + 1)) as [b Hb]; [lia |].
    destruct (Halloc a) as [oa Hoa]; [eapply list_elem_of_lookup_2; exact Ha |].
    destruct (Halloc b) as [ob Hob]; [eapply list_elem_of_lookup_2; exact Hb |].
    assert (Hij : index ≠ (index + 1)%nat) by lia.
    pose proof (neighbours_differ _ _ _ _ _ Hnd Hij Ha Hb) as Hab.
    exists a, b, oa, ob, (Look.set_sequence_order (Z.of_nat (index + 1)) oa),
      (Look.set_sequence_order (Z.of_nat index) ob).
    do 2 eexists.
    exists (write_order (rejects w k) (Look.id ob) (Z.of_nat index) (looks_table w)).
    do 4 (split; [eassumption |]).
    split; [apply moveDown_run; eassumption |].
    replace (Z.of_nat index + 1) with (Z.of_nat (index + 1)) by lia.
    destruct (swap_lookup _ index (index + 1)%nat a b Hij Ha Hb) as (Hl & H1 & H2 & H3).
    destruct (lookup_assigned (objects w) a b oa ob (Z.of_nat (index + 1)) (Z.of_nat index)
                Hab Hoa Hob) as (Ho1 & Ho2 & Ho3).
    do 4 (split; [assumption |]).
    split; [exact Ho1 |]. split; [reflexivity |].
    split; [apply set_sequence_order_spec |].
    split; [exact Ho2 |]. split; [reflexivity |].
    split; [apply set_sequence_order_spec |].
    split; [exact Ho3 |]. split; [reflexivity |].
    split; apply written_write_order.
Qed.

Lemma reorder_swaps_neighbours_witness :
  exists (st' : LooksManagement.State) (w' : World) (first second row0 row1 : Look.t),
    LooksManagement.moveUp 1 Samples.gallery Samples.galleryWorld = (Returned st', w')
    /\ LooksManagement.looks st' !! 0%nat = Some 11%nat
    /\ LooksManagement.looks st' !! 1%nat = Some 10%nat
    /\ objects w' !! 11%nat = Some first
    /\ Look.name first = "Resort" /\ Look.sequence_order first = 0
    /\ objects w' !! 10%nat = Some second
    /\ Look.name second = "Casual Denim" /\ Look.sequence_order second = 1
    /\ looks_table w' !! 0%nat = Some row0
    /\ Look.id row0 = 100%nat /\ Look.sequence_order row0 = 1
    /\ looks_table w' !! 1%nat = Some row1
    /\ Look.id row1 = 101%nat /\ Look.sequence_order row1 = 0.
Proof.
  destruct (proj1 (reorder_swaps_neighbours 1 Samples.gallery Samples.galleryWorld
                     (well_formedb_sound Samples.gallery Samples.galleryWorld eq_refl)))
    as (a & b & oa & ob & oa' & ob' & st' & w' & table & Ha & Hb & Hoa & Hob & Hrun & _
        & H0 & H1 & _ & Hoa' & Hsa & Hsame_a & Hob' & Hsb & Hsame_b & _ & _ & Hw1 & Hw2).
  - simpl. lia.
  - injection Ha as <-. injection Hb as <-.
    injection Hoa as <-. injection Hob as <-.
    destruct Hsame_a as (_ & _ & Hna & _). destruct Hsame_b as (_ & _ & Hnb & _).
    destruct Hw1 as [_ Hw1]. destruct Hw2 as [_ Hw2].
    destruct (Hw1 0%nat _ eq_refl) as (r0 & Hr0 & Hr0_hit & _).
    destruct (Hr0_hit eq_refl) as (Hr0_order & Hr0_id & _).
    destruct (Hw2 0%nat r0 Hr0) as (r0' & Hr0' & _ & Hr0_miss).
    rewrite (Hr0_miss ltac:(rewrite Hr0_id; discriminate)) in Hr0'.
    destruct (Hw1 1%nat _ eq_refl) as (r1 & Hr1 & _ & Hr1_miss).
    rewrite (Hr1_miss ltac:(discriminate)) in Hr1.
    destruct (Hw2 1%nat _ Hr1) as (r1' & Hr1' & Hr1_hit & _).
    destruct (Hr1_hit eq_refl) as (Hr1_order & Hr1_id & _).
    exists st', w', oa', ob', r0, r1'.
    split; [exact Hrun |]. split; [exact H0 |]. split; [exact H1 |].
    split; [exact Hoa' |]. split; [exact Hna |]. split; [exact Hsa |].
    split; [exact Hob' |]. split; [exact Hnb |]. split; [exact Hsb |].
    split; [exact Hr0' |]. split; [exact Hr0_id |]. split; [exact Hr0_order |].
    split; [exact Hr1' |]. split; [exact Hr1_id |]. exact Hr1_order.
Defined.

(** C3. [moveUp] at index 0, and [moveDown] at the last index of a non-empty
    list, return at once: the list of looks, every look object, the table
    and the log are what they were, so nothing was sent. *)
Theorem reorder_at_the_ends (st : LooksManagement.State) (w : World) :
  LooksManagement.moveUp 0 st w = (Returned st, w)
  /\ (forall index : nat,
        LooksManagement.looks st ≠ [] ->
        index = (length (LooksManagement.looks st) - 1)%nat ->
        LooksManagement.moveDown index st w = (Returned st, w)).
Proof.
  split.
  - apply moveUp_first.
  - intros index Hne ->. apply moveDown_last.
    destruct (LooksManagement.looks st); [congruence |]. simpl length. lia.
Qed.

Lemma reorder_at_the_ends_witness :
  LooksManagement.moveDown 2 Samples.gallery Samples.galleryWorld
  = (Returned Samples.gallery, Samples.galleryWorld).
Proof.
  apply (proj2 (reorder_at_the_ends Samples.gallery Samples.galleryWorld) 2%nat).
  - discriminate.
  - reflexivity.
Defined.

(** ** Failures of the multi-step handlers *)

(** C6. A delete that the backend rejects during template expansion is not
    surfaced: the log of the run holds the delete, the insert that is sent
    all the same, and no alert. *)
Lemma failed_delete_raises_no_alert :
  let result := ScheduleBuilder.applyTemplate Samples.template Samples.builder1
                  Samples.world_failing_first in
  rejects Samples.world_failing_first 0 = true
  /\ requests_of (log (snd result))
     = [DeleteScheduleItemsOfProduction "p1";
        InsertScheduleItems
          (imap (ScheduleBuilder.itemToInsert "p1") Samples.template)]
  /\ alerts_of (log (snd result)) = []
  /\ ~ (exists m, Alert m ∈ log (snd result)).
Proof.
  vm_compute. repeat apply conj; try reflexivity.
  intros [m Hm]. repeat (apply elem_of_cons in Hm as [Hm | Hm]; [discriminate Hm |]).
  apply elem_of_nil in Hm. exact Hm.
Qed.

(** C6. Neither template expansion nor a reorder ever raises an alert,
    whichever of their requests the backend rejects.  A confirmed
    expansion logs the question, the delete and the insert, which is sent
    whether or not the delete was accepted, and nothing else, but for one
    console error when the insert is rejected; the handler then returns
    the state it was given.  After a rejected delete the table keeps
    the old rows: alone when the insert is rejected as well, next to the
    new ones when it is accepted, while the local schedule shows only the
    new ones.  A reorder of two neighbours logs its two updates and
    nothing else, and returns the swapped list, whichever of the two the
    backend rejects; when it rejects both, the table is what it was. *)
Theorem multi_step_failures_are_silent :
  (forall templateData st w,
     alerts_of (log (snd (ScheduleBuilder.applyTemplate templateData st w)))
     = alerts_of (log w))
  /\
  (forall templateData st w,
     ScheduleBuilder.scheduleItems st ≠ [] ->
     answers w (count_events is_confirm w) = true ->
     let pid := ScheduleBuilder.params_id st in
     let k := count_events is_request w in
     let result := ScheduleBuilder.applyTemplate templateData st w in
     exists rows : list ScheduleItem.draft,
       let sent := [Confirm "This will replace your current schedule. Continue?";
                    Request (DeleteScheduleItemsOfProduction pid);
                    Request (InsertScheduleItems rows)] in
       length rows = length templateData
       /\ (rejects w (S k) = false -> log (snd result) = log w ++ sent)
       /\ (rejects w (S k) = true ->
           log (snd result) = log w ++ sent ++ [ConsoleError "Error applying template:"]
           /\ fst result = Returned st)
       /\ (rejects w k = true ->
           (rejects w (S k) = true -> schedule_items (snd result) = schedule_items w)
           /\ (rejects w (S k) = false ->
               exists st' : ScheduleBuilder.State,
                 fst result = Returned st'
                 /\ ScheduleItem.columns <$> ScheduleBuilder.scheduleItems st' = rows
                 /\ schedule_items (snd result)
                    = schedule_items w ++ ScheduleBuilder.scheduleItems st')))
  /\
  (forall index st w,
     alerts_of (log (snd (LooksManagement.moveUp index st w))) = alerts_of (log w))
  /\
  (forall index st w,
     alerts_of (log (snd (LooksManagement.moveDown index st w))) = alerts_of (log w))
  /\
  (forall index st w,
     well_formed st w ->
     (0 < index <= length (LooksManagement.looks st) - 1)%nat ->
     let k := count_events is_request w in
     let result := LooksManagement.moveUp index st w in
     exists (st' : LooksManagement.State) (moved displaced : rowid),
       fst result = Returned st'
       /\ LooksManagement.looks st' !! (index - 1)%nat = LooksManagement.looks st !! index
       /\ LooksManagement.looks st' !! index = LooksManagement.looks st !! (index - 1)%nat
       /\ log (snd result)
          = log w ++ [Request (UpdateLookSequenceOrder displaced (Z.of_nat index));
                      Request (UpdateLookSequenceOrder moved (Z.of_nat index - 1))]
       /\ (rejects w k = true -> rejects w (S k) = true ->
           looks_table (snd result) = looks_table w)).
Proof.
  repeat apply conj.
  - intros templateData st w. apply applyTemplate_quiet.
  - intros templateData st w Hne Hyes pid k result.
    exists (imap (ScheduleBuilder.itemToInsert pid) templateData).
    cbv zeta. subst result.
    rewrite (applyTemplate_confirmed_run templateData st w Hne Hyes). fold pid k.
    split; [apply length_imap |].
    split; [intros ->; reflexivity |].
    split; [intros ->; split; reflexivity |].
    intros ->. split.
    + intros ->. reflexivity.
    + intros ->. eexists. split; [reflexivity |].
      split; [apply stored_from_columns | reflexivity].
  - intros index st w. apply moveUp_quiet.
  - intros index st w. apply moveDown_quiet.
  - intros index st w [Hnd Halloc] Hrange k result.
    destruct (lookup_lt_is_Some_2 (LooksManagement.looks st) index) as [a Ha]; [lia |].
    destruct (lookup_lt_is_Some_2 (LooksManagement.looks st) (index - 1)) as [b Hb]; [lia |].
    destruct (Halloc a) as [oa Hoa]; [eapply list_elem_of_lookup_2; exact Ha |].
    destruct (Halloc b) as [ob Hob]; [eapply list_elem_of_lookup_2; exact Hb |].
    assert (Hij : index ≠ (index - 1)%nat) by lia.
    pose proof (neighbours_differ _ _ _ _ _ Hnd Hij Ha Hb) as Hab.
    destruct (swap_lookup _ index (index - 1)%nat a b Hij Ha Hb) as (_ & H1 & H2 & _).
    subst result.
    rewrite (moveUp_run index st w a b oa ob ltac:(lia) Ha Hb Hab Hoa Hob). fold k.
    exists (LooksManagement.setLooks
              (<[(index - 1)%nat := a]> (<[index := b]> (LooksManagement.looks st))) st),
      (Look.id oa), (Look.id ob).
    split; [reflexivity |].
    split; [rewrite Ha; exact H1 |]. split; [rewrite Hb; exact H2 |].
    split; [reflexivity |].
    intros -> ->. reflexivity.
Qed.

Lemma multi_step_failures_are_silent_witness :
  exists rows : list ScheduleItem.draft,
    length rows = 2%nat
    /\ log (snd (ScheduleBuilder.applyTemplate Samples.template Samples.builder1
                   Scenarios.world_failing_second))
       = [Confirm "This will replace your current schedule. Continue?";
          Request (DeleteScheduleItemsOfProduction "p1");
          Request (InsertScheduleItems rows);
          ConsoleError "Error applying template:"]
    /\ fst (ScheduleBuilder.applyTemplate Samples.template Samples.builder1
              Scenarios.world_failing_second)
       = Returned Samples.builder1.
Proof.
  destruct (proj1 (proj2 multi_step_failures_are_silent) Samples.template Samples.builder1
              Scenarios.world_failing_second ltac:(discriminate) eq_refl)
    as (rows & Hlen & _ & Hrejected & _).
  destruct (Hrejected eq_refl) as [Hlog Hst].
  exists rows. split; [exact Hlen |]. split; [exact Hlog | exact Hst].
Defined.

(** ** The sequence index of a new entity *)

Section NextIndex.
Import LooksManagement.

Lemma read_orders (ls : list loc) (os : list Look.t) (w : World) :
  Forall2 (fun l o => objects w !! l = Some o) ls os ->
  mapM (fun l => o ← deref l; mret (Look.sequence_order o)) ls w
  = (Returned (Look.sequence_order <$> os), w).
Proof.
  induction 1 as [| l o ls os Hl _ IH].
  - reflexivity.
  - cbn [mapM]. unfold deref in *. run. rewrite Hl.
    unfold mbind, Eff_bind, mret, Eff_ret in IH. cbv beta in IH.
    rewrite IH. reflexivity.
Qed.

Lemma Math_max_spec (x : Z) (rest : list Z) :
  Math_max x rest ∈ x :: rest /\ forall y, y ∈ x :: rest -> y <= Math_max x rest.
Proof.
  unfold Math_max. revert x. induction rest as [| z rest IH]; intros x.
  - simpl. split; [apply list_elem_of_here |].
    intros y Hy. apply list_elem_of_singleton in Hy. lia.
  - simpl. destruct (IH (Z.max x z)) as [Hin Hub]. split.
    + apply elem_of_cons in Hin as [Hin | Hin].
      * rewrite Hin. destruct (Z.max_spec x z) as [[_ ->] | [_ ->]].
        -- apply list_elem_of_further, list_elem_of_here.
        -- apply list_elem_of_here.
      * do 2 apply list_elem_of_further. exact Hin.
    + intros y Hy.
      apply elem_of_cons in Hy as [-> | Hy].
      * specialize (Hub (Z.max x z) (list_elem_of_here _ _)). lia.
      * apply elem_of_cons in Hy as [-> | Hy].
        -- specialize (Hub (Z.max x z) (list_elem_of_here _ _)). lia.
        -- apply Hub. apply list_elem_of_further. exact Hy.
Qed.

Lemma nextOrder_of_max (orders : list Z) (m : Z) :
  m ∈ orders -> (forall y, y ∈ orders -> y <= m) -> nextOrder_of orders = m + 1.
Proof.
  destruct orders as [| x rest]; intros Hin Hub.
  - apply elem_of_nil in Hin. contradiction.
  - simpl. destruct (Math_max_spec x rest) as [Hin' Hub'].
    specialize (Hub _ Hin'). specialize (Hub' _ Hin). lia.
Qed.

Lemma createLook_sends (st : State) (w : World) (os : list Look.t) :
  Js.trim (newLookName st) ≠ "" ->
  Forall2 (fun l o => objects w !! l = Some o) (looks st) os ->
  requests_of (log (snd (createLook st w)))
  = requests_of (log w) ++
      [InsertLooks
         [ {| Look.d_production_id := params_id st;
              Look.d_name := Js.trim (newLookName st);
              Look.d_description := "";
              Look.d_sequence_order := nextOrder_of (Look.sequence_order <$> os);
              Look.d_styling_notes := "" |} ]].
Proof.
  intros Hname Hos. apply str_truthy_true in Hname.
  unfold createLook. rewrite Hname. cbn [negb].
  rewrite bind_run, (read_orders _ _ _ Hos).
  fold (nextOrder_of (Look.sequence_order <$> os)).
  run. destruct (rejects w (count_events is_request w)); cbn [negb]; cbv beta iota.
  - world_simpl. rewrite !requests_of_app. cbn. rewrite app_nil_r. reflexivity.
  - cbn [imap mapM]. unfold allocate. run. world_simpl.
    rewrite !requests_of_app. reflexivity.
Qed.

End NextIndex.

(** The sample schedule with a gap is what deleting the first item of the
    two template items leaves. *)
Example gap_is_reachable :
  ScheduleBuilder.deleteScheduleItem 0%nat Samples.builder1 Samples.world1
  = (Returned Samples.builder_gap, Samples.world_gap).
Proof. reflexivity. Qed.

(** C1. [addScheduleItem] does not assign the maximum plus 1: next to a single
    item with sequence index 1 the new item gets index 1, not 2. *)
Lemma addScheduleItem_index_is_not_max_plus_one :
  exists row : ScheduleItem.draft,
    requests_of (log (snd (ScheduleBuilder.addScheduleItem Samples.builder_gap
                             Samples.world_gap)))
    = [DeleteScheduleItemById 0%nat; InsertScheduleItems [row]]
    /\ (fun item => ScheduleItem.sequence_order (ScheduleItem.columns item))
         <$> ScheduleBuilder.scheduleItems Samples.builder_gap = [1]
    /\ ScheduleItem.sequence_order row = 1
    /\ ScheduleItem.sequence_order row ≠ 1 + 1.
Proof.
  eexists. split; [reflexivity |]. split; [reflexivity |]. split; [reflexivity |].
  discriminate.
Qed.

(** C1. [createLook], when the name is not blank, sends the insert of one look
    whose sequence index is 0 when the list of looks is empty and the
    maximum of the looks' sequence indices plus 1 otherwise, for a
    maximum below 2^53 in magnitude, where the sum is exact in a double.
    [addScheduleItem], when it passes its validation, sends the insert of
    one item whose sequence index is the number of items in the local
    schedule, which is 0 when the schedule is empty. *)
Theorem new_entity_sequence_index :
  (forall (st : LooksManagement.State) (w : World) (os : list Look.t),
     Js.trim (LooksManagement.newLookName st) ≠ "" ->
     Forall2 (fun l o => objects w !! l = Some o) (LooksManagement.looks st) os ->
     exists row : Look.draft,
       requests_of (log (snd (LooksManagement.createLook st w)))
       = requests_of (log w) ++ [InsertLooks [row]]
       /\ (LooksManagement.looks st = [] -> Look.d_sequence_order row = 0)
       /\ (forall m : Z,
             m ∈ Look.sequence_order <$> os ->
             (forall y, y ∈ Look.sequence_order <$> os -> y <= m) ->
             Z.abs m < 2 ^ 53 ->
             Look.d_sequence_order row = m + 1))
  /\
  (forall (st : ScheduleBuilder.State) (w : World),
     Js.trim (ScheduleBuilder.title (ScheduleBuilder.newItem st)) ≠ "" ->
     ScheduleBuilder.start_time (ScheduleBuilder.newItem st) ≠ "" ->
     exists row : ScheduleItem.draft,
       requests_of (log (snd (ScheduleBuilder.addScheduleItem st w)))
       = requests_of (log w) ++ [InsertScheduleItems [row]]
       /\ ScheduleItem.sequence_order row
          = Z.of_nat (length (ScheduleBuilder.scheduleItems st))
       /\ (ScheduleBuilder.scheduleItems st = [] -> ScheduleItem.sequence_order row = 0)).
Proof.
  split.
  - intros st w os Hname Hos. eexists. split; [apply createLook_sends; eassumption |].
    cbn [Look.d_sequence_order]. split.
    + intros Hempty. rewrite Hempty in Hos. apply Forall2_nil_inv_l in Hos. subst os.
      reflexivity.
    + intros m Hin Hub _. apply nextOrder_of_max; assumption.
  - intros st w Ht Hs. exists (ScheduleBuilder.newItemRow st).
    rewrite (addScheduleItem_sends st w Ht Hs). repeat apply conj.
    + destruct (rejects w _); simpl; rewrite requests_of_app; reflexivity.
    + reflexivity.
    + intros Hempty. cbn. rewrite Hempty. reflexivity.
Qed.

Lemma new_entity_sequence_index_witness :
  exists row : Look.draft,
    requests_of (log (snd (LooksManagement.createLook Samples.gallery Samples.galleryWorld)))
    = [InsertLooks [row]]
    /\ Look.d_sequence_order row = 2 + 1.
Proof.
  destruct (proj1 new_entity_sequence_index Samples.gallery Samples.galleryWorld
              [Samples.look 100%nat "Casual Denim" 0; Samples.look 101%nat "Resort" 1;
               Samples.look 102%nat "Tailoring" 2])
    as (row & Hreq & _ & Hmax).
  - vm_compute. congruence.
  - repeat constructor.
  - exists row. split; [exact Hreq |]. apply Hmax.
    + simpl. do 2 apply list_elem_of_further. apply list_elem_of_here.
    + intros y Hy. simpl in Hy.
      repeat (apply elem_of_cons in Hy as [-> | Hy]; [lia |]).
      apply elem_of_nil in Hy. contradiction.
    + reflexivity.
Defined.

(** ** calculateDuration *)

(** *** The quotient of two doubles *)

(** The Standard Library specifies the operations on binary64 numbers
    ([SpecFloat]).  From that specification: the double of an integer
    below 2^53 is the integer itself, and the quotient of two such
    doubles is the exact quotient up to two units in the last place. *)

Section Doubles.

Lemma digits2_bounds (p : positive) :
  2 ^ (Z.pos (digits2_pos p) - 1) <= Z.pos p < 2 ^ Z.pos (digits2_pos p).
Proof.
  induction p as [p IH | p IH |]; cbn [digits2_pos].
  - rewrite Pos2Z.inj_succ.
    replace (Z.succ (Z.pos (digits2_pos p)) - 1) with (Z.succ (Z.pos (digits2_pos p) - 1))
      by lia.
    rewrite !Z.pow_succ_r by lia. lia.
  - rewrite Pos2Z.inj_succ.
    replace (Z.succ (Z.pos (digits2_pos p)) - 1) with (Z.succ (Z.pos (digits2_pos p) - 1))
      by lia.
    rewrite !Z.pow_succ_r by lia. lia.
  - cbn. lia.
Qed.

Lemma digits2_unique (p : positive) (k : Z) :
  2 ^ (k - 1) <= Z.pos p < 2 ^ k -> Z.pos (digits2_pos p) = k.
Proof.
  intros [Hlo Hhi]. pose proof (digits2_bounds p) as [Blo Bhi].
  assert (0 < k).
  { destruct (Z_lt_le_dec 0 k); [assumption |].
    assert (2 ^ k <= 2 ^ 0) by (apply Z.pow_le_mono_r; lia). cbn in *. lia. }
  destruct (Z.lt_trichotomy (Z.pos (digits2_pos p)) k) as [Hlt | [Heq | Hgt]]; [| exact Heq |].
  - assert (2 ^ Z.pos (digits2_pos p) <= 2 ^ (k - 1)) by (apply Z.pow_le_mono_r; lia). lia.
  - assert (2 ^ k <= 2 ^ (Z.pos (digits2_pos p) - 1)) by (apply Z.pow_le_mono_r; lia). lia.
Qed.

Lemma iter_xO (p d : positive) : Z.pos (Pos.iter xO p d) = Z.pos p * 2 ^ Z.pos d.
Proof.
  induction d as [| d IH] using Pos.peano_ind.
  - cbn. lia.
  - rewrite Pos.iter_succ, Pos2Z.inj_xO, IH, Pos2Z.inj_succ, Z.pow_succ_r by lia. lia.
Qed.

Lemma shr_fexp_53 (m e : Z) (l : location) :
  Zdigits2 m = 53 -> -1074 <= e ->
  shr_fexp prec emax m e l = (shr_record_of_loc m l, e).
Proof.
  intros Hd He. unfold shr_fexp. rewrite Hd.
  replace (fexp prec emax (53 + e) - e) with 0; [reflexivity |].
  unfold fexp, emin, prec, emax. lia.
Qed.

Lemma shr_fexp_54 (m e : Z) (l : location) :
  Zdigits2 m = 54 -> -1075 <= e ->
  shr_fexp prec emax m e l = (shr_1 (shr_record_of_loc m l), e + 1).
Proof.
  intros Hd He. unfold shr_fexp. rewrite Hd.
  replace (fexp prec emax (54 + e) - e) with 1; [reflexivity |].
  unfold fexp, emin, prec, emax. lia.
Qed.

Lemma loc_of_record_of (m : Z) (l : location) :
  loc_of_shr_record (shr_record_of_loc m l) = l /\ shr_m (shr_record_of_loc m l) = m.
Proof. destruct l as [| []]; split; reflexivity. Qed.

Lemma round_aux_exact (s : bool) (m : positive) (e : Z) :
  Z.pos (digits2_pos m) = 53 -> -1074 <= e <= 971 ->
  binary_round_aux prec emax s (Z.pos m) e loc_Exact = S754_finite s m e.
Proof.
  intros Hd He. unfold binary_round_aux.
  rewrite shr_fexp_53 by (cbn [Zdigits2]; lia).
  cbn [shr_record_of_loc shr_m loc_of_shr_record round_nearest_even].
  rewrite shr_fexp_53 by (cbn [Zdigits2]; lia). cbn [shr_record_of_loc shr_m].
  replace (e <=? emax - prec) with true by (symmetry; apply Z.leb_le; unfold emax, prec; lia).
  reflexivity.
Qed.

Lemma normalize_exact (p : positive) :
  Z.pos p < 2 ^ 53 ->
  exists (m : positive) (e : Z),
    binary_normalize prec emax (Z.pos p) 0 false = S754_finite false m e
    /\ Z.pos (digits2_pos m) = 53 /\ -52 <= e <= 0 /\ Z.pos m = Z.pos p * 2 ^ (- e)
    /\ e = Z.pos (digits2_pos p) - 53.
Proof.
  intros Hp. pose proof (digits2_bounds p) as [Blo Bhi].
  assert (Hd : 1 <= Z.pos (digits2_pos p) <= 53).
  { split; [lia |]. destruct (Z_le_gt_dec (Z.pos (digits2_pos p)) 53); [assumption |].
    assert (2 ^ 53 <= 2 ^ (Z.pos (digits2_pos p) - 1)) by (apply Z.pow_le_mono_r; lia). lia. }
  unfold binary_normalize, binary_round, shl_align.
  replace (fexp prec emax (Z.pos (digits2_pos p) + 0)) with (Z.pos (digits2_pos p) - 53)
    by (unfold fexp, emin, prec, emax; lia).
  destruct (Z.pos (digits2_pos p) - 53 - 0) as [| k | k] eqn:E; [| lia |].
  - exists p, 0. rewrite round_aux_exact by lia.
    repeat split; try lia.
  - exists (Pos.iter xO p k), (Z.pos (digits2_pos p) - 53).
    assert (Hm : Z.pos (Pos.iter xO p k) = Z.pos p * 2 ^ Z.pos k) by apply iter_xO.
    assert (Hk : Z.pos k = 53 - Z.pos (digits2_pos p)) by lia.
    assert (Hdm : Z.pos (digits2_pos (Pos.iter xO p k)) = 53).
    { apply digits2_unique. rewrite Hm, Hk. split.
      - replace (53 - 1) with ((Z.pos (digits2_pos p) - 1) + (53 - Z.pos (digits2_pos p))) by lia.
        rewrite Z.pow_add_r by lia. apply Z.mul_le_mono_nonneg_r; [apply Z.pow_nonneg; lia | lia].
      - replace 53 with (Z.pos (digits2_pos p) + (53 - Z.pos (digits2_pos p))) at 2 by lia.
        rewrite Z.pow_add_r by lia.
        apply Z.mul_lt_mono_pos_r; [apply Z.pow_pos_nonneg; lia | lia]. }
    rewrite round_aux_exact by lia.
    repeat split; try lia.
    rewrite Hm. f_equal. f_equal. lia.
Qed.

Lemma round_nearest_even_bounds (m : Z) (l : location) :
  m <= round_nearest_even m l <= m + 1.
Proof. destruct l as [| []]; cbn; try destruct (Z.even m); lia. Qed.

Lemma shr_1_m (p : positive) (r s : bool) :
  shr_m (shr_1 {| shr_m := Z.pos p; shr_r := r; shr_s := s |}) = Z.pos p / 2.
Proof.
  destruct p as [p | p |]; cbn [shr_1 shr_m].
  - rewrite Pos2Z.inj_xI. apply Z.div_unique with (r := 1); lia.
  - rewrite Pos2Z.inj_xO. apply Z.div_unique with (r := 0); lia.
  - reflexivity.
Qed.

Lemma Zdigits2_unique (z k : Z) : 2 ^ (k - 1) <= z < 2 ^ k -> 0 < z -> Zdigits2 z = k.
Proof.
  intros H Hz. destruct z as [| p | p]; try lia. cbn [Zdigits2]. apply digits2_unique. exact H.
Qed.

(** The last step of a rounding: a mantissa of 53 bits stays, 2^53 is halved. *)
Lemma round_finish (s : bool) (mr e : Z) :
  2 ^ 52 <= mr <= 2 ^ 53 -> -1074 <= e <= 969 ->
  exists (m : positive) (a : Z),
    (let '(mrs, e2) := shr_fexp prec emax mr e loc_Exact in
     match shr_m mrs with
     | Z0 => S754_zero s
     | Zpos m => if e2 <=? emax - prec then S754_finite s m e2 else S754_infinity s
     | Zneg _ => S754_nan
     end) = S754_finite s m (e + a)
    /\ 0 <= a <= 1 /\ Z.pos m * 2 ^ a = mr /\ Z.pos (digits2_pos m) = 53.
Proof.
  intros Hm He. destruct (Z.eq_dec mr (2 ^ 53)) as [-> | Hne].
  - exists (Z.to_pos (2 ^ 52)), 1.
    rewrite shr_fexp_54 by (try reflexivity; lia).
    cbn [shr_record_of_loc shr_1 shr_m]. change (2 ^ 53) with (Z.pos (Z.to_pos (2 ^ 52))~0).
    cbv beta iota.
    replace (e + 1 <=? emax - prec) with true by (symmetry; apply Z.leb_le; unfold emax, prec; lia).
    repeat split; try lia; reflexivity.
  - destruct mr as [| p | p]; try lia.
    assert (Hd : Z.pos (digits2_pos p) = 53) by (apply digits2_unique; lia).
    exists p, 0. rewrite shr_fexp_53 by (cbn [Zdigits2]; lia).
    cbn [shr_record_of_loc shr_m].
    replace (e <=? emax - prec) with true by (symmetry; apply Z.leb_le; unfold emax, prec; lia).
    rewrite Z.add_0_r. repeat split; try lia.
Qed.

(** The quotient of two doubles with full mantissas: the result is the
    exact quotient up to two units of the last place of the division. *)
Lemma div_bound (sx sy : bool) (mx my : positive) (ex ey : Z) :
  Z.pos (digits2_pos mx) = 53 -> Z.pos (digits2_pos my) = 53 ->
  -1000 <= ex - ey - 53 <= 900 ->
  exists (m : positive) (a : Z),
    SFdiv prec emax (S754_finite sx mx ex) (S754_finite sy my ey)
    = S754_finite (xorb sx sy) m (ex - ey - 53 + a)
    /\ 0 <= a <= 2
    /\ Z.pos (digits2_pos m) = 53
    /\ Z.abs (Z.pos m * 2 ^ a * Z.pos my - Z.pos mx * 2 ^ 53) <= 2 * Z.pos my.
Proof.
  intros Hdx Hdy He.
  pose proof (digits2_bounds mx) as Bx. pose proof (digits2_bounds my) as By.
  rewrite Hdx in Bx. rewrite Hdy in By.
  change (2 ^ (53 - 1)) with (2 ^ 52) in Bx, By.
  unfold SFdiv, SFdiv_core_binary. cbn [Zdigits2]. rewrite Hdx, Hdy.
  replace (Z.min (fexp prec emax (53 + ex - (53 + ey))) (ex - ey)) with (ex - ey - 53)
    by (unfold fexp, emin, prec, emax; lia).
  replace (ex - ey - (ex - ey - 53)) with 53 by lia.
  cbv iota. rewrite Z.shiftl_mul_pow2 by lia.
  pose proof (Z_div_mod (Z.pos mx * 2 ^ 53) (Z.pos my) ltac:(lia)) as Hdiv.
  destruct (Z.div_eucl (Z.pos mx * 2 ^ 53) (Z.pos my)) as [q r].
  destruct Hdiv as [Hq Hr].
  assert (Hqb : 2 ^ 52 <= q < 2 ^ 54).
  { change (2 ^ 53) with 9007199254740992 in *. change (2 ^ 52) with 4503599627370496 in *.
    change (2 ^ 54) with 18014398509481984. split; nia. }
  unfold binary_round_aux.
  set (e' := ex - ey - 53) in *.
  set (l := new_location (Z.pos my) r).
  destruct (Z_lt_le_dec q (2 ^ 53)) as [Hlt | Hge].
  - rewrite (shr_fexp_53 q e' l) by (try (apply Zdigits2_unique); lia).
    destruct (loc_of_record_of q l) as [-> ->].
    pose proof (round_nearest_even_bounds q l) as Hr1.
    destruct (round_finish (xorb sx sy) (round_nearest_even q l) e' ltac:(lia) ltac:(lia))
      as (m & a & Hfin & Ha & Hval & Hdm).
    exists m, a. split; [exact Hfin |]. split; [lia |]. split; [exact Hdm |].
    rewrite Hval. nia.
  - rewrite (shr_fexp_54 q e' l) by (try (apply Zdigits2_unique); lia).
    destruct q as [| qp | qp]; try lia.
    set (rec1 := shr_1 (shr_record_of_loc (Z.pos qp) l)).
    assert (Hm1 : shr_m rec1 = Z.pos qp / 2).
    { unfold rec1. destruct l as [| []]; apply shr_1_m. }
    rewrite Hm1.
    pose proof (round_nearest_even_bounds (Z.pos qp / 2) (loc_of_shr_record rec1)) as Hr1.
    pose proof (Z.div_mod (Z.pos qp) 2 ltac:(lia)) as Hq2.
    pose proof (Z.mod_pos_bound (Z.pos qp) 2 ltac:(lia)) as Hq3.
    assert (Hhalf : 2 ^ 52 <= Z.pos qp / 2 < 2 ^ 53).
    { change (2 ^ 53) with 9007199254740992 in *. change (2 ^ 52) with 4503599627370496 in *.
      change (2 ^ 54) with 18014398509481984 in *. lia. }
    destruct (round_finish (xorb sx sy)
                (round_nearest_even (Z.pos qp / 2) (loc_of_shr_record rec1)) (e' + 1)
                ltac:(lia) ltac:(lia))
      as (m & a & Hfin & Ha & Hval & Hdm).
    exists m, (a + 1). split; [rewrite Hfin; f_equal; lia |]. split; [lia |].
    split; [exact Hdm |].
    rewrite Z.pow_add_r by lia. change (2 ^ 1) with 2.
    rewrite Z.mul_assoc, Hval. nia.
Qed.

Lemma of_Z_finite (d : Z) :
  d ≠ 0 -> Z.abs d < 2 ^ 32 ->
  exists (mx : positive) (ex : Z),
    Prim2SF (JsNumber.of_Z d) = S754_finite (d <? 0) mx ex
    /\ Z.pos (digits2_pos mx) = 53 /\ -52 <= ex <= -21
    /\ Z.pos mx = Z.abs d * 2 ^ (- ex).
Proof.
  intros Hne Hd.
  assert (Hspec : forall p : positive, Z.pos p < 2 ^ 32 ->
            exists (mx : positive) (ex : Z),
              Prim2SF (of_uint63 (Uint63.of_Z (Z.pos p))) = S754_finite false mx ex
              /\ Z.pos (digits2_pos mx) = 53 /\ -52 <= ex <= -21
              /\ Z.pos mx = Z.pos p * 2 ^ (- ex)).
  { intros p Hp. rewrite of_uint63_spec.
    rewrite <- (Uint63.is_int (Z.pos p))
      by (split; [lia | eapply Z.lt_trans; [exact Hp | reflexivity]]).
    destruct (normalize_exact p) as (m & e & Hn & Hdm & He & Hm & Hed).
    { eapply Z.lt_trans; [exact Hp | reflexivity]. }
    exists m, e. split; [exact Hn |]. split; [exact Hdm |]. split; [| exact Hm].
    pose proof (digits2_bounds p) as [Blo _].
    assert (Z.pos (digits2_pos p) <= 32).
    { destruct (Z_le_gt_dec (Z.pos (digits2_pos p)) 32); [assumption |].
      assert (2 ^ 32 <= 2 ^ (Z.pos (digits2_pos p) - 1)) by (apply Z.pow_le_mono_r; lia). lia. }
    lia. }
  unfold JsNumber.of_Z. destruct d as [| p | p]; [congruence | |].
  - change (Z.pos p <? 0) with false. cbv iota. apply Hspec. exact Hd.
  - change (Z.neg p <? 0) with true. cbv iota. change (- Z.neg p) with (Z.pos p).
    destruct (Hspec p Hd) as (mx & ex & Hx & Hrest).
    exists mx, ex. rewrite FloatAxioms.opp_spec, Hx. split; [reflexivity | exact Hrest].
Qed.

(** The double of d divided by the double of c, both integers: the
    mantissa m and the exponent -K of the quotient. *)
Lemma of_Z_div (d c : Z) (y : float) (my : positive) (ey : Z) :
  d ≠ 0 -> Z.abs d < 2 ^ 32 ->
  Prim2SF y = S754_finite false my ey ->
  Z.pos (digits2_pos my) = 53 -> -40 <= ey <= -30 -> Z.pos my = c * 2 ^ (- ey) ->
  exists (m : positive) (K : Z),
    Prim2SF (JsNumber.of_Z d / y) = S754_finite (d <? 0) m (- K)
    /\ 2 ^ 52 <= Z.pos m < 2 ^ 53
    /\ ey + 72 <= K <= ey + 105
    /\ Z.abs ((if d <? 0 then - Z.pos m else Z.pos m) * c - d * 2 ^ K) <= 2 * c.
Proof.
  intros Hne Hd Hy Hdy Hey Hmy.
  destruct (of_Z_finite d Hne Hd) as (mx & ex & Hx & Hdx & Hex & Hmx).
  destruct (div_bound (d <? 0) false mx my ex ey Hdx Hdy ltac:(lia))
    as (m & a & Hdiv & Ha & Hdm & Hb).
  exists m, (53 - ex + ey - a).
  rewrite FloatAxioms.div_spec, Hx, Hy. unfold SF64div. rewrite Hdiv, xorb_false_r.
  split; [f_equal; lia |].
  split; [pose proof (digits2_bounds m) as Bm; rewrite Hdm in Bm; exact Bm |].
  split; [lia |].
  set (K := 53 - ex + ey - a).
  assert (Hc : 0 < c).
  { assert (0 < 2 ^ (- ey)) by (apply Z.pow_pos_nonneg; lia). nia. }
  assert (Hpow : 2 ^ (- ex) * 2 ^ 53 = 2 ^ K * (2 ^ a * 2 ^ (- ey))).
  { rewrite <- !Z.pow_add_r by lia. f_equal. unfold K. lia. }
  assert (HP : 0 < 2 ^ (- ey)) by (apply Z.pow_pos_nonneg; lia).
  assert (HA : 1 <= 2 ^ a).
  { change 1 with (2 ^ 0). apply Z.pow_le_mono_r; lia. }
  rewrite Hmx, Hmy in Hb.
  replace (Z.abs d * 2 ^ (- ex) * 2 ^ 53) with (Z.abs d * 2 ^ K * (2 ^ a * 2 ^ (- ey))) in Hb
    by (rewrite <- (Z.mul_assoc (Z.abs d)), <- Hpow; ring).
  set (P := 2 ^ (- ey)) in *. set (A := 2 ^ a) in *. set (T := 2 ^ K) in *.
  assert (Hscaled : forall t : Z, Z.abs (A * P * t) <= 2 * (c * P) -> Z.abs t <= 2 * c).
  { intros t Ht. rewrite Z.abs_mul, (Z.abs_eq (A * P)) in Ht by nia.
    pose proof (Z.abs_nonneg t) as Hu. set (u := Z.abs t) in *.
    assert (H1 : P * u <= A * P * u) by nia.
    apply Z.mul_le_mono_pos_l with P; lia. }
  destruct d as [| p | p]; [congruence | |].
  - change (Z.pos p <? 0) with false. cbv iota. change (Z.abs (Z.pos p)) with (Z.pos p) in Hb.
    apply Hscaled. etransitivity; [| exact Hb]. apply Z.eq_le_incl. f_equal. ring.
  - change (Z.neg p <? 0) with true. cbv iota. change (Z.abs (Z.neg p)) with (Z.pos p) in Hb.
    replace (Z.neg p) with (- Z.pos p) by reflexivity.
    replace (- Z.pos m * c - - Z.pos p * T) with (- (Z.pos m * c - Z.pos p * T)) by ring.
    rewrite Z.abs_opp.
    apply Hscaled. etransitivity; [| exact Hb]. apply Z.eq_le_incl. f_equal. ring.
Qed.

Lemma minutes_constant :
  Prim2SF (1000 * 60)%float = S754_finite false (Z.to_pos (60000 * 2 ^ 37)) (-37).
Proof. reflexivity. Qed.

Lemma hours_constant :
  Prim2SF (1000 * 60 * 60)%float = S754_finite false (Z.to_pos (3600000 * 2 ^ 31)) (-31).
Proof. reflexivity. Qed.

(** A double with a full mantissa is below 1 when it is negative or its
    exponent is below -52. *)
Lemma below_one (x : float) (s : bool) (m : positive) (K : Z) :
  Prim2SF x = S754_finite s m (- K) -> 2 ^ 52 <= Z.pos m < 2 ^ 53 ->
  (x <? 1)%float = s || (52 <? K).
Proof.
  intros Hx Hm. rewrite FloatAxioms.ltb_spec, Hx.
  change (Prim2SF 1) with (S754_finite false (Z.to_pos (2 ^ 52)) (-52)).
  unfold SFltb, SFcompare. destruct s; [reflexivity |]. cbn [orb].
  destruct (Z.compare_spec (- K) (-52)) as [E | E | E].
  - replace (52 <? K) with false by (symmetry; apply Z.ltb_ge; lia).
    change (Pos.compare_cont Eq m (Z.to_pos (2 ^ 52))) with (m ?= Z.to_pos (2 ^ 52))%positive.
    destruct (Pos.compare_spec m (Z.to_pos (2 ^ 52))) as [E' | E' | E']; try reflexivity.
    exfalso. apply Pos2Z.pos_lt_pos in E'.
    change (Z.pos (Z.to_pos (2 ^ 52))) with (2 ^ 52) in E'. lia.
  - replace (52 <? K) with true by (symmetry; apply Z.ltb_lt; lia). reflexivity.
  - replace (52 <? K) with false by (symmetry; apply Z.ltb_ge; lia). reflexivity.
Qed.

End Doubles.

(** *** The label *)

Section Duration.
Import ScheduleBuilder.

Lemma round_half_up_div (v s : Z) :
  0 <= s -> JsNumber.round_half_up v s = (2 * v + 2 ^ s) / (2 * 2 ^ s).
Proof.
  intros Hs. unfold JsNumber.round_half_up.
  rewrite Z.shiftr_div_pow2, Z.shiftl_mul_pow2 by lia.
  rewrite Z.pow_add_r by lia. rewrite Z.mul_1_l, Z.pow_1_r.
  f_equal. lia.
Qed.

(** Rounding w / 2^K to the nearest integer, when w / 2^K is d / c up to
    less than 1 / (2 c)), gives an integer nearest to d / c. *)
Lemma nearest_integer (w c d K E : Z) :
  0 < c -> 0 <= K -> Z.abs (w * c - d * 2 ^ K) <= E -> 2 * E < 2 ^ K ->
  Z.abs (2 * c * JsNumber.round_half_up w K - 2 * d) <= c.
Proof.
  intros Hc HK Hb HE. rewrite round_half_up_div by exact HK.
  set (T := 2 ^ K) in *.
  assert (HT : 0 < T) by (apply Z.pow_pos_nonneg; lia).
  pose proof (Z.div_mod (2 * w + T) (2 * T) ltac:(lia)) as Hdm.
  pose proof (Z.mod_pos_bound (2 * w + T) (2 * T) ltac:(lia)) as Hrem.
  set (R := (2 * w + T) / (2 * T)) in *.
  set (rem := (2 * w + T) mod (2 * T)) in *.
  apply Z.abs_le in Hb. destruct Hb as [Hlo Hhi].
  apply Z.abs_le. split.
  - set (k := 2 * d - c - 2 * c * R).
    assert (Hk : T * k < 2 * E).
    { unfold k. nia. }
    destruct (Z_le_gt_dec k 0) as [Hle | Hgt]; [unfold k in Hle; lia |].
    assert (T <= T * k) by nia. lia.
  - set (k := 2 * c * R - 2 * d - c).
    assert (Hk : T * k <= 2 * E).
    { unfold k. nia. }
    destruct (Z_le_gt_dec k 0) as [Hle | Hgt]; [unfold k in Hle; lia |].
    assert (T <= T * k) by nia. lia.
Qed.

Lemma durationLabel_minutes (d : Z) :
  Z.abs d < 2 ^ 32 -> d < 3600000 ->
  exists M : Z,
    ScheduleBuilder.durationLabel (JsNumber.of_Z d) = Js.string_of_Z M +:+ "min"
    /\ Z.abs (60000 * M - d) <= 30000.
Proof.
  intros Hd Hlt. destruct (Z.eq_dec d 0) as [-> | Hne].
  { exists 0. split; [reflexivity | lia]. }
  destruct (of_Z_div d 3600000 _ _ _ Hne Hd hours_constant eq_refl ltac:(lia) eq_refl)
    as (mh & Kh & Hh & Hmh & HKh & Hbh).
  destruct (of_Z_div d 60000 _ _ _ Hne Hd minutes_constant eq_refl ltac:(lia) eq_refl)
    as (mm & Km & Hmn & Hmm & HKm & Hbm).
  unfold ScheduleBuilder.durationLabel. cbv zeta.
  rewrite (below_one _ _ _ _ Hh Hmh).
  assert (Hbranch : (d <? 0) || (52 <? Kh) = true).
  { destruct (d <? 0) eqn:Es; [reflexivity |]. apply Z.ltb_ge in Es. cbn [orb].
    apply Z.ltb_lt. destruct (Z_lt_le_dec 52 Kh) as [| Hle]; [assumption |]. exfalso.
    assert (HT : 2 ^ Kh <= 2 ^ 52) by (apply Z.pow_le_mono_r; lia).
    assert (HT0 : 0 < 2 ^ Kh) by (apply Z.pow_pos_nonneg; lia).
    apply Z.abs_le in Hbh. set (T := 2 ^ Kh) in *.
    change (2 ^ 52) with 4503599627370496 in *. nia. }
  rewrite Hbranch. unfold JsNumber.Math_round. rewrite Hmn.
  replace (0 <=? - Km) with false by (symmetry; apply Z.leb_gt; lia).
  rewrite Z.opp_involutive. cbn [JsNumber.toString].
  eexists. split; [reflexivity |].
  assert (HT : 2 ^ 35 <= 2 ^ Km) by (apply Z.pow_le_mono_r; lia).
  change (2 ^ 35) with 34359738368 in HT.
  pose proof (nearest_integer (if d <? 0 then Z.neg mm else Z.pos mm) 60000 d Km (2 * 60000)
                ltac:(lia) ltac:(lia)) as Hn.
  assert (Hv : (if d <? 0 then - Z.pos mm else Z.pos mm)
               = (if d <? 0 then Z.neg mm else Z.pos mm)) by (destruct (d <? 0); reflexivity).
  rewrite Hv in Hbm. specialize (Hn Hbm ltac:(lia)).
  apply Z.abs_le in Hn. apply Z.abs_le. lia.
Qed.

Lemma durationLabel_hours (d : Z) :
  Z.abs d < 2 ^ 32 -> 3600000 <= d ->
  exists T : Z,
    ScheduleBuilder.durationLabel (JsNumber.of_Z d) = JsNumber.show_tenths T +:+ "h"
    /\ Z.abs (360000 * T - d) <= 180000.
Proof.
  intros Hd Hge. destruct (Z.eq_dec d 3600000) as [-> | Hne].
  { exists 10. split; [reflexivity | cbn; lia]. }
  destruct (of_Z_div d 3600000 _ _ _ ltac:(lia) Hd hours_constant eq_refl ltac:(lia) eq_refl)
    as (mh & Kh & Hh & Hmh & HKh & Hbh).
  replace (d <? 0) with false in * by (symmetry; apply Z.ltb_ge; lia).
  unfold ScheduleBuilder.durationLabel. cbv zeta.
  rewrite (below_one _ _ _ _ Hh Hmh). cbn [orb].
  assert (Hbranch : (52 <? Kh) = false).
  { apply Z.ltb_ge. destruct (Z_le_gt_dec Kh 52) as [| Hgt]; [assumption |]. exfalso.
    assert (HT : 2 ^ 53 <= 2 ^ Kh) by (apply Z.pow_le_mono_r; lia).
    apply Z.abs_le in Hbh. set (T := 2 ^ Kh) in *.
    change (2 ^ 53) with 9007199254740992 in *. nia. }
  rewrite Hbranch. unfold JsNumber.toFixed1. rewrite Hh. change ("" +:+ ?s) with s.
  unfold JsNumber.tenths.
  replace (0 <=? - Kh) with false by (symmetry; apply Z.leb_gt; lia).
  rewrite Z.opp_involutive.
  eexists. split; [reflexivity |].
  assert (HT : 2 ^ 41 <= 2 ^ Kh) by (apply Z.pow_le_mono_r; lia).
  change (2 ^ 41) with 2199023255552 in HT.
  pose proof (nearest_integer (10 * Z.pos mh) 360000 d Kh (2 * 3600000)
                ltac:(lia) ltac:(lia)) as Hn.
  replace (10 * Z.pos mh * 360000) with (Z.pos mh * 3600000) in Hn by ring.
  specialize (Hn Hbh ltac:(lia)).
  apply Z.abs_le in Hn. apply Z.abs_le. lia.
Qed.

Lemma calculateDuration_diff (getTime : string -> option Z) (startTime endTime : string)
    (s e : Z) :
  endTime ≠ "" ->
  getTime ("2000-01-01T" +:+ startTime) = Some s ->
  getTime ("2000-01-01T" +:+ endTime) = Some e ->
  calculateDuration getTime startTime (Some endTime) = durationLabel (JsNumber.of_Z (e - s)).
Proof.
  intros Hne Hs He. destruct endTime as [| c rest]; [congruence |].
  unfold calculateDuration. rewrite Hs, He. reflexivity.
Qed.

Lemma calculateDuration_invalid (getTime : string -> option Z) (startTime endTime : string) :
  endTime ≠ "" ->
  getTime ("2000-01-01T" +:+ startTime) = None \/ getTime ("2000-01-01T" +:+ endTime) = None ->
  calculateDuration getTime startTime (Some endTime) = "NaNh".
Proof.
  intros Hne H. destruct endTime as [| c rest]; [congruence |].
  unfold calculateDuration.
  destruct H as [-> | ->]; [destruct (getTime _) |]; reflexivity.
Qed.

End Duration.

(** C7. Whatever the engine makes of the two strings: when both dates
    are valid and their time values are less than 2^32 milliseconds
    apart, as any two times of one day are, [calculateDuration] returns,
    for a difference below one hour, the nearest whole number of minutes
    in decimal digits followed by "min", and from one hour on the
    difference in hours with one decimal digit after the point, a nearest
    tenth of an hour, followed by "h".  When one of the dates is invalid
    it returns "NaNh".  With no end time (null or the empty string) it
    returns the empty string. *)
Theorem calculateDuration_label
    (getTime : string -> option Z) (startTime endTime : string) :
  let label := ScheduleBuilder.calculateDuration getTime startTime (Some endTime) in
  let decimal := fun n : Z => NilZero.string_of_int (Z.to_int n) in
  (forall s e : Z,
     endTime ≠ "" ->
     getTime ("2000-01-01T" +:+ startTime) = Some s ->
     getTime ("2000-01-01T" +:+ endTime) = Some e ->
     Z.abs (e - s) < 2 ^ 32 ->
     (e - s < 3600000 ->
      exists minutes : Z,
        label = decimal minutes +:+ "min"
        /\ Z.abs (60000 * minutes - (e - s)) <= 30000)
     /\
     (3600000 <= e - s ->
      exists tenths : Z,
        label = decimal (tenths / 10) +:+ "." +:+ decimal (tenths mod 10) +:+ "h"
        /\ Z.abs (360000 * tenths - (e - s)) <= 180000))
  /\ (endTime ≠ "" ->
      getTime ("2000-01-01T" +:+ startTime) = None
      \/ getTime ("2000-01-01T" +:+ endTime) = None ->
      label = "NaNh")
  /\ ScheduleBuilder.calculateDuration getTime startTime None = ""
  /\ ScheduleBuilder.calculateDuration getTime startTime (Some "") = "".
Proof.
  intros label decimal. repeat apply conj; try reflexivity.
  - intros s e Hne Hs He Hd. subst label.
    rewrite (calculateDuration_diff getTime startTime endTime s e Hne Hs He). split.
    + intros Hlt. destruct (durationLabel_minutes (e - s) Hd Hlt) as (M & Hl & Hn).
      exists M. split; [exact Hl | exact Hn].
    + intros Hge. destruct (durationLabel_hours (e - s) Hd Hge) as (T & Hl & Hn).
      exists T. split; [| exact Hn].
      rewrite Hl. unfold JsNumber.show_tenths, Js.string_of_Z, decimal.
      rewrite !append_assoc. reflexivity.
  - intros Hne H. apply calculateDuration_invalid; assumption.
Qed.

Lemma calculateDuration_label_witness :
  ScheduleBuilder.calculateDuration JsDate.getTime "09:00" (Some "09:30") = "30min"
  /\ ScheduleBuilder.calculateDuration JsDate.getTime "09:00" (Some "11:30") = "2.5h"
  /\ ScheduleBuilder.calculateDuration JsDate.getTime "09:00" None = "".
Proof.
  destruct (calculateDuration_label JsDate.getTime "09:00" "09:30") as (Hhalf & _ & Hnone & _).
  destruct (Hhalf 946717200000 946719000000 ltac:(discriminate) eq_refl eq_refl
              ltac:(reflexivity)) as (Hminutes & _).
  destruct (Hminutes ltac:(reflexivity)) as (minutes & Hlabel & Hnear).
  assert (Hm : minutes = 30) by lia. rewrite Hm in Hlabel.
  destruct (calculateDuration_label JsDate.getTime "09:00" "11:30") as (Hlong & _).
  destruct (Hlong 946717200000 946726200000 ltac:(discriminate) eq_refl eq_refl
              ltac:(reflexivity)) as (_ & Hhours).
  destruct (Hhours ltac:(discriminate)) as (tenths & Hlabel' & Hnear').
  assert (Ht : tenths = 25) by lia. rewrite Ht in Hlabel'.
  split; [exact Hlabel | split; [exact Hlabel' | exact Hnone]].
Defined.

(** The engine of the examples reads the times of the specified format. *)
Example getTime_of_the_format :
  JsDate.getTime "2000-01-01T09:00" = Some 946717200000
  /\ JsDate.getTime "2000-01-01T09:00:30" = Some 946717230000
  /\ JsDate.getTime "2000-01-01T09:00:30.250" = Some 946717230250
  /\ JsDate.getTime "2000-01-01T24:00" = Some 946771200000
  /\ JsDate.getTime "2000-01-01T09:00Z" = Some 946717200000
  /\ JsDate.getTime "2000-01-01T09:00+01:00" = Some 946713600000
  /\ JsDate.getTime "2000-01-01T24:30" = None
  /\ JsDate.getTime "2000-01-01T9am" = None.
Proof. repeat apply conj; reflexivity. Qed.

(** 69 minutes are 1.15 hours; the double nearest to it lies below, and
    the label rounds down. *)
Example duration_69min :
  ScheduleBuilder.calculateDuration JsDate.getTime "09:00" (Some "10:09") = "1.1h".
Proof. reflexivity. Qed.

(** Half a minute short of an hour is still below one hour, and rounds to
    60 minutes. *)
Example duration_60min :
  ScheduleBuilder.calculateDuration JsDate.getTime "09:00:00" (Some "09:59:30") = "60min".
Proof. reflexivity. Qed.

(** An end before the start gives negative minutes. *)
Example duration_negative :
  ScheduleBuilder.calculateDuration JsDate.getTime "11:30" (Some "09:00") = "-150min".
Proof. reflexivity. Qed.

(** The end of the day and fractions of a second. *)
Example duration_end_of_day :
  ScheduleBuilder.calculateDuration JsDate.getTime "09:00" (Some "24:00") = "15.0h"
  /\ ScheduleBuilder.calculateDuration JsDate.getTime "00:00" (Some "24:00:00") = "24.0h"
  /\ ScheduleBuilder.calculateDuration JsDate.getTime "09:00:00.000" (Some "09:00:30.500")
     = "1min".
Proof. repeat apply conj; reflexivity. Qed.

(** ** generatePDF *)

Section Pagination.
Import CallSheetGenerator.
Local Open Scope Q_scope.

Lemma inject_succ (j : nat) : inject_Z (Z.of_nat (S j)) == inject_Z (Z.of_nat j) + 1.
Proof. rewrite Nat2Z.inj_succ. unfold Z.succ. rewrite inject_Z_plus. reflexivity. Qed.

(** The loop runs once for every multiple of the page height that the
    height left reaches: started below j page heights and, when j is not
    0, at no less than j - 1 of them, it adds j pages and ends. *)
Lemma addPages_count (j fuel : nat) (H heightLeft : Q) :
  heightLeft < inject_Z (Z.of_nat j) * pageHeight ->
  (inject_Z (Z.of_nat j) - 1) * pageHeight <= heightLeft ->
  (j < fuel)%nat ->
  exists pages, addPages fuel H heightLeft = Some pages /\ length pages = j.
Proof.
  revert fuel heightLeft. unfold pageHeight.
  induction j as [| j IH]; intros fuel heightLeft Hlt Hge Hfuel.
  - destruct fuel as [| fuel]; [lia |]. simpl.
    destruct (Qle_bool 0 heightLeft) eqn:E.
    + apply Qle_bool_iff in E. change (inject_Z (Z.of_nat 0)) with 0 in Hlt. lra.
    + exists []. split; reflexivity.
  - destruct fuel as [| fuel]; [lia |]. rewrite inject_succ in Hlt, Hge.
    cbn [addPages].
    assert (E : Qle_bool 0 heightLeft = true).
    { apply Qle_bool_iff.
      assert (0 <= inject_Z (Z.of_nat j)) by (change 0 with (inject_Z 0);
        rewrite <- Zle_Qle; lia).
      nra. }
    rewrite E.
    destruct (IH fuel (heightLeft - pageHeight)) as (pages & Hrun & Hlen).
    + unfold pageHeight. lra.
    + unfold pageHeight. lra.
    + lia.
    + rewrite Hrun. eexists. split; [reflexivity |]. simpl. rewrite Hlen. reflexivity.
Qed.

(** [generatePDF] ends for every image that is not of negative height,
    with j + 1 pages when the image is at least j page heights and less
    than j + 1 page heights high. *)
Lemma pdfPages_count (j fuel : nat) (canvas_width canvas_height : Z) :
  let H := imgHeight canvas_width canvas_height in
  inject_Z (Z.of_nat j) * pageHeight <= H ->
  H < (inject_Z (Z.of_nat j) + 1) * pageHeight ->
  (j < fuel)%nat ->
  exists pages,
    pdfPages fuel canvas_width canvas_height = Some pages
    /\ length pages = S j.
Proof.
  intros H Hge Hlt Hfuel. unfold pdfPages. fold H.
  destruct (addPages_count j fuel H (H - pageHeight)) as (pages & Hrun & Hlen).
  - unfold pageHeight in *. lra.
  - unfold pageHeight in *. lra.
  - exact Hfuel.
  - rewrite Hrun. eexists. split; [reflexivity |]. simpl. rewrite Hlen. reflexivity.
Qed.

(** The loop ends for every canvas: with enough fuel [generatePDF] saves
    floor (image height / page height) + 1 pages. *)
Lemma pdfPages_terminates (fuel : nat) (canvas_width canvas_height : Z) :
  (0 < canvas_width)%Z -> (0 <= canvas_height)%Z ->
  let j := Z.to_nat (Qfloor (imgHeight canvas_width canvas_height / pageHeight)) in
  (j < fuel)%nat ->
  exists pages,
    pdfPages fuel canvas_width canvas_height = Some pages
    /\ length pages = S j.
Proof.
  intros Hw Hh j Hfuel.
  set (H := imgHeight canvas_width canvas_height) in *.
  assert (HH : 0 <= H).
  { unfold H, imgHeight, imgWidth. apply Qle_shift_div_l.
    - change 0 with (inject_Z 0). rewrite <- Zlt_Qlt. exact Hw.
    - rewrite Qmult_0_l. apply Qmult_le_0_compat; [| lra].
      change 0 with (inject_Z 0). rewrite <- Zle_Qle. exact Hh. }
  assert (Hx : H / pageHeight * pageHeight == H) by (unfold pageHeight; field).
  assert (Hx0 : 0 <= H / pageHeight).
  { apply Qle_shift_div_l; unfold pageHeight; lra. }
  pose proof (Qfloor_le (H / pageHeight)) as Hlo.
  pose proof (Qlt_floor (H / pageHeight)) as Hhi.
  assert (Hf : (0 <= Qfloor (H / pageHeight))%Z).
  { change 0%Z with (Qfloor 0). apply Qfloor_resp_le. exact Hx0. }
  assert (Hj : inject_Z (Z.of_nat j) == inject_Z (Qfloor (H / pageHeight))).
  { unfold j. rewrite Z2Nat.id by exact Hf. reflexivity. }
  rewrite inject_Z_plus in Hhi.
  apply pdfPages_count; [| | exact Hfuel]; fold H; rewrite Hj; unfold pageHeight in *.
  - apply Qle_trans with (H / 295 * 295); [| rewrite Hx; apply Qle_refl].
    apply Qmult_le_compat_r; [exact Hlo | lra].
  - apply Qle_lt_trans with (H / 295 * 295); [rewrite Hx; apply Qle_refl |].
    apply Qmult_lt_compat_r; [lra | exact Hhi].
Qed.

(** An image that is exactly j page heights high is covered by j bands
    and gets j + 1 pages. *)
Lemma pdfPages_exact_multiple (j fuel : nat) (canvas_width canvas_height : Z) :
  imgHeight canvas_width canvas_height == inject_Z (Z.of_nat j) * pageHeight ->
  (j < fuel)%nat ->
  bandsNeeded (imgHeight canvas_width canvas_height) pageHeight = Z.of_nat j
  /\ exists pages,
       pdfPages fuel canvas_width canvas_height = Some pages
       /\ length pages = S j.
Proof.
  intros HH Hfuel. split.
  - unfold bandsNeeded. rewrite HH. unfold pageHeight.
    assert (E : inject_Z (Z.of_nat j) * 295 / 295 == inject_Z (Z.of_nat j)) by (field).
    rewrite E. apply Qceiling_Z.
  - apply pdfPages_count; [| | exact Hfuel]; rewrite HH; unfold pageHeight; lra.
Qed.

End Pagination.

(** C8. A canvas of 420 by 590 pixels gives an image exactly one page high
    (295 mm at a width of 210 mm).  One band covers it, and [generatePDF]
    produces two pages: the loop runs once more at a height left of 0 and
    draws the image a whole page above the second page. *)
Theorem generatePDF_adds_a_page_at_exact_height (extra : nat) :
  (CallSheetGenerator.imgHeight 420 590 == CallSheetGenerator.pageHeight)%Q
  /\ CallSheetGenerator.bandsNeeded (CallSheetGenerator.imgHeight 420 590)
       CallSheetGenerator.pageHeight = 1
  /\ length <$> CallSheetGenerator.pdfPages (2 + extra) 420 590 = Some 2%nat
  /\ (exists second : Q,
        CallSheetGenerator.pdfPages (2 + extra) 420 590 = Some [0%Q; second]
        /\ (second == - CallSheetGenerator.pageHeight)%Q).
Proof.
  repeat apply conj.
  - reflexivity.
  - reflexivity.
  - reflexivity.
  - eexists. split; reflexivity.
Qed.

(** ** The call-sheet preview *)

(** Case analysis on a nullable string: null, empty, or not empty. *)
Ltac by_cases_on o := destruct o as [[| ? ?] |].

Section Preview.
Import CallSheetGenerator.

Lemma headings_header (p : Production.t) : headings (header p) = [].
Proof. unfold header, when. by_cases_on (Production.client_name p); reflexivity. Qed.

Lemma headings_productionInfo (p : Production.t) : headings (productionInfo p) = [].
Proof.
  unfold productionInfo, orElse. by_cases_on (Production.shoot_date p); reflexivity.
Qed.

Lemma headings_location (p : Production.t) : headings (location p) = ["LOCATION"].
Proof.
  unfold location, orElse, when.
  by_cases_on (Production.location_details p);
    by_cases_on (Production.parking_info p); by_cases_on (Production.weather_backup p);
    reflexivity.
Qed.

Lemma headings_emergencyContacts (p : Production.t) :
  headings (emergencyContacts p) = ["EMERGENCY CONTACTS"].
Proof.
  reflexivity.
Qed.

Lemma headings_specialNotes (p : Production.t) :
  flat_map headings (specialNotes p)
  = if present (Production.special_notes p) then ["SPECIAL NOTES"] else [].
Proof. unfold specialNotes, when. by_cases_on (Production.special_notes p); reflexivity. Qed.

Lemma headings_crewRow (member : CrewMember.t) : headings (crewRow member) = [].
Proof.
  reflexivity.
Qed.

Lemma headings_crewRows (crew : list CrewMember.t) :
  flat_map headings (crewRow <$> crew) = [].
Proof.
  induction crew as [| member crew IH]; [reflexivity |].
  cbn [fmap list_fmap flat_map]. rewrite headings_crewRow. exact IH.
Qed.

Lemma headings_crewSection (crew : list CrewMember.t) :
  flat_map headings (crewSection crew) = if (0 <? length crew)%nat then ["CREW"] else [].
Proof.
  unfold crewSection. destruct (0 <? length crew)%nat; [| reflexivity].
  pose proof (headings_crewRows crew) as Hrows.
  cbn. cbn in Hrows. rewrite Hrows. reflexivity.
Qed.

Lemma flat_map_imap_nil {A B C : Type} (g : B -> list C) (f : nat -> A -> B) (l : list A) :
  (forall i x, g (f i x) = []) -> flat_map g (imap f l) = [].
Proof.
  revert f. induction l as [| x l IH]; intros f Hf; [reflexivity |].
  cbn [imap flat_map]. rewrite Hf. apply IH. intros i y. apply Hf.
Qed.

Lemma headings_lookLines (looks : list LookName.t) :
  flat_map headings (imap lookLine looks) = [].
Proof. apply flat_map_imap_nil. reflexivity. Qed.

Lemma headings_looksSection (looks : list LookName.t) :
  flat_map headings (looksSection looks) = if (0 <? length looks)%nat then ["LOOKS"] else [].
Proof.
  unfold looksSection. destruct (0 <? length looks)%nat; [| reflexivity].
  pose proof (headings_lookLines looks) as Hlines.
  cbn. cbn in Hlines. rewrite Hlines. reflexivity.
Qed.

Lemma headings_div (children : list node) :
  headings (Element "div" children) = flat_map headings children.
Proof. reflexivity. Qed.

(** The section headings of a call sheet. *)
Lemma headings_callSheet (p : Production.t) (crew : list CrewMember.t)
    (looks : list LookName.t) :
  headings (callSheet p crew looks)
  = ["LOCATION"]
    ++ (if (0 <? length crew)%nat then ["CREW"] else [])
    ++ (if (0 <? length looks)%nat then ["LOOKS"] else [])
    ++ ["EMERGENCY CONTACTS"]
    ++ (if present (Production.special_notes p) then ["SPECIAL NOTES"] else []).
Proof.
  unfold callSheet. rewrite headings_div, !flat_map_app. cbn [flat_map].
  rewrite headings_header, headings_productionInfo, headings_location,
    headings_crewSection, headings_looksSection, headings_emergencyContacts,
    headings_specialNotes.
  rewrite !app_nil_r. reflexivity.
Qed.

Lemma labelled_div (l : string) (first : node) (second : node) (children : list node) :
  labelled l (Element "div" (first :: second :: children))
  = (match first with
     | Element tag [Text l'] =>
         if String.eqb tag "strong" && String.eqb l' l then [second :: children] else []
     | _ => []
     end) ++ flat_map (labelled l) (first :: second :: children).
Proof. destruct first as [| | tag [| [] []]]; reflexivity. Qed.

Lemma labelled_header (l : string) (p : Production.t) : labelled l (header p) = [].
Proof. unfold header, when. by_cases_on (Production.client_name p); reflexivity. Qed.

Lemma labelled_specialNotes (l : string) (p : Production.t) :
  flat_map (labelled l) (specialNotes p) = [].
Proof. unfold specialNotes, when. by_cases_on (Production.special_notes p); reflexivity. Qed.

Lemma labelled_crewRow (l : string) (member : CrewMember.t) : labelled l (crewRow member) = [].
Proof.
  reflexivity.
Qed.

Lemma labelled_crewRows (l : string) (crew : list CrewMember.t) :
  flat_map (labelled l) (crewRow <$> crew) = [].
Proof.
  induction crew as [| member crew IH]; [reflexivity |].
  cbn [fmap list_fmap flat_map]. rewrite labelled_crewRow. exact IH.
Qed.

Lemma labelled_crewSection (l : string) (crew : list CrewMember.t) :
  flat_map (labelled l) (crewSection crew) = [].
Proof.
  unfold crewSection. destruct (0 <? length crew)%nat; [| reflexivity].
  pose proof (labelled_crewRows l crew) as Hrows.
  cbn. cbn in Hrows. rewrite Hrows. destruct crew; reflexivity.
Qed.

Lemma labelled_looksSection (l : string) (looks : list LookName.t) :
  flat_map (labelled l) (looksSection looks) = [].
Proof.
  unfold looksSection. destruct (0 <? length looks)%nat; [| reflexivity].
  assert (Hlines : flat_map (labelled l) (imap lookLine looks) = [])
    by (apply flat_map_imap_nil; reflexivity).
  cbn. cbn in Hlines. rewrite Hlines. destruct looks; reflexivity.
Qed.

(** Labelled lines come from the production information, the location
    and the emergency contacts only. *)
Lemma labelled_callSheet (l : string) (p : Production.t) (crew : list CrewMember.t)
    (looks : list LookName.t) :
  labelled l (callSheet p crew looks)
  = labelled l (productionInfo p) ++ labelled l (location p)
    ++ labelled l (emergencyContacts p).
Proof.
  unfold callSheet. cbn [app]. rewrite labelled_div.
  replace (match header p with
           | Element tag [Text l'] =>
               if String.eqb tag "strong" && String.eqb l' l
               then [productionInfo p
                     :: location p
                        :: crewSection crew ++
                           looksSection looks ++ [emergencyContacts p] ++ specialNotes p]
               else []
           | _ => []
           end) with (@nil (list node))
    by (unfold header, when; by_cases_on (Production.client_name p); reflexivity).
  cbn [flat_map app]. rewrite !flat_map_app. cbn [flat_map].
  rewrite labelled_header, labelled_crewSection, labelled_looksSection,
    labelled_specialNotes.
  rewrite !app_nil_r. reflexivity.
Qed.

End Preview.

Section PreviewSections.
Import CallSheetGenerator.

Lemma crew_heading (p : Production.t) (crew : list CrewMember.t) (looks : list LookName.t) :
  "CREW" ∈ headings (callSheet p crew looks) <-> crew ≠ [].
Proof.
  rewrite headings_callSheet.
  destruct crew, looks, (present _); cbn; rewrite ?elem_of_cons, ?elem_of_nil;
    split; intros H; try congruence; try tauto;
    repeat (destruct H as [H | H]; try discriminate H); try contradiction.
Qed.



Lemma crewSection_rows (crew : list CrewMember.t) :
  crew ≠ [] ->
  crewSection crew
  = [ Element "div"
        [ Element "h3" [Text "CREW"];
          Element "table"
            [ Element "thead"
                [ Element "tr"
                    [ Element "th" [Text "Name"]; Element "th" [Text "Role"];
                      Element "th" [Text "Call Time"]; Element "th" [Text "Phone"] ] ];
              Element "tbody" (crewRow <$> crew) ] ] ].
Proof. destruct crew; [congruence | reflexivity]. Qed.

Lemma crewSection_nil (crew : list CrewMember.t) : crewSection crew = [] <-> crew = [].
Proof. destruct crew; split; intros H; (reflexivity || discriminate H). Qed.





End PreviewSections.




(** * Further properties *)

(** ** Deleting and adding schedule items *)

Section ScheduleItems.
Import ScheduleBuilder.

Lemma deleteScheduleItem_run (itemId : rowid) (st : State) (w : World) :
  deleteScheduleItem itemId st w =
    if rejects w (count_events is_request w) then
      (Returned st,
       with_log (log w ++ [Request (DeleteScheduleItemById itemId);
                           ConsoleError "Error deleting schedule item:"]) w)
    else
      (Returned (setScheduleItems
                   (filter (fun item => ScheduleItem.id item ≠ itemId) (scheduleItems st)) st),
       with_schedule_items
         (filter (fun r => ScheduleItem.id r ≠ itemId) (schedule_items w))
         (with_log (log w ++ [Request (DeleteScheduleItemById itemId)]) w)).
Proof.
  unfold deleteScheduleItem. run.
  destruct (rejects w (count_events is_request w)); cbn [negb]; cbv beta iota.
  - unfold with_log; world_simpl. rewrite <- app_assoc. reflexivity.
  - reflexivity.
Qed.

Lemma filter_others_snoc {A : Type} (f : A -> rowid) (x : rowid) (l : list A) (new : A) :
  (forall y, y ∈ l -> f y ≠ x) -> f new = x ->
  filter (fun y => f y ≠ x) (l ++ [new]) = l.
Proof.
  intros Hl Hnew. rewrite filter_app.
  rewrite (filter_cons _ new []). destruct (decide (f new ≠ x)) as [Hd | _]; [contradiction |].
  rewrite filter_nil, app_nil_r.
  induction l as [| y l IH]; [reflexivity |].
  rewrite filter_cons. destruct (decide (f y ≠ x)) as [_ | Hd].
  - f_equal. apply IH. intros z Hz. apply Hl. apply list_elem_of_further. exact Hz.
  - exfalso. apply Hd. apply Hl. apply list_elem_of_here.
Qed.

End ScheduleItems.

(** X1. [deleteScheduleItem] sends one delete by identity and never raises
    an alert.  When the backend rejects it, the local schedule and the
    table are what they were and the failure is only written to the
    console.  When the backend accepts it, the local schedule keeps
    exactly the items with another identity, in their order, and so does
    the table. *)
Theorem deleteScheduleItem_outcome
    (itemId : rowid) (st : ScheduleBuilder.State) (w : World) :
  let result := ScheduleBuilder.deleteScheduleItem itemId st w in
  requests_of (log (snd result)) = requests_of (log w) ++ [DeleteScheduleItemById itemId]
  /\ alerts_of (log (snd result)) = alerts_of (log w)
  /\ (rejects w (count_events is_request w) = true ->
      fst result = Returned st
      /\ schedule_items (snd result) = schedule_items w
      /\ log (snd result)
         = log w ++ [Request (DeleteScheduleItemById itemId);
                     ConsoleError "Error deleting schedule item:"])
  /\ (rejects w (count_events is_request w) = false ->
      exists st' : ScheduleBuilder.State,
        fst result = Returned st'
        /\ (forall item, item ∈ ScheduleBuilder.scheduleItems st'
              <-> item ∈ ScheduleBuilder.scheduleItems st /\ ScheduleItem.id item ≠ itemId)
        /\ ScheduleBuilder.scheduleItems st' `sublist_of` ScheduleBuilder.scheduleItems st
        /\ (forall r, r ∈ schedule_items (snd result)
              <-> r ∈ schedule_items w /\ ScheduleItem.id r ≠ itemId)
        /\ schedule_items (snd result) `sublist_of` schedule_items w
        /\ ScheduleBuilder.newItem st' = ScheduleBuilder.newItem st
        /\ ScheduleBuilder.showAddForm st' = ScheduleBuilder.showAddForm st).
Proof.
  intros result. subst result. rewrite deleteScheduleItem_run.
  destruct (rejects w (count_events is_request w)); world_simpl.
  - repeat apply conj.
    + rewrite requests_of_app. reflexivity.
    + rewrite alerts_of_app. cbn. rewrite app_nil_r. reflexivity.
    + intros _. repeat apply conj; reflexivity.
    + intros H. discriminate H.
  - repeat apply conj.
    + rewrite requests_of_app. reflexivity.
    + rewrite alerts_of_app. cbn. rewrite app_nil_r. reflexivity.
    + intros H. discriminate H.
    + intros _. eexists. split; [reflexivity |]. cbn.
      split; [intros item; rewrite list_elem_of_filter; tauto |].
      split; [apply sublist_filter |].
      split; [intros r; rewrite list_elem_of_filter; tauto |].
      split; [apply sublist_filter |]. split; reflexivity.
Qed.

Lemma deleteScheduleItem_outcome_witness :
  exists st' : ScheduleBuilder.State,
    fst (ScheduleBuilder.deleteScheduleItem 0%nat Samples.builder1 Samples.world1)
    = Returned st'
    /\ (Samples.item1 ∈ ScheduleBuilder.scheduleItems st'
        <-> Samples.item1 ∈ ScheduleBuilder.scheduleItems Samples.builder1
            /\ ScheduleItem.id Samples.item1 ≠ 0%nat).
Proof.
  destruct (deleteScheduleItem_outcome 0%nat Samples.builder1 Samples.world1)
    as (_ & _ & _ & Hok).
  destruct (Hok eq_refl) as (st' & Hst & Hin & _).
  exists st'. split; [exact Hst | apply Hin].
Defined.

Section ScheduleRoundTrip.
Import ScheduleBuilder.

Lemma filter_keeps_all {A : Type} (f : A -> rowid) (x : rowid) (l : list A) :
  x ∉ f <$> l -> filter (fun y => f y ≠ x) l = l.
Proof.
  induction l as [| y l IH]; intros Hx; [reflexivity |].
  rewrite fmap_cons in Hx. apply not_elem_of_cons in Hx as [Hxy Hx].
  rewrite filter_cons. destruct (decide (f y ≠ x)) as [_ | Hd].
  - f_equal. apply IH. exact Hx.
  - exfalso. apply Hd. intros E. apply Hxy. symmetry. exact E.
Qed.

Lemma length_filter_without {A : Type} (f : A -> rowid) (l : list A) (p : nat) (x : A) :
  NoDup (f <$> l) -> l !! p = Some x ->
  length (filter (fun y => f y ≠ f x) l) = (length l - 1)%nat.
Proof.
  revert p. induction l as [| y l IH]; intros p Hnd Hp; [discriminate |].
  rewrite fmap_cons in Hnd. apply NoDup_cons in Hnd as [Hy Hnd].
  rewrite filter_cons. destruct p as [| p].
  - injection Hp as ->. destruct (decide (f x ≠ f x)) as [Hd | _]; [congruence |].
    rewrite (filter_keeps_all f (f x) l Hy). cbn [length]. lia.
  - cbn in Hp. pose proof (lookup_lt_Some _ _ _ Hp) as Hlt.
    destruct (decide (f y ≠ f x)) as [_ | Hd].
    + cbn [length]. rewrite (IH p Hnd Hp). lia.
    + exfalso. apply Hy. apply dec_stable in Hd. rewrite Hd.
      apply list_elem_of_fmap. exists x. split; [reflexivity |].
      eapply list_elem_of_lookup_2. exact Hp.
Qed.

End ScheduleRoundTrip.

(** X2. Adding an item and then deleting it again, both accepted, gives the
    local schedule back as it was, provided no item of it already has the
    identity that the backend hands out; the table is back as it was when
    no stored row has that identity.  The form stays reset. *)
Theorem add_then_delete_restores (st : ScheduleBuilder.State) (w : World) :
  Js.trim (ScheduleBuilder.title (ScheduleBuilder.newItem st)) ≠ "" ->
  ScheduleBuilder.start_time (ScheduleBuilder.newItem st) ≠ "" ->
  rejects w (count_events is_request w) = false ->
  rejects w (S (count_events is_request w)) = false ->
  (forall item, item ∈ ScheduleBuilder.scheduleItems st -> ScheduleItem.id item ≠ next_id w) ->
  exists (st1 st2 : ScheduleBuilder.State) (w1 w2 : World) (new : ScheduleItem.t),
    ScheduleBuilder.addScheduleItem st w = (Returned st1, w1)
    /\ ScheduleBuilder.scheduleItems st1 = ScheduleBuilder.scheduleItems st ++ [new]
    /\ ScheduleItem.id new = next_id w
    /\ ScheduleBuilder.deleteScheduleItem (ScheduleItem.id new) st1 w1 = (Returned st2, w2)
    /\ ScheduleBuilder.scheduleItems st2 = ScheduleBuilder.scheduleItems st
    /\ ScheduleBuilder.newItem st2 = ScheduleBuilder.blankItem
    /\ ScheduleBuilder.showAddForm st2 = false
    /\ ((forall r, r ∈ schedule_items w -> ScheduleItem.id r ≠ next_id w) ->
        schedule_items w2 = schedule_items w).
Proof.
  intros Ht Hs Hadd Hdel Hfresh.
  pose proof (addScheduleItem_sends st w Ht Hs) as Hrun. cbv zeta in Hrun.
  rewrite Hadd in Hrun.
  do 4 eexists. eexists.
  split; [exact Hrun |]. split; [reflexivity |]. split; [reflexivity |].
  rewrite deleteScheduleItem_run.
  change (count_events is_request (with_next_id _ (with_schedule_items _ ?x)))
    with (count_events is_request x).
  rewrite count_requests_snoc.
  change (rejects (with_next_id _ _)) with (rejects w). rewrite Hdel.
  split; [reflexivity |]. cbn.
  split; [apply filter_others_snoc; [exact Hfresh | reflexivity] |].
  split; [reflexivity |]. split; [reflexivity |].
  intros Hrows. apply filter_others_snoc; [exact Hrows | reflexivity].
Qed.

Lemma add_then_delete_restores_witness :
  exists (st1 st2 : ScheduleBuilder.State) (w1 w2 : World),
    ScheduleBuilder.addScheduleItem Samples.builder1 Samples.world1 = (Returned st1, w1)
    /\ ScheduleBuilder.deleteScheduleItem 2%nat st1 w1 = (Returned st2, w2)
    /\ ScheduleBuilder.scheduleItems st2 = [Samples.item0; Samples.item1].
Proof.
  destruct (add_then_delete_restores Samples.builder1 Samples.world1)
    as (st1 & st2 & w1 & w2 & new & Hadd & _ & Hid & Hdel & Hitems & _).
  - vm_compute. congruence.
  - vm_compute. congruence.
  - reflexivity.
  - reflexivity.
  - intros item Hin. simpl in Hin.
    repeat (apply elem_of_cons in Hin as [-> | Hin]; [discriminate |]).
    apply elem_of_nil in Hin. contradiction.
  - exists st1, st2, w1, w2. rewrite Hid in Hdel.
    split; [exact Hadd | split; [exact Hdel | exact Hitems]].
Defined.

Lemma last_filter_keeps {A : Type} (P : A -> Prop) `{!forall x, Decision (P x)}
    (l : list A) (x : A) :
  last l = Some x -> P x -> last (filter P l) = Some x.
Proof.
  intros Hlast Hx. apply last_Some in Hlast as [l' ->].
  rewrite filter_app, filter_cons. destruct (decide (P x)); [| contradiction].
  rewrite filter_nil. apply last_snoc.
Qed.

(** X3. In a numbered schedule with distinct identities, deleting an item
    that is not the last one and then adding an item gives the new item
    the sequence index that the last item of the list already has: the
    index sent is the length of the list, which has become one shorter,
    and the last item has kept its index, which is that length. *)
Theorem index_reused_after_delete
    (st : ScheduleBuilder.State) (w : World) (p : nat) (victim : ScheduleItem.t) :
  numbered (ScheduleBuilder.scheduleItems st) ->
  NoDup (ScheduleItem.id <$> ScheduleBuilder.scheduleItems st) ->
  ScheduleBuilder.scheduleItems st !! p = Some victim ->
  (p + 1 < length (ScheduleBuilder.scheduleItems st))%nat ->
  Js.trim (ScheduleBuilder.title (ScheduleBuilder.newItem st)) ≠ "" ->
  ScheduleBuilder.start_time (ScheduleBuilder.newItem st) ≠ "" ->
  rejects w (count_events is_request w) = false ->
  exists (st1 : ScheduleBuilder.State) (w1 : World) (row : ScheduleItem.draft)
         (final : ScheduleItem.t),
    ScheduleBuilder.deleteScheduleItem (ScheduleItem.id victim) st w = (Returned st1, w1)
    /\ requests_of (log (snd (ScheduleBuilder.addScheduleItem st1 w1)))
       = requests_of (log w1) ++ [InsertScheduleItems [row]]
    /\ last (ScheduleBuilder.scheduleItems st) = Some final
    /\ last (ScheduleBuilder.scheduleItems st1) = Some final
    /\ length (ScheduleBuilder.scheduleItems st)
       = S (length (ScheduleBuilder.scheduleItems st1))
    /\ ScheduleItem.sequence_order row
       = Z.of_nat (length (ScheduleBuilder.scheduleItems st1))
    /\ ScheduleItem.sequence_order (ScheduleItem.columns final)
       = Z.of_nat (length (ScheduleBuilder.scheduleItems st1)).
Proof.
  intros Hnum Hnd Hp Hlen Ht Hs Hok.
  set (n := length (ScheduleBuilder.scheduleItems st)) in *.
  destruct (lookup_lt_is_Some_2 (ScheduleBuilder.scheduleItems st) (n - 1))
    as [final Hfinal]; [lia |].
  assert (Hlast : last (ScheduleBuilder.scheduleItems st) = Some final).
  { rewrite last_lookup. fold n. replace (Nat.pred n) with (n - 1)%nat by lia. exact Hfinal. }
  assert (Hne : ScheduleItem.id final ≠ ScheduleItem.id victim).
  { intros E. assert (Hpq : (n - 1)%nat = p); [| lia].
    apply (NoDup_lookup _ _ _ (ScheduleItem.id final) Hnd).
    - rewrite list_lookup_fmap, Hfinal. reflexivity.
    - rewrite list_lookup_fmap, Hp, E. reflexivity. }
  pose proof (deleteScheduleItem_run (ScheduleItem.id victim) st w) as Hrun.
  rewrite Hok in Hrun.
  set (st1 := ScheduleBuilder.setScheduleItems
                (filter (fun item => ScheduleItem.id item ≠ ScheduleItem.id victim)
                        (ScheduleBuilder.scheduleItems st)) st) in *.
  assert (Hshorter : length (ScheduleBuilder.scheduleItems st1) = (n - 1)%nat).
  { cbn. apply (length_filter_without ScheduleItem.id _ p victim Hnd Hp). }
  eexists st1, _, (ScheduleBuilder.newItemRow st1), final.
  split; [exact Hrun |].
  split.
  { rewrite (addScheduleItem_sends st1 _ Ht Hs).
    match goal with |- context [if ?b then _ else _] => destruct b end;
      world_simpl; rewrite !requests_of_app; cbn; rewrite ?app_nil_r; reflexivity. }
  split; [exact Hlast |].
  split; [cbn; apply last_filter_keeps; [exact Hlast | exact Hne] |].
  split; [rewrite Hshorter; lia |].
  split; [reflexivity |].
  rewrite Hshorter, (Hnum _ _ Hfinal). reflexivity.
Qed.

Lemma index_reused_after_delete_witness :
  exists (st1 : ScheduleBuilder.State) (w1 : World) (row : ScheduleItem.draft),
    ScheduleBuilder.deleteScheduleItem 0%nat Samples.builder1 Samples.world1
    = (Returned st1, w1)
    /\ requests_of (log (snd (ScheduleBuilder.addScheduleItem st1 w1)))
       = requests_of (log w1) ++ [InsertScheduleItems [row]]
    /\ last (ScheduleBuilder.scheduleItems st1) = Some Samples.item1
    /\ ScheduleItem.sequence_order row = 1
    /\ ScheduleItem.sequence_order (ScheduleItem.columns Samples.item1) = 1.
Proof.
  destruct (index_reused_after_delete Samples.builder1 Samples.world1 0 Samples.item0)
    as (st1 & w1 & row & final & Hdel & Hreq & Hlast & Hlast1 & Hlen & Hrow & Hfinal).
  - intros k item Hk. destruct k as [| [| k]]; simpl in Hk; try discriminate;
      injection Hk as <-; reflexivity.
  - apply (bool_decide_unpack _). vm_compute. exact I.
  - reflexivity.
  - simpl. lia.
  - vm_compute. congruence.
  - vm_compute. congruence.
  - reflexivity.
  - injection Hlast as <-. cbn in Hlen. injection Hlen as Hlen.
    rewrite <- Hlen in Hrow, Hfinal.
    exists st1, w1, row.
    split; [exact Hdel |]. split; [exact Hreq |]. split; [exact Hlast1 |].
    split; [exact Hrow | exact Hfinal].
Defined.

(** ** What the schedule handlers tell the user *)

Section ScheduleQuiet.

Lemma addScheduleItem_quiet st : quiet (ScheduleBuilder.addScheduleItem st).
Proof.
  unfold ScheduleBuilder.addScheduleItem.
  pose proof insert_schedule_items_quiet. auto 10 with quiet.
Qed.

Lemma deleteScheduleItem_quiet itemId st :
  quiet (ScheduleBuilder.deleteScheduleItem itemId st).
Proof.
  unfold ScheduleBuilder.deleteScheduleItem, Gateway.delete_schedule_item.
  auto 12 with quiet.
Qed.

End ScheduleQuiet.

Lemma filter_of_the_others {A : Type} (P : A -> Prop) `{!forall x, Decision (P x)}
    (l : list A) :
  filter P (filter (fun x => ¬ P x) l) = [].
Proof.
  induction l as [| x l IH]; [reflexivity |].
  rewrite (filter_cons _ x l). destruct (decide (¬ P x)) as [Hx | Hx]; [| exact IH].
  rewrite filter_cons. destruct (decide (P x)); [contradiction | exact IH].
Qed.

(** X4. [addScheduleItem] never raises an alert.  When the backend rejects
    the insert, the user is told nothing: the handler returns the state it
    was given, with the form as typed and still open, the table and the
    next identity are what they were, and the only trace besides the
    request is a line on the console.  When the backend accepts it, the
    form is blank again and closed. *)
Theorem addScheduleItem_rejected_keeps_the_form (st : ScheduleBuilder.State) (w : World) :
  let result := ScheduleBuilder.addScheduleItem st w in
  alerts_of (log (snd result)) = alerts_of (log w)
  /\ (Js.trim (ScheduleBuilder.title (ScheduleBuilder.newItem st)) ≠ "" ->
      ScheduleBuilder.start_time (ScheduleBuilder.newItem st) ≠ "" ->
      (rejects w (count_events is_request w) = true ->
       fst result = Returned st
       /\ schedule_items (snd result) = schedule_items w
       /\ next_id (snd result) = next_id w
       /\ log (snd result)
          = log w ++ [Request (InsertScheduleItems [ScheduleBuilder.newItemRow st]);
                      ConsoleError "Error adding schedule item:"])
      /\ (rejects w (count_events is_request w) = false ->
          exists st' : ScheduleBuilder.State,
            fst result = Returned st'
            /\ ScheduleBuilder.newItem st' = ScheduleBuilder.blankItem
            /\ ScheduleBuilder.showAddForm st' = false
            /\ next_id (snd result) = S (next_id w))).
Proof.
  intros result. split; [apply addScheduleItem_quiet |].
  intros Ht Hs. subst result. rewrite (addScheduleItem_sends st w Ht Hs).
  split; intros Hk; rewrite Hk.
  - repeat apply conj; reflexivity.
  - eexists. split; [reflexivity |]. world_simpl.
    repeat apply conj; try reflexivity. lia.
Qed.

Lemma addScheduleItem_rejected_keeps_the_form_witness :
  fst (ScheduleBuilder.addScheduleItem Samples.builder1 Samples.world_failing_first)
  = Returned Samples.builder1
  /\ schedule_items (snd (ScheduleBuilder.addScheduleItem Samples.builder1
                            Samples.world_failing_first))
     = [Samples.item0; Samples.item1].
Proof.
  destruct (addScheduleItem_rejected_keeps_the_form Samples.builder1
              Samples.world_failing_first) as (_ & H).
  destruct H as ((Hst & Hrows & _) & _).
  - vm_compute. congruence.
  - vm_compute. congruence.
  - reflexivity.
  - split; [exact Hst | exact Hrows].
Defined.

(** X5. A template expansion whose delete is accepted and whose insert is
    rejected loses the schedule: no row of the production is left in the
    table, the rows of other productions are untouched, and the handler
    returns the state it was given, so the page still shows the items that
    are gone.  The failure is written to the console and no alert is
    raised. *)
Theorem applyTemplate_rejected_insert_loses_the_schedule
    (templateData : list Blueprint.t) (st : ScheduleBuilder.State) (w : World) :
  ScheduleBuilder.scheduleItems st ≠ [] ->
  answers w (count_events is_confirm w) = true ->
  rejects w (count_events is_request w) = false ->
  rejects w (S (count_events is_request w)) = true ->
  let pid := ScheduleBuilder.params_id st in
  let of_production := fun r => ScheduleItem.production_id (ScheduleItem.columns r) = pid in
  let result := ScheduleBuilder.applyTemplate templateData st w in
  fst result = Returned st
  /\ filter of_production (schedule_items (snd result)) = []
  /\ filter (fun r => ¬ of_production r) (schedule_items (snd result))
     = filter (fun r => ¬ of_production r) (schedule_items w)
  /\ log (snd result)
     = log w ++ [Confirm "This will replace your current schedule. Continue?";
                 Request (DeleteScheduleItemsOfProduction pid);
                 Request (InsertScheduleItems
                            (imap (ScheduleBuilder.itemToInsert pid) templateData));
                 ConsoleError "Error applying template:"]
  /\ alerts_of (log (snd result)) = alerts_of (log w).
Proof.
  intros Hne Hyes Hdel Hins pid of_production result.
  assert (Hquiet : alerts_of (log (snd result)) = alerts_of (log w))
    by apply applyTemplate_quiet.
  revert Hquiet. subst result.
  rewrite (applyTemplate_confirmed templateData st w Hne Hyes), Hdel.
  rewrite addTemplateItems_run. fold pid.
  change (count_events is_request (with_schedule_items _ ?x))
    with (count_events is_request x).
  rewrite count_requests_snoc, count_requests_confirm.
  change (rejects (with_schedule_items _ _)) with (rejects w). rewrite Hins.
  world_simpl. intros Hquiet.
  repeat apply conj.
  - reflexivity.
  - apply (filter_of_the_others of_production).
  - apply list_filter_filter_l. intros r Hr. exact Hr.
  - rewrite <- !app_assoc. reflexivity.
  - exact Hquiet.
Qed.

Lemma applyTemplate_rejected_insert_loses_the_schedule_witness :
  let w := Scenarios.world_failing_second in
  let result := ScheduleBuilder.applyTemplate Samples.template Samples.builder1 w in
  fst result = Returned Samples.builder1
  /\ filter (fun r => ScheduleItem.production_id (ScheduleItem.columns r) = "p1")
       (schedule_items (snd result)) = [].
Proof.
  intros w result.
  destruct (applyTemplate_rejected_insert_loses_the_schedule Samples.template
              Samples.builder1 w) as (Hst & Hrows & _).
  - discriminate.
  - reflexivity.
  - reflexivity.
  - reflexivity.
  - split; [exact Hst | exact Hrows].
Defined.

(** ** The numbering of the schedule *)

Section Numbering.
Import ScheduleBuilder.

Lemma numbered_snoc (items : list ScheduleItem.t) (new : ScheduleItem.t) :
  numbered items ->
  ScheduleItem.sequence_order (ScheduleItem.columns new) = Z.of_nat (length items) ->
  numbered (items ++ [new]).
Proof.
  intros Hnum Hnew k item Hk.
  destruct (decide (k < length items)%nat) as [Hlt | Hge].
  - rewrite lookup_app_l in Hk by exact Hlt. apply Hnum. exact Hk.
  - rewrite lookup_app_r in Hk by lia.
    destruct (k - length items)%nat as [| j] eqn:E; [| destruct j; discriminate Hk].
    injection Hk as <-. rewrite Hnew. f_equal. lia.
Qed.

Lemma numbered_stored (pid : string) (first : rowid) (templateData : list Blueprint.t) :
  numbered (stored_from first (imap (itemToInsert pid) templateData)).
Proof.
  intros k item Hk. unfold stored_from in Hk.
  rewrite list_lookup_imap, itemToInsert_lookup in Hk.
  destruct (templateData !! k); [| discriminate Hk].
  injection Hk as <-. reflexivity.
Qed.

Lemma addTemplateItems_numbered (templateData : list Blueprint.t) (st : State) (w : World) :
  numbered (scheduleItems st) ->
  exists st', fst (addTemplateItems templateData st w) = Returned st'
              /\ numbered (scheduleItems st').
Proof.
  intros Hnum. rewrite addTemplateItems_run.
  destruct (rejects w (count_events is_request w)).
  - exists st. split; [reflexivity | exact Hnum].
  - eexists. split; [reflexivity |]. apply numbered_stored.
Qed.

Lemma addScheduleItem_numbered (st : State) (w : World) :
  numbered (scheduleItems st) ->
  exists st', fst (addScheduleItem st w) = Returned st' /\ numbered (scheduleItems st').
Proof.
  intros Hnum.
  destruct (decide (Js.trim (title (newItem st)) = "")) as [Ht | Ht];
    [| destruct (decide (start_time (newItem st) = "")) as [Hs | Hs]].
  - rewrite addScheduleItem_guarded by (left; exact Ht). exists st. split; [reflexivity | exact Hnum].
  - rewrite addScheduleItem_guarded by (right; exact Hs). exists st. split; [reflexivity | exact Hnum].
  - rewrite (addScheduleItem_sends st w Ht Hs).
    destruct (rejects w (count_events is_request w)).
    + exists st. split; [reflexivity | exact Hnum].
    + eexists. split; [reflexivity |]. cbn. apply numbered_snoc; [exact Hnum | reflexivity].
Qed.

Lemma applyTemplate_numbered (templateData : list Blueprint.t) (st : State) (w : World) :
  numbered (scheduleItems st) ->
  exists st', fst (applyTemplate templateData st w) = Returned st'
              /\ numbered (scheduleItems st').
Proof.
  intros Hnum.
  destruct (decide (scheduleItems st = [])) as [He | Hne].
  - rewrite (applyTemplate_empty _ _ _ He). apply addTemplateItems_numbered. exact Hnum.
  - destruct (answers w (count_events is_confirm w)) eqn:Hans.
    + rewrite (applyTemplate_confirmed templateData st w Hne Hans).
      apply addTemplateItems_numbered. exact Hnum.
    + rewrite (applyTemplate_declined templateData st w Hne Hans).
      exists st. split; [reflexivity | exact Hnum].
Qed.

End Numbering.

(** X6. A numbered schedule, one in which every item carries its position
    as its sequence index, stays numbered under [addScheduleItem] and
    under [applyTemplate], whatever the user answers and whatever the
    backend rejects; both always return.  After an accepted expansion of
    an empty schedule the next item that is added continues the numbering:
    its sequence index is the number of blueprints. *)
Theorem schedule_stays_numbered :
  (forall (st : ScheduleBuilder.State) (w : World),
     numbered (ScheduleBuilder.scheduleItems st) ->
     exists st', fst (ScheduleBuilder.addScheduleItem st w) = Returned st'
                 /\ numbered (ScheduleBuilder.scheduleItems st'))
  /\
  (forall (templateData : list Blueprint.t) (st : ScheduleBuilder.State) (w : World),
     numbered (ScheduleBuilder.scheduleItems st) ->
     exists st', fst (ScheduleBuilder.applyTemplate templateData st w) = Returned st'
                 /\ numbered (ScheduleBuilder.scheduleItems st'))
  /\
  (forall (templateData : list Blueprint.t) (st : ScheduleBuilder.State) (w : World),
     ScheduleBuilder.scheduleItems st = [] ->
     rejects w (count_events is_request w) = false ->
     Js.trim (ScheduleBuilder.title (ScheduleBuilder.newItem st)) ≠ "" ->
     ScheduleBuilder.start_time (ScheduleBuilder.newItem st) ≠ "" ->
     exists (st1 : ScheduleBuilder.State) (w1 : World) (row : ScheduleItem.draft),
       ScheduleBuilder.applyTemplate templateData st w = (Returned st1, w1)
       /\ numbered (ScheduleBuilder.scheduleItems st1)
       /\ requests_of (log (snd (ScheduleBuilder.addScheduleItem st1 w1)))
          = requests_of (log w1) ++ [InsertScheduleItems [row]]
       /\ ScheduleItem.sequence_order row = Z.of_nat (length templateData)).
Proof.
  repeat apply conj.
  - apply addScheduleItem_numbered.
  - apply applyTemplate_numbered.
  - intros templateData st w He Hok Ht Hs.
    pose proof (addTemplateItems_run templateData st w) as Hrun. cbv zeta in Hrun.
    rewrite Hok in Hrun. rewrite <- (applyTemplate_empty _ _ _ He) in Hrun.
    set (st1 := ScheduleBuilder.setScheduleItems _ st) in Hrun.
    eexists st1, _, (ScheduleBuilder.newItemRow st1).
    split; [exact Hrun |]. split; [apply numbered_stored |]. split.
    + rewrite (addScheduleItem_sends st1 _ Ht Hs).
      match goal with |- context [if ?b then _ else _] => destruct b end;
        world_simpl; rewrite !requests_of_app; cbn; rewrite ?app_nil_r; reflexivity.
    + cbn. unfold stored_from. rewrite !length_imap. reflexivity.
Qed.

Lemma schedule_stays_numbered_witness :
  exists st', fst (ScheduleBuilder.addScheduleItem Samples.builder1 Samples.world1)
              = Returned st'
              /\ numbered (ScheduleBuilder.scheduleItems st').
Proof.
  apply (proj1 schedule_stays_numbered Samples.builder1 Samples.world1).
  intros k item Hk. destruct k as [| [| k]]; simpl in Hk; try discriminate;
    injection Hk as <-; reflexivity.
Defined.

(** ** createLook *)

Section CreateLook.
Import LooksManagement.

Lemma objects_exist (ls : list loc) (w : World) :
  (forall l, l ∈ ls -> is_Some (objects w !! l)) ->
  exists os, Forall2 (fun l o => objects w !! l = Some o) ls os.
Proof.
  induction ls as [| l ls IH]; intros H.
  - exists []. constructor.
  - destruct (H l (list_elem_of_here _ _)) as [o Ho].
    destruct IH as [os Hos].
    + intros l' Hl'. apply H. apply list_elem_of_further. exact Hl'.
    + exists (o :: os). constructor; assumption.
Qed.

Lemma createLook_run (st : State) (w : World) (os : list Look.t) :
  Js.trim (newLookName st) ≠ "" ->
  Forall2 (fun l o => objects w !! l = Some o) (looks st) os ->
  let row := lookRow st os in
  let stored := Look.of_draft (next_id w) (now w) row in
  let l := fresh (dom (objects w)) in
  createLook st w =
    if rejects w (count_events is_request w) then
      (Returned st,
       with_log (log w ++ [Request (InsertLooks [row]);
                           ConsoleError "Error creating look:"]) w)
    else
      (Returned (setNewLookName "" (setLooks (looks st ++ [l]) st)),
       with_objects (<[l := stored]> (objects w))
         (with_next_id (next_id w + 1)%nat
            (with_looks_table (looks_table w ++ [stored])
               (with_log (log w ++ [Request (InsertLooks [row])]) w)))).
Proof.
  intros Hname Hos row stored l. apply str_truthy_true in Hname.
  unfold createLook. rewrite Hname. cbn [negb].
  rewrite bind_run, (read_orders _ _ _ Hos).
  fold (nextOrder_of (Look.sequence_order <$> os)).
  run. destruct (rejects w (count_events is_request w)); cbn [negb]; cbv beta iota.
  - unfold with_log; world_simpl. rewrite <- app_assoc. reflexivity.
  - cbn [imap mapM]. unfold allocate. run. world_simpl.
    rewrite Nat.add_0_r. reflexivity.
Qed.

Lemma createLook_blank (st : State) (w : World) :
  Js.trim (newLookName st) = "" -> createLook st w = (Returned st, w).
Proof. intros H. unfold createLook. rewrite H. reflexivity. Qed.

Lemma fresh_object (w : World) : objects w !! fresh (dom (objects w)) = None.
Proof. apply not_elem_of_dom. apply is_fresh. Qed.

End CreateLook.

Section CreateLookQuiet.

Lemma mapM_quiet {A B : Type} (f : A -> Eff B) (l : list A) :
  (forall a, quiet (f a)) -> quiet (mapM f l).
Proof.
  intros Hf. induction l as [| x l IH]; cbn [mapM]; auto 10 with quiet.
Qed.

Lemma allocate_quiet o : quiet (LooksManagement.allocate o).
Proof. intros w. reflexivity. Qed.

Lemma insert_looks_quiet rows : quiet (Gateway.insert_looks rows).
Proof. unfold Gateway.insert_looks. auto 10 with quiet. Qed.

Lemma createLook_quiet st : quiet (LooksManagement.createLook st).
Proof.
  unfold LooksManagement.createLook.
  apply quiet_if; [apply quiet_ret |].
  apply quiet_bind.
  - apply mapM_quiet. intros l. pose proof deref_quiet. auto 10 with quiet.
  - intros orders. apply quiet_bind; [apply insert_looks_quiet |].
    intros [data | e]; [| auto 10 with quiet].
    apply quiet_bind; [| intros; apply quiet_ret].
    apply mapM_quiet. apply allocate_quiet.
Qed.

End CreateLookQuiet.

(** X7. [createLook] never raises an alert.  With a name that is blank
    after trimming it does nothing.  Otherwise, in a well-formed gallery:
    when the backend rejects the insert, the state, with the name as
    typed, the look objects and the table are what they were and the
    failure goes to the console only; when the backend accepts it, the
    stored row carries the trimmed name, the production of the page and
    no image, the list of looks gets one more entry at its end, which
    refers to a new object that holds the stored row, the name field is
    cleared, and the gallery is well formed again. *)
Theorem createLook_outcome (st : LooksManagement.State) (w : World) :
  well_formed st w ->
  let result := LooksManagement.createLook st w in
  alerts_of (log (snd result)) = alerts_of (log w)
  /\ (Js.trim (LooksManagement.newLookName st) = "" -> result = (Returned st, w))
  /\ (Js.trim (LooksManagement.newLookName st) ≠ "" ->
      rejects w (count_events is_request w) = true ->
      fst result = Returned st
      /\ looks_table (snd result) = looks_table w
      /\ objects (snd result) = objects w
      /\ exists row, log (snd result)
                     = log w ++ [Request (InsertLooks [row]);
                                 ConsoleError "Error creating look:"])
  /\ (Js.trim (LooksManagement.newLookName st) ≠ "" ->
      rejects w (count_events is_request w) = false ->
      exists (st' : LooksManagement.State) (l : loc) (o : Look.t),
        fst result = Returned st'
        /\ LooksManagement.looks st' = LooksManagement.looks st ++ [l]
        /\ (l ∉ LooksManagement.looks st)
        /\ objects w !! l = None
        /\ objects (snd result) = <[l := o]> (objects w)
        /\ looks_table (snd result) = looks_table w ++ [o]
        /\ Look.id o = next_id w
        /\ Look.name o = Js.trim (LooksManagement.newLookName st)
        /\ Look.production_id o = LooksManagement.params_id st
        /\ Look.image_url o = None
        /\ LooksManagement.newLookName st' = ""
        /\ well_formed st' (snd result)).
Proof.
  intros [Hnd Halloc] result.
  destruct (objects_exist _ _ Halloc) as [os Hos].
  assert (Hfresh : fresh (dom (objects w)) ∉ LooksManagement.looks st).
  { intros Hin. destruct (Halloc _ Hin) as [o Ho].
    rewrite fresh_object in Ho. discriminate Ho. }
  split; [apply createLook_quiet |].
  split; [apply createLook_blank |].
  subst result. split; intros Hname Hk; rewrite (createLook_run st w os Hname Hos), Hk.
  - repeat apply conj; try reflexivity. eexists. reflexivity.
  - do 3 eexists. world_simpl.
    repeat apply conj; try reflexivity.
    + exact Hfresh.
    + apply fresh_object.
    + cbn. apply NoDup_app. repeat apply conj.
      * exact Hnd.
      * intros x Hx Hx'. apply list_elem_of_singleton in Hx'. subst x. exact (Hfresh Hx).
      * apply NoDup_singleton.
    + cbn. intros l Hl. apply elem_of_app in Hl as [Hl | Hl].
      * destruct (decide (l = fresh (dom (objects w)))) as [-> | Hne];
          [contradiction |].
        rewrite lookup_insert_ne by congruence. apply Halloc. exact Hl.
      * apply list_elem_of_singleton in Hl. subst l.
        rewrite lookup_insert_eq. eexists. reflexivity.
Qed.

Lemma createLook_outcome_witness :
  exists (st' : LooksManagement.State) (l : loc) (o : Look.t),
    fst (LooksManagement.createLook Samples.gallery Samples.galleryWorld) = Returned st'
    /\ LooksManagement.looks st' = [10; 11; 12; l]%nat
    /\ Look.name o = "Evening Glamour".
Proof.
  destruct (createLook_outcome Samples.gallery Samples.galleryWorld
              (well_formedb_sound Samples.gallery Samples.galleryWorld eq_refl))
    as (_ & _ & _ & Hok).
  destruct Hok as (st' & l & o & Hst & Hlooks & _ & _ & _ & _ & _ & Hname & _).
  - vm_compute. congruence.
  - reflexivity.
  - exists st', l, o. split; [exact Hst | split; [exact Hlooks | exact Hname]].
Defined.

(** ** The gallery under moveUp and moveDown *)

Section Swap.

Lemma swap_source (l : list loc) (i j : nat) (a b : loc) (n : nat) (x : loc) :
  i ≠ j -> l !! i = Some a -> l !! j = Some b ->
  <[j := a]> (<[i := b]> l) !! n = Some x ->
  l !! (if decide (n = i) then j else if decide (n = j) then i else n) = Some x.
Proof.
  intros Hij Hi Hj Hn.
  destruct (swap_lookup l i j a b Hij Hi Hj) as (_ & Hj' & Hi' & Hrest).
  cbv zeta in Hj', Hi', Hrest.
  destruct (decide (n = i)) as [-> | Hni]; [| destruct (decide (n = j)) as [-> | Hnj]].
  - rewrite Hi' in Hn. rewrite Hj. exact Hn.
  - rewrite Hj' in Hn. rewrite Hi. exact Hn.
  - rewrite (Hrest n) in Hn by assumption. exact Hn.
Qed.

Lemma swap_NoDup (l : list loc) (i j : nat) (a b : loc) :
  NoDup l -> i ≠ j -> l !! i = Some a -> l !! j = Some b ->
  NoDup (<[j := a]> (<[i := b]> l)).
Proof.
  intros Hnd Hij Hi Hj.
  pose proof (proj1 (NoDup_alt l) Hnd) as Hinj.
  apply NoDup_alt. intros n m x Hn Hm.
  apply (swap_source l i j a b n x Hij Hi Hj) in Hn.
  apply (swap_source l i j a b m x Hij Hi Hj) in Hm.
  pose proof (Hinj _ _ _ Hn Hm) as E. clear Hn Hm.
  repeat destruct (decide _) in E; lia.
Qed.

Lemma swap_elem_of (l : list loc) (i j : nat) (a b x : loc) :
  i ≠ j -> l !! i = Some a -> l !! j = Some b ->
  x ∈ <[j := a]> (<[i := b]> l) <-> x ∈ l.
Proof.
  intros Hij Hi Hj.
  destruct (swap_lookup l i j a b Hij Hi Hj) as (_ & Hj' & Hi' & Hrest).
  cbv zeta in Hj', Hi', Hrest.
  rewrite !list_elem_of_lookup. split; intros [n Hn].
  - destruct (decide (n = i)) as [-> | Hni]; [| destruct (decide (n = j)) as [-> | Hnj]].
    + rewrite Hi' in Hn. injection Hn as <-. eauto.
    + rewrite Hj' in Hn. injection Hn as <-. eauto.
    + rewrite (Hrest n) in Hn by assumption. eauto.
  - destruct (decide (n = i)) as [-> | Hni]; [| destruct (decide (n = j)) as [-> | Hnj]].
    + rewrite Hi in Hn. injection Hn as <-. eauto.
    + rewrite Hj in Hn. injection Hn as <-. eauto.
    + exists n. rewrite (Hrest n) by assumption. exact Hn.
Qed.

Lemma swap_Permutation (l : list loc) (i j : nat) (a b : loc) :
  NoDup l -> i ≠ j -> l !! i = Some a -> l !! j = Some b ->
  <[j := a]> (<[i := b]> l) ≡ₚ l.
Proof.
  intros Hnd Hij Hi Hj. apply NoDup_Permutation.
  - apply swap_NoDup; assumption.
  - exact Hnd.
  - intros x. apply swap_elem_of; assumption.
Qed.

Lemma swapped_well_formed st w i j a b st' w' :
  well_formed st w -> i ≠ j ->
  LooksManagement.looks st !! i = Some a -> LooksManagement.looks st !! j = Some b ->
  swapped st w i j a b st' w' ->
  well_formed st' w' /\ LooksManagement.looks st' ≡ₚ LooksManagement.looks st.
Proof.
  intros [Hnd Halloc] Hij Hi Hj [-> Ho]. unfold well_formed. rewrite Ho.
  cbn [LooksManagement.looks LooksManagement.setLooks].
  repeat apply conj.
  - apply swap_NoDup; assumption.
  - intros l Hin. apply (swap_elem_of _ i j a b l Hij Hi Hj) in Hin.
    rewrite !lookup_alter_is_Some. apply Halloc. exact Hin.
  - apply swap_Permutation; assumption.
Qed.

Lemma swapped_in_step st w i j a b st' w' :
  well_formed st w -> i ≠ j ->
  LooksManagement.looks st !! i = Some a -> LooksManagement.looks st !! j = Some b ->
  swapped st w i j a b st' w' ->
  in_step st w -> in_step st' w'.
Proof.
  intros [Hnd Halloc] Hij Hi Hj [-> Ho] Hstep n x Hn.
  destruct (swap_lookup _ i j a b Hij Hi Hj) as (_ & Hj' & Hi' & Hrest).
  cbv zeta in Hj', Hi', Hrest.
  pose proof (neighbours_differ _ _ _ _ _ Hnd Hij Hi Hj) as Hab.
  destruct (Halloc a) as [oa Hoa]; [eapply list_elem_of_lookup_2; exact Hi |].
  destruct (Halloc b) as [ob Hob]; [eapply list_elem_of_lookup_2; exact Hj |].
  destruct (lookup_assigned (objects w) a b oa ob (Z.of_nat j) (Z.of_nat i) Hab Hoa Hob)
    as (Ha' & Hb' & Hothers).
  cbv zeta in Ha', Hb', Hothers.
  cbn [LooksManagement.looks LooksManagement.setLooks] in Hn. rewrite Ho.
  destruct (decide (n = i)) as [-> | Hni]; [| destruct (decide (n = j)) as [-> | Hnj]].
  - rewrite Hi' in Hn. injection Hn as <-. eexists. split; [exact Hb' | reflexivity].
  - rewrite Hj' in Hn. injection Hn as <-. eexists. split; [exact Ha' | reflexivity].
  - rewrite (Hrest n) in Hn by assumption.
    assert (x ≠ a) by (intros ->; apply Hni; exact (NoDup_lookup _ _ _ _ Hnd Hn Hi)).
    assert (x ≠ b) by (intros ->; apply Hnj; exact (NoDup_lookup _ _ _ _ Hnd Hn Hj)).
    rewrite Hothers by assumption. apply Hstep. exact Hn.
Qed.

Lemma moveUp_swapped (index : nat) (st : LooksManagement.State) (w : World) :
  well_formed st w -> (0 < index <= length (LooksManagement.looks st) - 1)%nat ->
  exists a b oa ob st' w',
    LooksManagement.looks st !! index = Some a
    /\ LooksManagement.looks st !! (index - 1)%nat = Some b
    /\ objects w !! a = Some oa /\ objects w !! b = Some ob /\ a ≠ b
    /\ LooksManagement.moveUp index st w = (Returned st', w')
    /\ swapped st w index (index - 1) a b st' w'
    /\ looks_table w'
       = write_order (rejects w (S (count_events is_request w))) (Look.id oa)
           (Z.of_nat (index - 1))
           (write_order (rejects w (count_events is_request w)) (Look.id ob)
              (Z.of_nat index) (looks_table w))
    /\ log w' = log w ++
         [Request (UpdateLookSequenceOrder (Look.id ob) (Z.of_nat index));
          Request (UpdateLookSequenceOrder (Look.id oa) (Z.of_nat (index - 1)))]
    /\ rejects w' = rejects w /\ answers w' = answers w /\ next_id w' = next_id w.
Proof.
  intros [Hnd Halloc] Hrange.
  destruct (lookup_lt_is_Some_2 (LooksManagement.looks st) index) as [a Ha]; [lia |].
  destruct (lookup_lt_is_Some_2 (LooksManagement.looks st) (index - 1)) as [b Hb]; [lia |].
  destruct (Halloc a) as [oa Hoa]; [eapply list_elem_of_lookup_2; exact Ha |].
  destruct (Halloc b) as [ob Hob]; [eapply list_elem_of_lookup_2; exact Hb |].
  assert (Hij : index ≠ (index - 1)%nat) by lia.
  pose proof (neighbours_differ _ _ _ _ _ Hnd Hij Ha Hb) as Hab.
  exists a, b, oa, ob. do 2 eexists.
  do 5 (split; [eassumption |]).
  split; [apply moveUp_run; (eassumption || lia) |].
  replace (Z.of_nat index - 1) with (Z.of_nat (index - 1)) by lia.
  repeat apply conj; reflexivity.
Qed.

Lemma moveDown_swapped (index : nat) (st : LooksManagement.State) (w : World) :
  well_formed st w -> (index < length (LooksManagement.looks st) - 1)%nat ->
  exists a b oa ob st' w',
    LooksManagement.looks st !! index = Some a
    /\ LooksManagement.looks st !! (index + 1)%nat = Some b
    /\ objects w !! a = Some oa /\ objects w !! b = Some ob /\ a ≠ b
    /\ LooksManagement.moveDown index st w = (Returned st', w')
    /\ swapped st w index (index + 1) a b st' w'
    /\ looks_table w'
       = write_order (rejects w (S (count_events is_request w))) (Look.id oa)
           (Z.of_nat (index + 1))
           (write_order (rejects w (count_events is_request w)) (Look.id ob)
              (Z.of_nat index) (looks_table w))
    /\ log w' = log w ++
         [Request (UpdateLookSequenceOrder (Look.id ob) (Z.of_nat index));
          Request (UpdateLookSequenceOrder (Look.id oa) (Z.of_nat (index + 1)))]
    /\ rejects w' = rejects w /\ answers w' = answers w /\ next_id w' = next_id w.
Proof.
  intros [Hnd Halloc] Hrange.
  destruct (lookup_lt_is_Some_2 (LooksManagement.looks st) index) as [a Ha]; [lia |].
  destruct (lookup_lt_is_Some_2 (LooksManagement.looks st) (index + 1)) as [b Hb]; [lia |].
  destruct (Halloc a) as [oa Hoa]; [eapply list_elem_of_lookup_2; exact Ha |].
  destruct (Halloc b) as [ob Hob]; [eapply list_elem_of_lookup_2; exact Hb |].
  assert (Hij : index ≠ (index + 1)%nat) by lia.
  pose proof (neighbours_differ _ _ _ _ _ Hnd Hij Ha Hb) as Hab.
  exists a, b, oa, ob. do 2 eexists.
  do 5 (split; [eassumption |]).
  split; [apply moveDown_run; eassumption |].
  replace (Z.of_nat index + 1) with (Z.of_nat (index + 1)) by lia.
  repeat apply conj; reflexivity.
Qed.

End Swap.

(** X8. In a well-formed gallery a reorder keeps the gallery well formed:
    [moveUp] at an index i with 0 < i <= N-1 and [moveDown] at an index i
    with i < N-1 return a list that is a permutation of the list they were
    given, without duplicates and with every object in place.  When every
    look carried its position as its sequence index before, every look
    does so afterwards, whatever the backend rejects. *)
Theorem reorder_keeps_the_gallery (index : nat) (st : LooksManagement.State) (w : World) :
  well_formed st w ->
  let N := length (LooksManagement.looks st) in
  ((0 < index <= N - 1)%nat ->
   exists (st' : LooksManagement.State) (w' : World),
     LooksManagement.moveUp index st w = (Returned st', w')
     /\ well_formed st' w'
     /\ LooksManagement.looks st' ≡ₚ LooksManagement.looks st
     /\ (in_step st w -> in_step st' w'))
  /\
  ((index < N - 1)%nat ->
   exists (st' : LooksManagement.State) (w' : World),
     LooksManagement.moveDown index st w = (Returned st', w')
     /\ well_formed st' w'
     /\ LooksManagement.looks st' ≡ₚ LooksManagement.looks st
     /\ (in_step st w -> in_step st' w')).
Proof.
  intros Hwf N. split; intros Hrange.
  - destruct (moveUp_swapped index st w Hwf Hrange)
      as (a & b & oa & ob & st' & w' & Ha & Hb & _ & _ & _ & Hrun & Hsw & _).
    assert (Hij : index ≠ (index - 1)%nat) by lia.
    destruct (swapped_well_formed _ _ _ _ _ _ _ _ Hwf Hij Ha Hb Hsw) as [Hwf' Hperm].
    exists st', w'. split; [exact Hrun |]. split; [exact Hwf' |]. split; [exact Hperm |].
    apply (swapped_in_step _ _ _ _ _ _ _ _ Hwf Hij Ha Hb Hsw).
  - destruct (moveDown_swapped index st w Hwf Hrange)
      as (a & b & oa & ob & st' & w' & Ha & Hb & _ & _ & _ & Hrun & Hsw & _).
    assert (Hij : index ≠ (index + 1)%nat) by lia.
    destruct (swapped_well_formed _ _ _ _ _ _ _ _ Hwf Hij Ha Hb Hsw) as [Hwf' Hperm].
    exists st', w'. split; [exact Hrun |]. split; [exact Hwf' |]. split; [exact Hperm |].
    apply (swapped_in_step _ _ _ _ _ _ _ _ Hwf Hij Ha Hb Hsw).
Qed.

Lemma reorder_keeps_the_gallery_witness :
  exists (st' : LooksManagement.State) (w' : World),
    LooksManagement.moveDown 0 Samples.gallery Samples.galleryWorld = (Returned st', w')
    /\ well_formed st' w'
    /\ LooksManagement.looks st' ≡ₚ [10; 11; 12]%nat.
Proof.
  destruct (proj2 (reorder_keeps_the_gallery 0 Samples.gallery Samples.galleryWorld
                     (well_formedb_sound Samples.gallery Samples.galleryWorld eq_refl)))
    as (st' & w' & Hrun & Hwf & Hperm & _).
  - simpl. lia.
  - exists st', w'. split; [exact Hrun | split; [exact Hwf | exact Hperm]].
Defined.

Section InStep.
Import LooksManagement.

Lemma in_step_orders (st : State) (w : World) (os : list Look.t) :
  in_step st w ->
  Forall2 (fun l o => objects w !! l = Some o) (looks st) os ->
  forall (i : nat) (o : Look.t), os !! i = Some o -> Look.sequence_order o = Z.of_nat i.
Proof.
  intros Hstep Hos i o Hi.
  destruct (Forall2_lookup_r _ _ _ _ _ Hos Hi) as (l & Hl & Ho).
  destruct (Hstep i l Hl) as (o' & Ho' & Hseq).
  rewrite Ho in Ho'. injection Ho' as ->. exact Hseq.
Qed.

Lemma nextOrder_in_step (os : list Look.t) :
  (forall (i : nat) (o : Look.t), os !! i = Some o -> Look.sequence_order o = Z.of_nat i) ->
  nextOrder_of (Look.sequence_order <$> os) = Z.of_nat (length os).
Proof.
  intros Hseq. destruct (decide (os = [])) as [-> | Hne]; [reflexivity |].
  assert (Hlen : (0 < length os)%nat) by (destruct os; [congruence | simpl; lia]).
  destruct (lookup_lt_is_Some_2 os (length os - 1)) as [o Ho]; [lia |].
  rewrite (nextOrder_of_max _ (Z.of_nat (length os - 1))); [lia | |].
  - apply list_elem_of_fmap. exists o. split.
    + symmetry. apply Hseq. exact Ho.
    + eapply list_elem_of_lookup_2. exact Ho.
  - intros y Hy. apply list_elem_of_fmap in Hy as (o' & -> & Hin).
    apply list_elem_of_lookup in Hin as [i Hi].
    rewrite (Hseq i o' Hi). pose proof (lookup_lt_Some _ _ _ Hi). lia.
Qed.

End InStep.

(** X9. In a well-formed gallery in which every look carries its position
    as its sequence index, a look that [createLook] creates continues the
    numbering: the new look is the last of the list and its sequence index
    is the number of looks there were, so that every look carries its
    position afterwards as well. *)
Theorem createLook_continues_the_numbering (st : LooksManagement.State) (w : World) :
  well_formed st w -> in_step st w ->
  Js.trim (LooksManagement.newLookName st) ≠ "" ->
  rejects w (count_events is_request w) = false ->
  exists (st' : LooksManagement.State) (w' : World) (l : loc) (o : Look.t),
    LooksManagement.createLook st w = (Returned st', w')
    /\ LooksManagement.looks st' = LooksManagement.looks st ++ [l]
    /\ objects w' !! l = Some o
    /\ o ∈ looks_table w'
    /\ Look.sequence_order o = Z.of_nat (length (LooksManagement.looks st))
    /\ in_step st' w'.
Proof.
  intros Hwf Hstep Hname Hk. destruct Hwf as [Hnd Halloc].
  destruct (objects_exist _ _ Halloc) as [os Hos].
  pose proof (createLook_run st w os Hname Hos) as Hrun. cbv zeta in Hrun.
  rewrite Hk in Hrun.
  assert (Hnext : nextOrder_of (Look.sequence_order <$> os)
                  = Z.of_nat (length (LooksManagement.looks st))).
  { rewrite (Forall2_length _ _ _ Hos).
    apply nextOrder_in_step. eapply in_step_orders; eassumption. }
  assert (Hfresh : fresh (dom (objects w)) ∉ LooksManagement.looks st).
  { intros Hin. destruct (Halloc _ Hin) as [o Ho].
    rewrite fresh_object in Ho. discriminate Ho. }
  do 4 eexists. split; [exact Hrun |]. world_simpl.
  split; [reflexivity |].
  split; [apply lookup_insert_eq |].
  split; [apply elem_of_app; right; apply list_elem_of_here |].
  split; [exact Hnext |].
  intros i l Hi. cbn in Hi. world_simpl.
  destruct (decide (i < length (LooksManagement.looks st))%nat) as [Hlt | Hge].
  - rewrite lookup_app_l in Hi by exact Hlt.
    assert (l ≠ fresh (dom (objects w))).
    { intros ->. apply Hfresh. eapply list_elem_of_lookup_2. exact Hi. }
    rewrite lookup_insert_ne by congruence. apply Hstep. exact Hi.
  - rewrite lookup_app_r in Hi by lia.
    destruct (i - length (LooksManagement.looks st))%nat as [| n] eqn:E;
      [| destruct n; discriminate Hi].
    injection Hi as <-. rewrite lookup_insert_eq. eexists. split; [reflexivity |].
    cbn. rewrite Hnext. f_equal. lia.
Qed.

Lemma createLook_continues_the_numbering_witness :
  exists (st' : LooksManagement.State) (w' : World) (l : loc) (o : Look.t),
    LooksManagement.createLook Samples.gallery Samples.galleryWorld = (Returned st', w')
    /\ objects w' !! l = Some o
    /\ Look.sequence_order o = 3.
Proof.
  destruct (createLook_continues_the_numbering Samples.gallery Samples.galleryWorld)
    as (st' & w' & l & o & Hrun & _ & Ho & _ & Hseq & _).
  - exact (well_formedb_sound Samples.gallery Samples.galleryWorld eq_refl).
  - intros i l Hi.
    destruct i as [| [| [| i]]]; simpl in Hi; try discriminate; injection Hi as <-;
      eexists; (split; [reflexivity |]); reflexivity.
  - vm_compute. congruence.
  - reflexivity.
  - exists st', w', l, o. split; [exact Hrun | split; [exact Ho | exact Hseq]].
Defined.

Section RoundTrip.
Import LooksManagement.

Lemma setLooks_same (st : State) : setLooks (looks st) st = st.
Proof. destruct st. reflexivity. Qed.

Lemma set_sequence_order_same (o : Look.t) (v : Z) :
  Look.sequence_order o = v -> Look.set_sequence_order v o = o.
Proof. intros <-. destruct o. reflexivity. Qed.

Lemma set_sequence_order_twice (o : Look.t) (v v' : Z) :
  Look.set_sequence_order v (Look.set_sequence_order v' o) = Look.set_sequence_order v o.
Proof. reflexivity. Qed.

End RoundTrip.

(** X10. Moving a look up and then moving it down again gives back what
    there was: in a well-formed gallery in which every look carries its
    position as its sequence index, [moveUp] at an index i with
    0 < i <= N-1 followed by [moveDown] at i-1 returns the state and the
    look objects as they were before the two, after four update
    requests. *)
Theorem moveUp_then_moveDown_restores (index : nat) (st : LooksManagement.State) (w : World) :
  well_formed st w -> in_step st w ->
  (0 < index <= length (LooksManagement.looks st) - 1)%nat ->
  exists (st1 : LooksManagement.State) (w1 w2 : World),
    LooksManagement.moveUp index st w = (Returned st1, w1)
    /\ LooksManagement.looks st1 ≠ LooksManagement.looks st
    /\ LooksManagement.moveDown (index - 1) st1 w1 = (Returned st, w2)
    /\ objects w2 = objects w
    /\ length (requests_of (log w2)) = (length (requests_of (log w)) + 4)%nat.
Proof.
  intros Hwf Hstep Hrange.
  destruct (moveUp_swapped index st w Hwf Hrange)
    as (a & b & oa & ob & st1 & w1 & Ha & Hb & Hoa & Hob & Hab & Hrun1 & Hsw1 & _ & Hlog1 & _).
  assert (Hij : index ≠ (index - 1)%nat) by lia.
  destruct (swapped_well_formed _ _ _ _ _ _ _ _ Hwf Hij Ha Hb Hsw1) as [Hwf1 Hperm1].
  destruct Hsw1 as [Hst1 Ho1].
  assert (Hl1 : LooksManagement.looks st1
                = <[(index - 1)%nat := a]> (<[index := b]> (LooksManagement.looks st)))
    by (rewrite Hst1; reflexivity).
  destruct (swap_lookup _ index (index - 1)%nat a b Hij Ha Hb) as (Hlen & Hj' & Hi' & Hrest).
  cbv zeta in Hlen, Hj', Hi', Hrest. rewrite <- Hl1 in Hlen, Hj', Hi', Hrest.
  assert (Hrange1 : (index - 1 < length (LooksManagement.looks st1) - 1)%nat) by lia.
  destruct (moveDown_swapped (index - 1) st1 w1 Hwf1 Hrange1)
    as (a' & b' & oa' & ob' & st2 & w2 & Ha' & Hb' & _ & _ & _ & Hrun2 & Hsw2 & _ & Hlog2 & _).
  replace (index - 1 + 1)%nat with index in * by lia.
  rewrite Hj' in Ha'. injection Ha' as <-. rewrite Hi' in Hb'. injection Hb' as <-.
  destruct Hsw2 as [Hst2 Ho2].
  destruct (Hstep index a Ha) as (oa0 & Hoa0 & Hsa).
  rewrite Hoa in Hoa0. injection Hoa0 as <-.
  destruct (Hstep (index - 1)%nat b Hb) as (ob0 & Hob0 & Hsb).
  rewrite Hob in Hob0. injection Hob0 as <-.
  assert (Hlooks : <[index := a]> (<[(index - 1)%nat := b]> (LooksManagement.looks st1))
                   = LooksManagement.looks st).
  { apply list_eq. intros n.
    destruct (decide (n = index)) as [-> | Hni];
      [| destruct (decide (n = (index - 1)%nat)) as [-> | Hnj]].
    - rewrite list_lookup_insert_eq by (rewrite length_insert; lia). symmetry. exact Ha.
    - rewrite list_lookup_insert_ne by lia.
      rewrite list_lookup_insert_eq by lia. symmetry. exact Hb.
    - rewrite !list_lookup_insert_ne by lia. apply Hrest; assumption. }
  rewrite Hlooks in Hst2.
  assert (Hsame : st2 = st).
  { rewrite Hst2, Hst1. destruct st. reflexivity. }
  rewrite Hsame in Hrun2.
  exists st1, w1, w2. split; [exact Hrun1 |].
  split.
  { intros Heq. rewrite <- Heq in Ha. rewrite Hi' in Ha. congruence. }
  split; [exact Hrun2 |].
  split.
  - rewrite Ho2, Ho1. apply map_eq. intros l.
    destruct (decide (l = a)) as [-> | Hla]; [| destruct (decide (l = b)) as [-> | Hlb]].
    + rewrite lookup_alter_eq, lookup_alter_ne, lookup_alter_eq, lookup_alter_ne, Hoa
        by congruence.
      cbn. f_equal. rewrite set_sequence_order_twice.
      apply set_sequence_order_same. exact Hsa.
    + rewrite lookup_alter_ne, lookup_alter_eq, lookup_alter_ne, lookup_alter_eq, Hob
        by congruence.
      cbn. f_equal. rewrite set_sequence_order_twice.
      apply set_sequence_order_same. exact Hsb.
    + rewrite !lookup_alter_ne by congruence. reflexivity.
  - rewrite Hlog2, Hlog1. rewrite !requests_of_app, !length_app. cbn. lia.
Qed.

Lemma moveUp_then_moveDown_restores_witness :
  exists (st1 : LooksManagement.State) (w1 w2 : World),
    LooksManagement.moveUp 2 Samples.gallery Samples.galleryWorld = (Returned st1, w1)
    /\ LooksManagement.moveDown 1 st1 w1 = (Returned Samples.gallery, w2)
    /\ objects w2 = objects Samples.galleryWorld.
Proof.
  destruct (moveUp_then_moveDown_restores 2 Samples.gallery Samples.galleryWorld)
    as (st1 & w1 & w2 & Hup & _ & Hdown & Hobjects & _).
  - exact (well_formedb_sound Samples.gallery Samples.galleryWorld eq_refl).
  - intros i l Hi.
    destruct i as [| [| [| i]]]; simpl in Hi; try discriminate; injection Hi as <-;
      eexists; (split; [reflexivity |]); reflexivity.
  - simpl. lia.
  - exists st1, w1, w2. split; [exact Hup | split; [exact Hdown | exact Hobjects]].
Defined.

(** ** The page and the table under a reorder *)

Section TableAgreement.

Lemma elem_of_set_order_where (id : rowid) (v : Z) (rows : list Look.t) (r : Look.t) :
  r ∈ Gateway.set_order_where id v rows <->
  exists r0, r0 ∈ rows
             /\ r = if decide (Look.id r0 = id) then Look.set_sequence_order v r0 else r0.
Proof.
  unfold Gateway.set_order_where. rewrite list_elem_of_fmap.
  split; intros (r0 & H1 & H2); exists r0; tauto.
Qed.

Lemma set_order_where_other (id : rowid) (v : Z) (rows : list Look.t) (r : Look.t) :
  Look.id r ≠ id -> r ∈ Gateway.set_order_where id v rows <-> r ∈ rows.
Proof.
  intros Hne. rewrite elem_of_set_order_where. split.
  - intros (r0 & Hin & ->). destruct (decide (Look.id r0 = id)) as [E | _].
    + exfalso. apply Hne. exact E.
    + exact Hin.
  - intros Hin. exists r. split; [exact Hin |].
    destruct (decide (Look.id r = id)); [contradiction | reflexivity].
Qed.

Lemma set_order_where_same (id : rowid) (v : Z) (rows : list Look.t) (r : Look.t) :
  Look.id r = id -> r ∈ Gateway.set_order_where id v rows ->
  Look.sequence_order r = v.
Proof.
  intros Hid Hin. apply elem_of_set_order_where in Hin as (r0 & _ & ->).
  destruct (decide (Look.id r0 = id)) as [_ | Hne]; [reflexivity | contradiction].
Qed.

Lemma set_order_where_hits (id : rowid) (v : Z) (rows : list Look.t) (r0 : Look.t) :
  r0 ∈ rows -> Look.id r0 = id ->
  Look.set_sequence_order v r0 ∈ Gateway.set_order_where id v rows.
Proof.
  intros Hin Hid. apply elem_of_set_order_where. exists r0. split; [exact Hin |].
  destruct (decide (Look.id r0 = id)); [reflexivity | contradiction].
Qed.

Variables (st st' : LooksManagement.State) (w w' : World).
Variables (i j : nat) (a b : loc) (oa ob : Look.t) (first second : bool).
Hypothesis Hwf : well_formed st w.
Hypothesis Hdistinct : distinct_rows st w.
Hypothesis Hagrees : agrees st w.
Hypothesis Hij : i ≠ j.
Hypothesis Hi : LooksManagement.looks st !! i = Some a.
Hypothesis Hj : LooksManagement.looks st !! j = Some b.
Hypothesis Hoa : objects w !! a = Some oa.
Hypothesis Hob : objects w !! b = Some ob.
Hypothesis Hswapped : swapped st w i j a b st' w'.
Hypothesis Htable :
  looks_table w' = write_order second (Look.id oa) (Z.of_nat j)
                     (write_order first (Look.id ob) (Z.of_nat i) (looks_table w)).

Lemma swapped_ids_differ : Look.id oa ≠ Look.id ob.
Proof.
  intros E. destruct Hwf as [Hnd _].
  apply (neighbours_differ _ _ _ _ _ Hnd Hij Hi Hj).
  apply (Hdistinct a b oa ob); try assumption.
  - eapply list_elem_of_lookup_2. exact Hi.
  - eapply list_elem_of_lookup_2. exact Hj.
Qed.

Lemma swapped_objects :
  objects w' !! a = Some (Look.set_sequence_order (Z.of_nat j) oa)
  /\ objects w' !! b = Some (Look.set_sequence_order (Z.of_nat i) ob)
  /\ forall l, l ≠ a -> l ≠ b -> objects w' !! l = objects w !! l.
Proof.
  destruct Hwf as [Hnd _]. destruct Hswapped as [_ ->].
  apply lookup_assigned; try assumption.
  exact (neighbours_differ _ _ _ _ _ Hnd Hij Hi Hj).
Qed.

Lemma swapped_looks (l : loc) :
  l ∈ LooksManagement.looks st' <-> l ∈ LooksManagement.looks st.
Proof.
  destruct Hswapped as [-> _]. cbn. apply swap_elem_of; assumption.
Qed.

Lemma swapped_agrees : first = false -> second = false -> agrees st' w'.
Proof.
  intros -> ->. cbn [write_order] in Htable.
  pose proof swapped_ids_differ as Hids.
  destruct swapped_objects as (Ha' & Hb' & Hothers).
  intros l o r Hl Ho Hr Hid. apply swapped_looks in Hl. rewrite Htable in Hr.
  destruct (decide (l = a)) as [-> | Hla]; [| destruct (decide (l = b)) as [-> | Hlb]].
  - rewrite Ha' in Ho. injection Ho as <-. cbn in Hid |- *.
    apply (set_order_where_same _ _ _ _ Hid Hr).
  - rewrite Hb' in Ho. injection Ho as <-. cbn in Hid |- *.
    apply set_order_where_other in Hr; [| congruence].
    apply (set_order_where_same _ _ _ _ Hid Hr).
  - rewrite Hothers in Ho by assumption.
    assert (Look.id o ≠ Look.id oa).
    { intros E. apply Hla. apply (Hdistinct l a o oa); try assumption.
      eapply list_elem_of_lookup_2. exact Hi. }
    assert (Look.id o ≠ Look.id ob).
    { intros E. apply Hlb. apply (Hdistinct l b o ob); try assumption.
      eapply list_elem_of_lookup_2. exact Hj. }
    apply set_order_where_other in Hr; [| congruence].
    apply set_order_where_other in Hr; [| congruence].
    apply (Hagrees l o r); assumption.
Qed.

Lemma swapped_distinct_rows : distinct_rows st' w'.
Proof.
  pose proof swapped_ids_differ as Hids.
  destruct swapped_objects as (Ha' & Hb' & Hothers).
  assert (Hid : forall l o', l ∈ LooksManagement.looks st -> objects w' !! l = Some o' ->
                  exists o, objects w !! l = Some o /\ Look.id o' = Look.id o).
  { intros l o' Hl Ho'.
    destruct (decide (l = a)) as [-> | Hla]; [| destruct (decide (l = b)) as [-> | Hlb]].
    - rewrite Ha' in Ho'. injection Ho' as <-. exists oa. split; [assumption | reflexivity].
    - rewrite Hb' in Ho'. injection Ho' as <-. exists ob. split; [assumption | reflexivity].
    - rewrite Hothers in Ho' by assumption. exists o'. split; [assumption | reflexivity]. }
  intros l l' o o' Hl Hl' Ho Ho' E.
  apply swapped_looks in Hl, Hl'.
  destruct (Hid l o Hl Ho) as (o0 & Ho0 & E0).
  destruct (Hid l' o' Hl' Ho') as (o0' & Ho0' & E0').
  apply (Hdistinct l l' o0 o0'); try assumption. congruence.
Qed.

Hypothesis Hstep : in_step st w.
Hypothesis Hstored : all_stored st w.

Lemma swapped_disagrees : first = true \/ second = true -> ¬ agrees st' w'.
Proof.
  intros Hrej Hag.
  pose proof swapped_ids_differ as Hids.
  destruct swapped_objects as (Ha' & Hb' & _).
  assert (Hina : a ∈ LooksManagement.looks st) by (eapply list_elem_of_lookup_2; exact Hi).
  assert (Hinb : b ∈ LooksManagement.looks st) by (eapply list_elem_of_lookup_2; exact Hj).
  destruct (Hstep i a Hi) as (oa0 & Hoa0 & Hsa). rewrite Hoa in Hoa0. injection Hoa0 as <-.
  destruct (Hstep j b Hj) as (ob0 & Hob0 & Hsb). rewrite Hob in Hob0. injection Hob0 as <-.
  destruct (Hstored a oa Hina Hoa) as (ra & Hra & Hida).
  destruct (Hstored b ob Hinb Hob) as (rb & Hrb & Hidb).
  pose proof (Hagrees a oa ra Hina Hoa Hra Hida) as Hseqa.
  pose proof (Hagrees b ob rb Hinb Hob Hrb Hidb) as Hseqb.
  destruct second.
  - (* the write for the look that moved to j was rejected *)
    assert (Hra' : ra ∈ looks_table w').
    { rewrite Htable. cbn [write_order]. destruct first; cbn [write_order]; [exact Hra |].
      apply set_order_where_other; [congruence | exact Hra]. }
    pose proof (Hag a _ ra (proj2 (swapped_looks a) Hina) Ha' Hra' Hida) as Hbad.
    cbn in Hbad. lia.
  - destruct Hrej as [-> | Hfalse]; [| discriminate Hfalse].
    assert (Hrb' : rb ∈ looks_table w').
    { rewrite Htable. cbn [write_order].
      apply set_order_where_other; [congruence | exact Hrb]. }
    pose proof (Hag b _ rb (proj2 (swapped_looks b) Hinb) Hb' Hrb' Hidb) as Hbad.
    cbn in Hbad. lia.
Qed.

Lemma swapped_duplicates :
  first ≠ second ->
  exists ra rb, ra ∈ looks_table w' /\ rb ∈ looks_table w'
                /\ Look.id ra ≠ Look.id rb
                /\ Look.sequence_order ra = Look.sequence_order rb.
Proof.
  intros Hne.
  pose proof swapped_ids_differ as Hids.
  assert (Hina : a ∈ LooksManagement.looks st) by (eapply list_elem_of_lookup_2; exact Hi).
  assert (Hinb : b ∈ LooksManagement.looks st) by (eapply list_elem_of_lookup_2; exact Hj).
  destruct (Hstep i a Hi) as (oa0 & Hoa0 & Hsa). rewrite Hoa in Hoa0. injection Hoa0 as <-.
  destruct (Hstep j b Hj) as (ob0 & Hob0 & Hsb). rewrite Hob in Hob0. injection Hob0 as <-.
  destruct (Hstored a oa Hina Hoa) as (ra & Hra & Hida).
  destruct (Hstored b ob Hinb Hob) as (rb & Hrb & Hidb).
  pose proof (Hagrees a oa ra Hina Hoa Hra Hida) as Hseqa.
  pose proof (Hagrees b ob rb Hinb Hob Hrb Hidb) as Hseqb.
  rewrite Htable. destruct first, second; try congruence; cbn [write_order].
  - (* only the second write went through: both rows carry j *)
    exists (Look.set_sequence_order (Z.of_nat j) ra), rb. repeat apply conj.
    + apply set_order_where_hits; assumption.
    + apply set_order_where_other; [congruence | exact Hrb].
    + cbn. congruence.
    + cbn. congruence.
  - (* only the first write went through: both rows carry i *)
    exists ra, (Look.set_sequence_order (Z.of_nat i) rb). repeat apply conj.
    + apply set_order_where_other; [congruence | exact Hra].
    + apply set_order_where_hits; assumption.
    + cbn. congruence.
    + cbn. congruence.
Qed.

End TableAgreement.

Section GalleryFacts.

(** The sample gallery has every property that the theorems below ask
    for, whatever the environment answers. *)
Lemma gallery_facts (w : World) :
  objects w = objects Samples.galleryWorld ->
  looks_table w = looks_table Samples.galleryWorld ->
  well_formed Samples.gallery w /\ in_step Samples.gallery w
  /\ distinct_rows Samples.gallery w /\ agrees Samples.gallery w
  /\ all_stored Samples.gallery w.
Proof.
  intros Ho Ht.
  assert (Hcases : forall l, l ∈ LooksManagement.looks Samples.gallery ->
                     l = 10%nat \/ l = 11%nat \/ l = 12%nat).
  { intros l Hl. cbn in Hl.
    repeat (apply elem_of_cons in Hl as [-> | Hl]; [tauto |]).
    apply elem_of_nil in Hl. contradiction. }
  assert (Hrows : forall r, r ∈ looks_table w ->
                    r = Samples.look 100%nat "Casual Denim" 0
                    \/ r = Samples.look 101%nat "Resort" 1
                    \/ r = Samples.look 102%nat "Tailoring" 2).
  { intros r Hr. rewrite Ht in Hr. cbn in Hr.
    repeat (apply elem_of_cons in Hr as [-> | Hr]; [tauto |]).
    apply elem_of_nil in Hr. contradiction. }
  unfold well_formed, in_step, distinct_rows, agrees, all_stored. rewrite Ho, Ht.
  repeat apply conj.
  - apply (bool_decide_unpack _). vm_compute. exact I.
  - intros l Hl. destruct (Hcases l Hl) as [-> | [-> | ->]]; eexists; reflexivity.
  - intros i l Hi.
    destruct i as [| [| [| i]]]; simpl in Hi; try discriminate; injection Hi as <-;
      eexists; (split; [reflexivity |]); reflexivity.
  - intros l l' o o' Hl Hl' Hlo Hlo' E.
    destruct (Hcases l Hl) as [-> | [-> | ->]];
      destruct (Hcases l' Hl') as [-> | [-> | ->]];
      try reflexivity;
      vm_compute in Hlo, Hlo'; injection Hlo as <-; injection Hlo' as <-;
      discriminate E.
  - intros l o r Hl Hlo Hr E. rewrite <- Ht in Hr.
    destruct (Hcases l Hl) as [-> | [-> | ->]];
      vm_compute in Hlo; injection Hlo as <-;
      destruct (Hrows r Hr) as [-> | [-> | ->]];
      try discriminate E; reflexivity.
  - intros l o Hl Hlo.
    destruct (Hcases l Hl) as [-> | [-> | ->]];
      vm_compute in Hlo; injection Hlo as <-; eexists; (split; [| reflexivity]).
    + apply list_elem_of_here.
    + apply list_elem_of_further, list_elem_of_here.
    + do 2 apply list_elem_of_further. apply list_elem_of_here.
Qed.

End GalleryFacts.

(** X11. When the backend accepts both writes of a reorder, the table
    follows the page: in a well-formed gallery whose looks are different
    rows and whose stored rows carried the sequence indices of the looks
    shown, they carry them after [moveUp] and after [moveDown] as well. *)
Theorem accepted_reorder_reaches_the_table
    (index : nat) (st : LooksManagement.State) (w : World) :
  well_formed st w -> distinct_rows st w -> agrees st w ->
  rejects w (count_events is_request w) = false ->
  rejects w (S (count_events is_request w)) = false ->
  let N := length (LooksManagement.looks st) in
  ((0 < index <= N - 1)%nat ->
   exists (st' : LooksManagement.State) (w' : World),
     LooksManagement.moveUp index st w = (Returned st', w')
     /\ agrees st' w' /\ distinct_rows st' w')
  /\
  ((index < N - 1)%nat ->
   exists (st' : LooksManagement.State) (w' : World),
     LooksManagement.moveDown index st w = (Returned st', w')
     /\ agrees st' w' /\ distinct_rows st' w').
Proof.
  intros Hwf Hdistinct Hagrees Hfirst Hsecond N. split; intros Hrange.
  - destruct (moveUp_swapped index st w Hwf Hrange)
      as (a & b & oa & ob & st' & w' & Ha & Hb & Hoa & Hob & _ & Hrun & Hsw & Htab & _).
    assert (Hij : index ≠ (index - 1)%nat) by lia.
    exists st', w'. split; [exact Hrun |]. split.
    + eapply swapped_agrees; eassumption.
    + eapply swapped_distinct_rows; eassumption.
  - destruct (moveDown_swapped index st w Hwf Hrange)
      as (a & b & oa & ob & st' & w' & Ha & Hb & Hoa & Hob & _ & Hrun & Hsw & Htab & _).
    assert (Hij : index ≠ (index + 1)%nat) by lia.
    exists st', w'. split; [exact Hrun |]. split.
    + eapply swapped_agrees; eassumption.
    + eapply swapped_distinct_rows; eassumption.
Qed.

Lemma accepted_reorder_reaches_the_table_witness :
  exists (st' : LooksManagement.State) (w' : World),
    LooksManagement.moveUp 1 Samples.gallery Samples.galleryWorld = (Returned st', w')
    /\ agrees st' w'.
Proof.
  destruct (gallery_facts Samples.galleryWorld eq_refl eq_refl)
    as (Hwf & _ & Hdistinct & Hagrees & _).
  destruct (proj1 (accepted_reorder_reaches_the_table 1 Samples.gallery Samples.galleryWorld
                     Hwf Hdistinct Hagrees eq_refl eq_refl))
    as (st' & w' & Hrun & Hag & _).
  - simpl. lia.
  - exists st', w'. split; [exact Hrun | exact Hag].
Defined.

(** X12. A reorder of which the backend rejects a write leaves the table
    behind and says nothing.  In a well-formed gallery whose looks are
    stored as different rows with the sequence indices shown, each look
    carrying its position: after [moveUp] or [moveDown] with a rejected
    write the page is still numbered by position, the table no longer
    carries the sequence indices of the page, and the log of the run holds
    the two requests and nothing else, no line on the console and no
    alert.  When exactly one of the two writes is rejected, two different
    rows of the table carry the same sequence index. *)
Theorem rejected_reorder_leaves_the_table_behind
    (index : nat) (st : LooksManagement.State) (w : World) :
  well_formed st w -> in_step st w -> distinct_rows st w -> agrees st w ->
  all_stored st w ->
  let k := count_events is_request w in
  let N := length (LooksManagement.looks st) in
  rejects w k = true \/ rejects w (S k) = true ->
  forall handler,
    (handler = LooksManagement.moveUp /\ (0 < index <= N - 1)%nat)
    \/ (handler = LooksManagement.moveDown /\ (index < N - 1)%nat) ->
    exists (st' : LooksManagement.State) (w' : World),
      handler index st w = (Returned st', w')
      /\ in_step st' w'
      /\ ¬ agrees st' w'
      /\ (exists r1 r2, log w' = log w ++ [Request r1; Request r2])
      /\ (rejects w k ≠ rejects w (S k) ->
          exists ra rb, ra ∈ looks_table w' /\ rb ∈ looks_table w'
                        /\ Look.id ra ≠ Look.id rb
                        /\ Look.sequence_order ra = Look.sequence_order rb).
Proof.
  intros Hwf Hstep Hdistinct Hagrees Hstored k N Hrej handler Hcase.
  assert (Hgeneral :
    forall i j a b oa ob st' w',
      i ≠ j ->
      LooksManagement.looks st !! i = Some a -> LooksManagement.looks st !! j = Some b ->
      objects w !! a = Some oa -> objects w !! b = Some ob ->
      swapped st w i j a b st' w' ->
      looks_table w' = write_order (rejects w (S k)) (Look.id oa) (Z.of_nat j)
                         (write_order (rejects w k) (Look.id ob) (Z.of_nat i)
                            (looks_table w)) ->
      in_step st' w' /\ ¬ agrees st' w'
      /\ (rejects w k ≠ rejects w (S k) ->
          exists ra rb, ra ∈ looks_table w' /\ rb ∈ looks_table w'
                        /\ Look.id ra ≠ Look.id rb
                        /\ Look.sequence_order ra = Look.sequence_order rb)).
  { intros i j a b oa ob st' w' Hij Hi Hj Hoa Hob Hsw Htab. repeat apply conj.
    - exact (swapped_in_step _ _ _ _ _ _ _ _ Hwf Hij Hi Hj Hsw Hstep).
    - eapply swapped_disagrees; eassumption.
    - eapply swapped_duplicates; eassumption. }
  destruct Hcase as [[-> Hrange] | [-> Hrange]].
  - destruct (moveUp_swapped index st w Hwf Hrange)
      as (a & b & oa & ob & st' & w' & Ha & Hb & Hoa & Hob & _ & Hrun & Hsw & Htab & Hlog & _).
    assert (Hij : index ≠ (index - 1)%nat) by lia.
    destruct (Hgeneral _ _ _ _ _ _ _ _ Hij Ha Hb Hoa Hob Hsw Htab) as (H1 & H2 & H3).
    exists st', w'. repeat apply conj; try assumption. eauto.
  - destruct (moveDown_swapped index st w Hwf Hrange)
      as (a & b & oa & ob & st' & w' & Ha & Hb & Hoa & Hob & _ & Hrun & Hsw & Htab & Hlog & _).
    assert (Hij : index ≠ (index + 1)%nat) by lia.
    destruct (Hgeneral _ _ _ _ _ _ _ _ Hij Ha Hb Hoa Hob Hsw Htab) as (H1 & H2 & H3).
    exists st', w'. repeat apply conj; try assumption. eauto.
Qed.

Lemma rejected_reorder_leaves_the_table_behind_witness :
  exists (st' : LooksManagement.State) (w' : World) (ra rb : Look.t),
    LooksManagement.moveUp 1 Samples.gallery Scenarios.galleryWorld_failing_second
    = (Returned st', w')
    /\ ra ∈ looks_table w' /\ rb ∈ looks_table w'
    /\ Look.id ra ≠ Look.id rb
    /\ Look.sequence_order ra = Look.sequence_order rb.
Proof.
  destruct (gallery_facts Scenarios.galleryWorld_failing_second eq_refl eq_refl)
    as (Hwf & Hstep & Hdistinct & Hagrees & Hstored).
  destruct (rejected_reorder_leaves_the_table_behind 1 Samples.gallery
              Scenarios.galleryWorld_failing_second Hwf Hstep Hdistinct Hagrees Hstored
              (or_intror eq_refl) LooksManagement.moveUp)
    as (st' & w' & Hrun & _ & _ & _ & Hdup).
  - left. split; [reflexivity | simpl; lia].
  - destruct Hdup as (ra & rb & Hra & Hrb & Hid & Hseq); [discriminate |].
    exists st', w', ra, rb. repeat apply conj; assumption.
Defined.

(** ** Running a handler of the look cards or of the call-sheet form *)

Ltac act :=
  unfold Backend.delete_look, Backend.update_look_image_url, Backend.update_production,
    Backend.insert_crew_members, Backend.delete_crew_member, call_backend, console_log,
    update_site, read_site, lift, createObjectURL, save, html2canvas, try_catch;
  unfold mbind, mret, Act_bind, Act_ret;
  run.

Ltac site_simpl :=
  cbn [world productions crew_members calls refuses crew_ids console object_urls blobs
       canvas saved with_world with_productions with_crew_members with_calls
       with_console with_blobs with_saved fst snd];
  world_simpl.

(** ** The crew of the call sheet *)

Section Crew.
Import CallSheetForm.

Lemma addCrewMember_guarded (st : State) (s : Site) :
  Js.trim (CrewForm.name (newCrew st)) = "" \/ Js.trim (CrewForm.role (newCrew st)) = "" ->
  addCrewMember st s = (Returned st, s).
Proof.
  intros H. unfold addCrewMember.
  destruct H as [H | H]; rewrite H; simpl; [reflexivity |].
  rewrite orb_true_r. reflexivity.
Qed.

Lemma addCrewMember_sends (st : State) (s : Site) :
  Js.trim (CrewForm.name (newCrew st)) ≠ "" -> Js.trim (CrewForm.role (newCrew st)) ≠ "" ->
  let row := (params_id st, newCrew st) in
  let member := CrewForm.stored (crew_ids s (next_id (world s))) (newCrew st) in
  addCrewMember st s =
    if refuses s (length (calls s)) then
      (Returned st,
       with_world (with_log (log (world s) ++ [ConsoleError "Error adding crew member:"])
                     (world s))
         (with_calls (calls s ++ [InsertCrewMembers [row]]) s))
    else
      (Returned (setNewCrew CrewForm.blank (setCrew (crew st ++ [member]) st)),
       with_crew_members (crew_members s ++ [(params_id st, member)])
         (with_world (with_next_id (next_id (world s) + 1)%nat (world s))
            (with_calls (calls s ++ [InsertCrewMembers [row]]) s))).
Proof.
  intros Hn Hr. apply str_truthy_true in Hn, Hr.
  unfold addCrewMember. rewrite Hn, Hr. cbn [negb orb].
  act. destruct (refuses s (length (calls s))); cbn [negb]; cbv beta iota.
  - reflexivity.
  - site_simpl. cbn [imap fmap list_fmap]. rewrite Nat.add_0_r. reflexivity.
Qed.

Lemma removeCrewMember_run (crewId : string) (st : State) (s : Site) :
  removeCrewMember crewId st s =
    if refuses s (length (calls s)) then
      (Returned st,
       with_world (with_log (log (world s) ++ [ConsoleError "Error removing crew member:"])
                     (world s))
         (with_calls (calls s ++ [DeleteCrewMemberById crewId]) s))
    else
      (Returned (setCrew (filter (fun c => CrewMember.id c ≠ crewId) (crew st)) st),
       with_crew_members
         (filter (fun row => CrewMember.id (snd row) ≠ crewId) (crew_members s))
         (with_calls (calls s ++ [DeleteCrewMemberById crewId]) s)).
Proof.
  unfold removeCrewMember. act.
  destruct (refuses s (length (calls s))); reflexivity.
Qed.

Lemma updateProduction_run (field : ProductionField.t) (value : string)
    (st : State) (s : Site) :
  updateProduction field value st s =
    if refuses s (length (calls s)) then
      (Returned st,
       with_world (with_log (log (world s) ++ [ConsoleError "Error updating production:"])
                     (world s))
         (with_calls (calls s ++ [UpdateProduction (params_id st) field value]) s))
    else
      (Returned (setProduction (ProductionField.put field (Some value) <$> production st) st),
       with_productions
         ((fun p => if decide (Production.id p = params_id st)
                    then ProductionField.put field (Some value) p else p)
            <$> productions s)
         (with_calls (calls s ++ [UpdateProduction (params_id st) field value]) s)).
Proof.
  unfold updateProduction. act.
  destruct (refuses s (length (calls s))); reflexivity.
Qed.

End Crew.

(** X13. [addCrewMember] checks the name and the role after trimming and
    sends them as they were typed.  With a blank name or role it does
    nothing.  Otherwise it sends one insert of the form's values under the
    production of the page, untrimmed, an empty call time, phone or e-mail
    as the empty string.  When the backend accepts it, the member is
    appended to the crew of the page with the name as typed, the form is
    blank again, and the row of the member in the preview shows the name
    as typed and "-" for an empty call time or phone.  When the backend
    rejects it, the page and the table are what they were, the form keeps
    its values and the failure goes to the console without an alert. *)
Theorem addCrewMember_stores_what_was_typed (st : CallSheetForm.State) (s : Site) :
  let f := CallSheetForm.newCrew st in
  let result := CallSheetForm.addCrewMember st s in
  (Js.trim (CrewForm.name f) = "" \/ Js.trim (CrewForm.role f) = "" ->
   result = (Returned st, s))
  /\
  (Js.trim (CrewForm.name f) ≠ "" -> Js.trim (CrewForm.role f) ≠ "" ->
   calls (snd result) = calls s ++ [InsertCrewMembers [(CallSheetForm.params_id st, f)]]
   /\ alerts_of (log (world (snd result))) = alerts_of (log (world s))
   /\ (refuses s (length (calls s)) = true ->
       fst result = Returned st
       /\ crew_members (snd result) = crew_members s
       /\ log (world (snd result))
          = log (world s) ++ [ConsoleError "Error adding crew member:"])
   /\ (refuses s (length (calls s)) = false ->
       exists (st' : CallSheetForm.State) (member : CrewMember.t),
         fst result = Returned st'
         /\ CallSheetForm.crew st' = CallSheetForm.crew st ++ [member]
         /\ crew_members (snd result)
            = crew_members s ++ [(CallSheetForm.params_id st, member)]
         /\ CrewMember.name member = CrewForm.name f
         /\ CrewMember.role member = CrewForm.role f
         /\ CallSheetForm.newCrew st' = CrewForm.blank
         /\ CallSheetGenerator.crewRow member
            = CallSheetGenerator.Element "tr"
                [ CallSheetGenerator.Element "td" [CallSheetGenerator.Text (CrewForm.name f)];
                  CallSheetGenerator.Element "td" [CallSheetGenerator.Text (CrewForm.role f)];
                  CallSheetGenerator.Element "td"
                    [CallSheetGenerator.Text
                       (if Js.str_truthy (CrewForm.call_time f)
                        then CrewForm.call_time f else "-")];
                  CallSheetGenerator.Element "td"
                    [CallSheetGenerator.Text
                       (if Js.str_truthy (CrewForm.phone f)
                        then CrewForm.phone f else "-")] ])).
Proof.
  intros f result. split; [apply addCrewMember_guarded |].
  intros Hn Hr. subst result. rewrite (addCrewMember_sends st s Hn Hr).
  destruct (refuses s (length (calls s))); site_simpl.
  - repeat apply conj; try reflexivity.
    + rewrite alerts_of_app. cbn. rewrite app_nil_r. reflexivity.
    + intros _. repeat apply conj; reflexivity.
    + intros H. discriminate H.
  - repeat apply conj; try reflexivity.
    + intros H. discriminate H.
    + intros _. do 2 eexists. repeat apply conj; reflexivity.
Qed.

Lemma addCrewMember_stores_what_was_typed_witness :
  exists (st' : CallSheetForm.State) (member : CrewMember.t),
    fst (CallSheetForm.addCrewMember Office.page Office.site0) = Returned st'
    /\ CallSheetForm.crew st' = [member]
    /\ CrewMember.name member = " Ada "
    /\ CallSheetForm.newCrew st' = CrewForm.blank.
Proof.
  destruct (proj2 (addCrewMember_stores_what_was_typed Office.page Office.site0))
    as (_ & _ & _ & Hok).
  - vm_compute. congruence.
  - vm_compute. congruence.
  - destruct (Hok eq_refl) as (st' & member & Hst & Hcrew & _ & Hname & _ & Hform & _).
    exists st', member. repeat apply conj; assumption.
Defined.

(** X14. [removeCrewMember] sends one delete by identity and never raises
    an alert.  When the backend rejects it, the crew of the page and the
    table are what they were and the failure goes to the console.  When
    the backend accepts it, the crew of the page keeps exactly the members
    with another identity, in their order, and so does the table; the
    preview has a crew section afterwards exactly when such a member is
    left. *)
Theorem removeCrewMember_outcome (crewId : string) (st : CallSheetForm.State) (s : Site) :
  let result := CallSheetForm.removeCrewMember crewId st s in
  calls (snd result) = calls s ++ [DeleteCrewMemberById crewId]
  /\ alerts_of (log (world (snd result))) = alerts_of (log (world s))
  /\ (refuses s (length (calls s)) = true ->
      fst result = Returned st
      /\ crew_members (snd result) = crew_members s
      /\ log (world (snd result))
         = log (world s) ++ [ConsoleError "Error removing crew member:"])
  /\ (refuses s (length (calls s)) = false ->
      exists st' : CallSheetForm.State,
        fst result = Returned st'
        /\ (forall c, c ∈ CallSheetForm.crew st'
              <-> c ∈ CallSheetForm.crew st /\ CrewMember.id c ≠ crewId)
        /\ CallSheetForm.crew st' `sublist_of` CallSheetForm.crew st
        /\ (forall row, row ∈ crew_members (snd result)
              <-> row ∈ crew_members s /\ CrewMember.id (snd row) ≠ crewId)
        /\ crew_members (snd result) `sublist_of` crew_members s
        /\ (forall (p : Production.t) (looks : list LookName.t),
              "CREW" ∈ CallSheetGenerator.headings
                         (CallSheetGenerator.callSheet p (CallSheetForm.crew st') looks)
              <-> exists c, c ∈ CallSheetForm.crew st /\ CrewMember.id c ≠ crewId)
        /\ (CallSheetGenerator.crewSection (CallSheetForm.crew st') = []
            <-> ¬ exists c, c ∈ CallSheetForm.crew st /\ CrewMember.id c ≠ crewId)
        /\ ((¬ exists c, c ∈ CallSheetForm.crew st /\ CrewMember.id c ≠ crewId) ->
            forall (p : Production.t) (looks : list LookName.t),
              CallSheetGenerator.callSheet p (CallSheetForm.crew st') looks
              = CallSheetGenerator.Element "div"
                  ([CallSheetGenerator.header p; CallSheetGenerator.productionInfo p;
                    CallSheetGenerator.location p]
                   ++ CallSheetGenerator.looksSection looks
                   ++ [CallSheetGenerator.emergencyContacts p]
                   ++ CallSheetGenerator.specialNotes p))
        /\ ((exists c, c ∈ CallSheetForm.crew st /\ CrewMember.id c ≠ crewId) ->
            exists rows : list CallSheetGenerator.node,
              length rows = length (CallSheetForm.crew st')
              /\ (forall (i : nat) (member : CrewMember.t),
                    CallSheetForm.crew st' !! i = Some member ->
                    rows !! i = Some (CallSheetGenerator.crewRow member))
              /\ CallSheetGenerator.crewSection (CallSheetForm.crew st')
                 = [ CallSheetGenerator.Element "div"
                       [ CallSheetGenerator.Element "h3" [CallSheetGenerator.Text "CREW"];
                         CallSheetGenerator.Element "table"
                           [ CallSheetGenerator.Element "thead"
                               [ CallSheetGenerator.Element "tr"
                                   [ CallSheetGenerator.Element "th"
                                       [CallSheetGenerator.Text "Name"];
                                     CallSheetGenerator.Element "th"
                                       [CallSheetGenerator.Text "Role"];
                                     CallSheetGenerator.Element "th"
                                       [CallSheetGenerator.Text "Call Time"];
                                     CallSheetGenerator.Element "th"
                                       [CallSheetGenerator.Text "Phone"] ] ];
                             CallSheetGenerator.Element "tbody" rows ] ] ])).
Proof.
  intros result. subst result. rewrite removeCrewMember_run.
  destruct (refuses s (length (calls s))); site_simpl.
  - repeat apply conj; try reflexivity.
    + rewrite alerts_of_app. cbn. rewrite app_nil_r. reflexivity.
    + intros _. repeat apply conj; reflexivity.
    + intros H. discriminate H.
  - repeat apply conj; try reflexivity.
    + intros H. discriminate H.
    + intros _. eexists. split; [reflexivity |].
      cbn [CallSheetForm.crew CallSheetForm.setCrew].
      split; [intros c; rewrite list_elem_of_filter; tauto |].
      split; [apply sublist_filter |].
      split; [intros row; rewrite list_elem_of_filter; tauto |].
      split; [apply sublist_filter |].
      assert (Hleft : filter (fun c => CrewMember.id c ≠ crewId) (CallSheetForm.crew st) ≠ []
                      <-> exists c, c ∈ CallSheetForm.crew st /\ CrewMember.id c ≠ crewId).
      { split.
        - intros Hne.
          destruct (filter _ (CallSheetForm.crew st)) as [| c rest] eqn:E; [congruence |].
          exists c. assert (Hc : c ∈ c :: rest) by apply list_elem_of_here.
          rewrite <- E in Hc. apply list_elem_of_filter in Hc. tauto.
        - intros (c & Hc & Hid) E.
          assert (Hin : c ∈ filter (fun c => CrewMember.id c ≠ crewId)
                              (CallSheetForm.crew st))
            by (apply list_elem_of_filter; tauto).
          rewrite E in Hin. apply elem_of_nil in Hin. exact Hin. }
      split; [intros p looks; rewrite crew_heading; exact Hleft |].
      split.
      { rewrite crewSection_nil. split.
        - intros E Hsome. apply Hleft in Hsome. exact (Hsome E).
        - intros Hnone.
          destruct (filter _ (CallSheetForm.crew st)) eqn:E; [reflexivity |].
          exfalso. apply Hnone, Hleft. first [discriminate | rewrite E; discriminate]. }
      split.
      { intros Hnone p looks.
        replace (filter (fun c => CrewMember.id c ≠ crewId) (CallSheetForm.crew st))
          with (@nil CrewMember.t); [reflexivity |].
        destruct (filter _ (CallSheetForm.crew st)) eqn:E; [reflexivity |].
        exfalso. apply Hnone, Hleft. first [discriminate | rewrite E; discriminate]. }
      intros Hsome. apply Hleft in Hsome.
      exists (CallSheetGenerator.crewRow
                <$> filter (fun c => CrewMember.id c ≠ crewId) (CallSheetForm.crew st)).
      split; [apply length_fmap |]. split; [| apply crewSection_rows; exact Hsome].
      intros i member Hi. rewrite list_lookup_fmap, Hi. reflexivity.
Qed.

Lemma removeCrewMember_outcome_witness :
  fst (CallSheetForm.removeCrewMember "c1"
         (CallSheetForm.setCrew [Samples.stylist] Office.page) Office.site_refusing)
  = Returned (CallSheetForm.setCrew [Samples.stylist] Office.page)
  /\ exists st' : CallSheetForm.State,
       fst (CallSheetForm.removeCrewMember "c1"
              (CallSheetForm.setCrew [Samples.stylist] Office.page) Office.site0)
       = Returned st'
       /\ CallSheetGenerator.crewSection (CallSheetForm.crew st') = [].
Proof.
  split.
  - destruct (removeCrewMember_outcome "c1"
                (CallSheetForm.setCrew [Samples.stylist] Office.page) Office.site_refusing)
      as (_ & _ & Hrejected & _).
    destruct (Hrejected eq_refl) as (Hst & _). exact Hst.
  - destruct (removeCrewMember_outcome "c1"
                (CallSheetForm.setCrew [Samples.stylist] Office.page) Office.site0)
      as (_ & _ & _ & Haccepted).
    destruct (Haccepted eq_refl) as (st' & Hst & _ & _ & _ & _ & _ & Hsection & _).
    exists st'. split; [exact Hst |]. apply Hsection.
    intros (c & Hc & Hid). apply Hid.
    apply list_elem_of_singleton in Hc. rewrite Hc. reflexivity.
Defined.

(** Case analysis on a nullable string that the goal depends on. *)
Ltac when_shown o :=
  match goal with
  | |- context [o] => by_cases_on o
  | _ => idtac
  end.

Section Details.

Lemma put_get (f : ProductionField.t) (v : option string) (p : Production.t) :
  ProductionField.get f (ProductionField.put f v p) = v.
Proof. destruct f; reflexivity. Qed.

Lemma put_get_other (f g : ProductionField.t) (v : option string) (p : Production.t) :
  g ≠ f -> ProductionField.get g (ProductionField.put f v p) = ProductionField.get g p.
Proof. intros Hne. destruct f, g; try reflexivity; congruence. Qed.

Lemma callSheet_cleared (f : ProductionField.t) (p : Production.t)
    (crew : list CrewMember.t) (looks : list LookName.t) :
  CallSheetGenerator.callSheet (ProductionField.put f (Some "") p) crew looks
  = CallSheetGenerator.callSheet (ProductionField.put f None p) crew looks.
Proof. destruct f; reflexivity. Qed.

Lemma callSheet_line (f : ProductionField.t) (label : string) (c : ascii) (v : string)
    (p : Production.t) (crew : list CrewMember.t) (looks : list LookName.t) :
  line_label f = Some label ->
  CallSheetGenerator.labelled label
    (CallSheetGenerator.callSheet (ProductionField.put f (Some (String c v)) p) crew looks)
  = [[CallSheetGenerator.Text " "; CallSheetGenerator.Text (String c v)]].
Proof.
  intros Hlabel. rewrite labelled_callSheet.
  unfold CallSheetGenerator.productionInfo, CallSheetGenerator.location,
    CallSheetGenerator.emergencyContacts.
  destruct f; cbn in Hlabel; try discriminate Hlabel; injection Hlabel as <-;
    cbn [ProductionField.put ProductionField.get ProductionField.same
         Production.shoot_date Production.call_time Production.location_address
         Production.location_details Production.client_name Production.producer_name
         Production.producer_phone Production.weather_backup Production.parking_info];
    when_shown (Production.shoot_date p); when_shown (Production.location_details p);
    when_shown (Production.parking_info p); when_shown (Production.weather_backup p);
    reflexivity.
Qed.

End Details.

(** X15. An edit of the details form reaches the preview.  [updateProduction]
    sends one update of the column and never raises an alert.  When the
    backend rejects it, the page and the table are what they were.  When
    the backend accepts it, the production of the page and the rows of
    the production in the table get the value in that column and keep
    every other column.  A value that is not empty is then what the
    preview shows after the label of the column; the empty string, which
    is what a cleared input sends, is stored as it is and the preview is
    the one of a production without the column: "TBD" is back, or the
    line is gone. *)
Theorem updateProduction_reaches_the_preview
    (field : ProductionField.t) (value : string) (st : CallSheetForm.State) (s : Site)
    (p : Production.t) :
  CallSheetForm.production st = Some p ->
  let result := CallSheetForm.updateProduction field value st s in
  calls (snd result) = calls s ++ [UpdateProduction (CallSheetForm.params_id st) field value]
  /\ alerts_of (log (world (snd result))) = alerts_of (log (world s))
  /\ (refuses s (length (calls s)) = true ->
      fst result = Returned st /\ productions (snd result) = productions s)
  /\ (refuses s (length (calls s)) = false ->
      exists (st' : CallSheetForm.State) (p' : Production.t),
        fst result = Returned st'
        /\ CallSheetForm.production st' = Some p'
        /\ ProductionField.get field p' = Some value
        /\ (forall g, g ≠ field -> ProductionField.get g p' = ProductionField.get g p)
        /\ Production.name p' = Production.name p
        /\ Production.special_notes p' = Production.special_notes p
        /\ (forall row, row ∈ productions s ->
              Production.id row = CallSheetForm.params_id st ->
              ProductionField.put field (Some value) row ∈ productions (snd result))
        /\ (forall row, row ∈ productions s ->
              Production.id row ≠ CallSheetForm.params_id st ->
              row ∈ productions (snd result))
        /\ (forall (crew : list CrewMember.t) (looks : list LookName.t),
              (value = "" ->
               CallSheetGenerator.callSheet p' crew looks
               = CallSheetGenerator.callSheet (ProductionField.put field None p) crew looks)
              /\ (forall label : string,
                    value ≠ "" -> line_label field = Some label ->
                    CallSheetGenerator.labelled label
                      (CallSheetGenerator.callSheet p' crew looks)
                    = [[CallSheetGenerator.Text " "; CallSheetGenerator.Text value]]))).
Proof.
  intros Hp result. subst result. rewrite updateProduction_run.
  destruct (refuses s (length (calls s))); site_simpl.
  - repeat apply conj; try reflexivity.
    + rewrite alerts_of_app. cbn. rewrite app_nil_r. reflexivity.
    + intros _. split; reflexivity.
    + intros H. discriminate H.
  - repeat apply conj; try reflexivity.
    + intros H. discriminate H.
    + intros _. exists (CallSheetForm.setProduction
                          (ProductionField.put field (Some value) <$>
                             CallSheetForm.production st) st),
                       (ProductionField.put field (Some value) p).
      split; [reflexivity |].
      split; [cbn [CallSheetForm.production CallSheetForm.setProduction];
              rewrite Hp; reflexivity |].
      split; [apply put_get |].
      split; [intros g Hg; apply put_get_other; exact Hg |].
      split; [reflexivity |]. split; [reflexivity |].
      split.
      { intros row Hrow Hid. apply list_elem_of_fmap. exists row. split; [| exact Hrow].
        destruct (decide _); [reflexivity | contradiction]. }
      split.
      { intros row Hrow Hid. apply list_elem_of_fmap. exists row. split; [| exact Hrow].
        destruct (decide _); [contradiction | reflexivity]. }
      intros crew looks. split.
      * intros ->. apply callSheet_cleared.
      * intros label Hvalue Hlabel. destruct value as [| c v]; [congruence |].
        apply callSheet_line. exact Hlabel.
Qed.

Lemma updateProduction_reaches_the_preview_witness :
  exists (st' : CallSheetForm.State) (p' : Production.t),
    fst (CallSheetForm.updateProduction ProductionField.location_address "12 Mill Lane"
           Office.page Office.site0) = Returned st'
    /\ CallSheetForm.production st' = Some p'
    /\ CallSheetGenerator.labelled "Address:" (CallSheetGenerator.callSheet p' [] [])
       = [[CallSheetGenerator.Text " "; CallSheetGenerator.Text "12 Mill Lane"]].
Proof.
  destruct (updateProduction_reaches_the_preview ProductionField.location_address
              "12 Mill Lane" Office.page Office.site0 Samples.bare eq_refl)
    as (_ & _ & _ & Hok).
  destruct (Hok eq_refl) as (st' & p' & Hst & Hp & _ & _ & _ & _ & _ & _ & Hshown).
  exists st', p'. split; [exact Hst |]. split; [exact Hp |].
  apply (proj2 (Hshown [] [])); [discriminate | reflexivity].
Defined.

(** ** generatePDF *)

Section PageLoop.
Import CallSheetGenerator.
Local Open Scope Q_scope.

Lemma addPages_positions (fuel : nat) (H heightLeft : Q) (pages : list Q) :
  addPages fuel H heightLeft = Some pages ->
  forall (k : nat) (q : Q),
    pages !! k = Some q -> q == heightLeft - inject_Z (Z.of_nat k) * pageHeight - H.
Proof.
  revert heightLeft pages. induction fuel as [| fuel IH]; intros heightLeft pages Hrun;
    [discriminate Hrun |].
  cbn [addPages] in Hrun. destruct (Qle_bool 0 heightLeft).
  - destruct (addPages fuel H (heightLeft - pageHeight)) as [rest |] eqn:Hrest;
      [| discriminate Hrun].
    injection Hrun as <-. intros [| k] q Hk.
    + injection Hk as <-. change (inject_Z (Z.of_nat 0)) with 0. ring.
    + cbn in Hk. rewrite (IH _ _ Hrest k q Hk), inject_succ. ring.
  - injection Hrun as <-. intros k q Hk. destruct k; discriminate Hk.
Qed.

Lemma pdfPages_positions (fuel : nat) (canvas_width canvas_height : Z) (pages : list Q) :
  pdfPages fuel canvas_width canvas_height = Some pages ->
  forall (k : nat) (q : Q),
    pages !! k = Some q -> q == - (inject_Z (Z.of_nat k) * pageHeight).
Proof.
  unfold pdfPages. intros Hrun.
  destruct (addPages fuel _ _) as [rest |] eqn:Hrest; [| discriminate Hrun].
  injection Hrun as <-. intros [| k] q Hk.
  - injection Hk as <-. change (inject_Z (Z.of_nat 0)) with 0. ring.
  - cbn in Hk. rewrite (addPages_positions _ _ _ _ Hrest k q Hk), inject_succ. ring.
Qed.

End PageLoop.

Section GeneratePDF.
Import CallSheetForm.

Lemma generatePDF_guarded (fuel : nat) (st : State) (s : Site) :
  callSheetRef st = false \/ production st = None ->
  generatePDF fuel st s = (Returned (Some st), s).
Proof.
  intros H. unfold generatePDF.
  destruct H as [H | H]; rewrite H; [reflexivity |].
  destruct (callSheetRef st); reflexivity.
Qed.

Lemma generatePDF_failed (fuel : nat) (st : State) (s : Site) (p : Production.t) :
  callSheetRef st = true -> production st = Some p -> canvas s = None ->
  generatePDF fuel st s =
    (Returned (Some (setGenerating false st)),
     with_world
       (with_log (log (world s) ++ [ConsoleError "‚ùå Error generating PDF:";
                                    Alert "Failed to generate PDF"]) (world s)) s).
Proof.
  intros Href Hp Hcanvas. unfold generatePDF, exportPDF. rewrite Href, Hp.
  act. rewrite Hcanvas. site_simpl.
  unfold with_world, with_log; site_simpl. rewrite <- app_assoc. reflexivity.
Qed.

Lemma generatePDF_saved (fuel : nat) (st : State) (s : Site) (p : Production.t)
    (width height : Z) (pages : list Q) :
  callSheetRef st = true -> production st = Some p -> canvas s = Some (width, height) ->
  CallSheetGenerator.pdfPages fuel width height = Some pages ->
  generatePDF fuel st s =
    (Returned (Some (setGenerating false st)),
     with_console (console s ++ ["‚úÖ PDF generated successfully"])
       (with_saved (saved s ++ [(Production.name p +:+ " - Call Sheet.pdf", pages)]) s)).
Proof.
  intros Href Hp Hcanvas Hpages. unfold generatePDF, exportPDF. rewrite Href, Hp.
  act. rewrite Hcanvas. cbn [fst snd]. rewrite Hpages. reflexivity.
Qed.

End GeneratePDF.

(** X16. [generatePDF] does nothing without a preview or without a
    production.  Otherwise it ends with [generating] false again, whether
    the export succeeds or fails.  When [html2canvas] fails, nothing is
    saved and the user gets the alert "Failed to generate PDF".  When it
    yields a canvas of positive width, the loop ends, given enough fuel:
    one document is saved under the name of the production followed by
    " - Call Sheet.pdf"; it has floor (image height / page height) + 1
    pages, the image is drawn on page k (from 0) at k page heights above
    the page, and no alert is raised. *)
Theorem generatePDF_outcome (fuel : nat) (st : CallSheetForm.State) (s : Site) :
  (CallSheetForm.callSheetRef st = false \/ CallSheetForm.production st = None ->
   CallSheetForm.generatePDF fuel st s = (Returned (Some st), s))
  /\
  (forall p : Production.t,
     CallSheetForm.callSheetRef st = true -> CallSheetForm.production st = Some p ->
     (canvas s = None ->
      exists s' : Site,
        CallSheetForm.generatePDF fuel st s
        = (Returned (Some (CallSheetForm.setGenerating false st)), s')
        /\ saved s' = saved s
        /\ alerts_of (log (world s'))
           = alerts_of (log (world s)) ++ ["Failed to generate PDF"])
     /\
     (forall width height : Z,
        canvas s = Some (width, height) -> 0 < width -> 0 <= height ->
        let j := Z.to_nat (Qfloor (CallSheetGenerator.imgHeight width height
                                   / CallSheetGenerator.pageHeight)) in
        (j < fuel)%nat ->
        exists (s' : Site) (pages : list Q),
          CallSheetForm.generatePDF fuel st s
          = (Returned (Some (CallSheetForm.setGenerating false st)), s')
          /\ saved s' = saved s ++ [(Production.name p +:+ " - Call Sheet.pdf", pages)]
          /\ length pages = S j
          /\ (forall (k : nat) (q : Q),
                pages !! k = Some q ->
                (q == - (inject_Z (Z.of_nat k) * CallSheetGenerator.pageHeight))%Q)
          /\ alerts_of (log (world s')) = alerts_of (log (world s)))).
Proof.
  split; [apply generatePDF_guarded |].
  intros p Href Hp. split.
  - intros Hcanvas. eexists. split; [apply (generatePDF_failed fuel st s p); assumption |].
    site_simpl. split; [reflexivity |].
    rewrite alerts_of_app. reflexivity.
  - intros width height Hcanvas Hw Hh j Hfuel.
    destruct (pdfPages_terminates fuel width height Hw Hh Hfuel) as (pages & Hpages & Hlen).
    exists (with_console (console s ++ ["‚úÖ PDF generated successfully"])
              (with_saved (saved s ++ [(Production.name p +:+ " - Call Sheet.pdf", pages)]) s)),
           pages.
    split; [apply (generatePDF_saved fuel st s p width height); assumption |].
    split; [reflexivity |]. split; [exact Hlen |].
    split; [apply (pdfPages_positions fuel width height); exact Hpages | reflexivity].
Qed.

Lemma generatePDF_outcome_witness :
  exists (s' : Site) (pages : list Q),
    CallSheetForm.generatePDF 10 Office.page Office.site0
    = (Returned (Some (CallSheetForm.setGenerating false Office.page)), s')
    /\ saved s' = [("Spring Lookbook - Call Sheet.pdf", pages)]
    /\ length pages = 2%nat.
Proof.
  destruct (proj2 (generatePDF_outcome 10 Office.page Office.site0) Samples.bare
              eq_refl eq_refl) as (_ & Hsaved).
  destruct (Hsaved 840 2000 eq_refl) as (s' & pages & Hrun & Hfile & Hlen & _).
  - reflexivity.
  - discriminate.
  - vm_compute. lia.
  - exists s', pages. split; [exact Hrun | split; [exact Hfile | exact Hlen]].
Defined.

(** ** deleteLook *)

Section DeleteLook.
Import LookCards.

Lemma lift_run {A : Type} (m : Eff A) (s : Site) :
  lift m s = (fst (m (world s)), with_world (snd (m (world s))) s).
Proof. unfold lift. destruct (m (world s)). reflexivity. Qed.

Lemma act_bind_run {A B : Type} (m : Act A) (k : A -> Act B) (s : Site) :
  (m ≫= k) s = match m s with
               | (Returned a, s') => k a s'
               | (Threw e, s') => (Threw e, s')
               end.
Proof. reflexivity. Qed.

Lemma act_ret_run {A : Type} (a : A) (s : Site) :
  (mret a : Act A) s = (Returned a, s).
Proof. reflexivity. Qed.

Lemma with_world_same (s : Site) : with_world (world s) s = s.
Proof. destruct s. reflexivity. Qed.

(** What [looks.filter] keeps of the looks [ls] whose objects are [os]. *)
Lemma keeps_all (lookId : rowid) (ls : list loc) (os : list Look.t) (s : Site) :
  Forall2 (fun l o => objects (world s) !! l = Some o) ls os ->
  mapM (keeps lookId) ls s
  = (Returned ((fun p => if decide (Look.id (snd p) ≠ lookId) then Some (fst p) else None)
                 <$> zip ls os), s).
Proof.
  induction 1 as [| l o ls os Hl _ IH]; [reflexivity |].
  cbn [mapM]. rewrite act_bind_run. unfold keeps at 1.
  rewrite act_bind_run, lift_run. unfold LooksManagement.deref. rewrite Hl.
  cbn [fst snd]. rewrite with_world_same.
  rewrite act_ret_run, act_bind_run, IH. reflexivity.
Qed.

Lemma deleteLook_run (lookId : rowid) (st : State) (s : Site) (os : list Look.t) :
  Forall2 (fun l o => objects (world s) !! l = Some o) (looks st) os ->
  let w := world s in
  let asked := with_log (log w ++ [Confirm "Are you sure you want to delete this look?"]) w in
  let sent := with_calls (calls s ++ [DeleteLookById lookId]) s in
  deleteLook lookId st s =
    if answers w (count_events is_confirm w) then
      if refuses s (length (calls s)) then
        (Returned st,
         with_world (with_log (log asked ++ [ConsoleError "Error deleting look:"]) asked) sent)
      else
        (Returned (setLooks (fst <$> filter (fun p => Look.id (snd p) ≠ lookId)
                                       (zip (looks st) os)) st),
         with_world (with_looks_table (filter (fun r => Look.id r ≠ lookId) (looks_table w))
                       asked) sent)
    else (Returned st, with_world asked s).
Proof.
  intros Hos w asked sent. unfold deleteLook.
  rewrite act_bind_run, lift_run. unfold confirm at 1. cbn [fst snd]. fold w. fold asked.
  destruct (answers w (count_events is_confirm w)); cbn [negb]; [| reflexivity].
  rewrite act_bind_run. unfold Backend.delete_look.
  rewrite act_bind_run. unfold call_backend at 1. site_simpl.
  destruct (refuses s (length (calls s))); cbn [negb].
  - act. site_simpl. reflexivity.
  - rewrite act_bind_run, lift_run. unfold update_world at 1. cbn [fst snd]. site_simpl.
    rewrite act_ret_run.
    rewrite act_bind_run, (keeps_all lookId (looks st) os).
    + rewrite act_ret_run. f_equal. f_equal. f_equal.
      generalize (zip (looks st) os). intros ps.
      induction ps as [| p ps IH]; [reflexivity |].
      cbn [fmap list_fmap omap list_omap]. rewrite filter_cons.
      destruct (decide (Look.id (snd p) ≠ lookId)); cbn; rewrite IH; reflexivity.
    + site_simpl. exact Hos.
Qed.

End DeleteLook.

Section DeletedLooks.

Lemma others_cons (lookId : rowid) (l : loc) (o : Look.t) (ls : list loc) (os : list Look.t) :
  others lookId (l :: ls) (o :: os)
  = if decide (Look.id o ≠ lookId) then l :: others lookId ls os else others lookId ls os.
Proof.
  unfold others. cbn [zip zip_with]. rewrite filter_cons. cbn [snd].
  destruct (decide (Look.id o ≠ lookId)); reflexivity.
Qed.

Lemma others_all (lookId : rowid) (ls : list loc) (os : list Look.t) :
  length ls = length os ->
  (forall o, o ∈ os -> Look.id o ≠ lookId) ->
  others lookId ls os = ls.
Proof.
  revert os. induction ls as [| l ls IH]; intros [| o os] Hlen Hall;
    try discriminate Hlen; [reflexivity |].
  rewrite others_cons. destruct (decide (Look.id o ≠ lookId)) as [_ | Hd].
  - f_equal. apply IH; [cbn in Hlen; lia |].
    intros o' Ho'. apply Hall. apply list_elem_of_further. exact Ho'.
  - exfalso. apply Hd. apply Hall. apply list_elem_of_here.
Qed.

Lemma others_delete (lookId : rowid) (ls : list loc) (os : list Look.t)
    (p : nat) (o : Look.t) :
  length ls = length os ->
  os !! p = Some o -> Look.id o = lookId ->
  (forall q o', os !! q = Some o' -> Look.id o' = lookId -> q = p) ->
  others lookId ls os = delete p ls.
Proof.
  revert os p. induction ls as [| l ls IH]; intros [| o0 os] p Hlen Hp Hid Huniq;
    try discriminate Hlen; [discriminate Hp |].
  rewrite others_cons. destruct p as [| p].
  - injection Hp as ->. destruct (decide (Look.id o ≠ lookId)) as [Hd | _]; [contradiction |].
    cbn [delete list_delete]. apply others_all; [cbn in Hlen; lia |].
    intros o' Ho' E. apply list_elem_of_lookup in Ho' as [q Hq].
    specialize (Huniq (S q) o' Hq E). discriminate Huniq.
  - destruct (decide (Look.id o0 ≠ lookId)) as [_ | Hd].
    + cbn [delete list_delete]. f_equal. apply (IH os p); [cbn in Hlen; lia | exact Hp | exact Hid |].
      intros q o' Hq E. specialize (Huniq (S q) o' Hq E). lia.
    + apply dec_stable in Hd. specialize (Huniq 0%nat o0 eq_refl Hd). discriminate Huniq.
Qed.

Lemma elem_of_others (lookId : rowid) (ls : list loc) (os : list Look.t) (w : World) (l : loc) :
  Forall2 (fun l o => objects w !! l = Some o) ls os ->
  l ∈ others lookId ls os
  <-> l ∈ ls /\ exists o, objects w !! l = Some o /\ Look.id o ≠ lookId.
Proof.
  intros Hos. unfold others. rewrite list_elem_of_fmap. split.
  - intros ([l' o] & -> & Hin). apply list_elem_of_filter in Hin as [Hid Hin].
    apply list_elem_of_lookup in Hin as [i Hi]. apply lookup_zip_Some in Hi as [Hl Ho].
    destruct (Forall2_lookup_l _ _ _ _ _ Hos Hl) as (o' & Ho' & Hobj).
    rewrite Ho in Ho'. injection Ho' as <-.
    split; [eapply list_elem_of_lookup_2; exact Hl |]. exists o. split; assumption.
  - intros (Hin & o & Hobj & Hid). apply list_elem_of_lookup in Hin as [i Hl].
    destruct (Forall2_lookup_l _ _ _ _ _ Hos Hl) as (o' & Ho' & Hobj').
    rewrite Hobj in Hobj'. injection Hobj' as <-.
    exists (l, o). split; [reflexivity |]. apply list_elem_of_filter. split; [exact Hid |].
    apply list_elem_of_lookup. exists i. apply lookup_zip_Some. split; assumption.
Qed.

Lemma others_sublist (lookId : rowid) (ls : list loc) (os : list Look.t) :
  length ls = length os -> others lookId ls os `sublist_of` ls.
Proof.
  intros Hlen. unfold others.
  rewrite <- (fst_zip ls os) at 2 by lia.
  apply fmap_sublist. apply sublist_filter.
Qed.

Lemma unique_identity (st : LooksManagement.State) (w : World) (os : list Look.t)
    (p : nat) (l : loc) (o : Look.t) :
  well_formed st w -> distinct_rows st w ->
  Forall2 (fun l o => objects w !! l = Some o) (LooksManagement.looks st) os ->
  LooksManagement.looks st !! p = Some l -> objects w !! l = Some o ->
  os !! p = Some o
  /\ forall q o', os !! q = Some o' -> Look.id o' = Look.id o -> q = p.
Proof.
  intros [Hnd _] Hdistinct Hos Hl Hobj. split.
  - destruct (Forall2_lookup_l _ _ _ _ _ Hos Hl) as (o' & Ho' & Hobj').
    rewrite Hobj in Hobj'. injection Hobj' as <-. exact Ho'.
  - intros q o' Hq E.
    destruct (Forall2_lookup_r _ _ _ _ _ Hos Hq) as (l' & Hl' & Hobj').
    assert (l' = l).
    { apply (Hdistinct l' l o' o); try assumption.
      - eapply list_elem_of_lookup_2. exact Hl'.
      - eapply list_elem_of_lookup_2. exact Hl. }
    subst l'. exact (NoDup_lookup _ _ _ _ Hnd Hl' Hl).
Qed.

End DeletedLooks.

(** X17. [deleteLook] asks first and never raises an alert.  When the
    user declines, nothing is sent and the page and the table are what
    they were.  When the user agrees, one delete by identity is sent and
    no look object is touched.  When the backend rejects it, the page and
    the table are what they were and the failure goes to the console.
    When the backend accepts it, in a well-formed gallery, the table
    keeps exactly the rows with another identity, and the page keeps
    exactly the looks with another identity, in their order; when the
    looks are different rows and the look with the identity is at
    position p, the list of the page is the list without position p. *)
Theorem deleteLook_outcome (lookId : rowid) (st : LookCards.State) (s : Site) :
  well_formed (LookCards.gallery st) (world s) ->
  let w := world s in
  let result := LookCards.deleteLook lookId st s in
  alerts_of (log (world (snd result))) = alerts_of (log w)
  /\ objects (world (snd result)) = objects w
  /\ (answers w (count_events is_confirm w) = false ->
      fst result = Returned st
      /\ calls (snd result) = calls s
      /\ looks_table (world (snd result)) = looks_table w)
  /\ (answers w (count_events is_confirm w) = true ->
      calls (snd result) = calls s ++ [DeleteLookById lookId]
      /\ (refuses s (length (calls s)) = true ->
          fst result = Returned st
          /\ looks_table (world (snd result)) = looks_table w
          /\ log (world (snd result))
             = log w ++ [Confirm "Are you sure you want to delete this look?";
                         ConsoleError "Error deleting look:"])
      /\ (refuses s (length (calls s)) = false ->
          exists st' : LookCards.State,
            fst result = Returned st'
            /\ LookCards.uploading st' = LookCards.uploading st
            /\ (forall l, l ∈ LookCards.looks st'
                  <-> l ∈ LookCards.looks st
                      /\ exists o, objects w !! l = Some o /\ Look.id o ≠ lookId)
            /\ LookCards.looks st' `sublist_of` LookCards.looks st
            /\ (forall r, r ∈ looks_table (world (snd result))
                  <-> r ∈ looks_table w /\ Look.id r ≠ lookId)
            /\ (forall (p : nat) (l : loc) (o : Look.t),
                  distinct_rows (LookCards.gallery st) w ->
                  LookCards.looks st !! p = Some l -> objects w !! l = Some o ->
                  Look.id o = lookId ->
                  LookCards.looks st' = delete p (LookCards.looks st)))).
Proof.
  intros Hwf w result.
  destruct (objects_exist _ _ (proj2 Hwf)) as [os Hos].
  pose proof (Forall2_length _ _ _ Hos) as Hlen.
  subst result. rewrite (deleteLook_run lookId st s os Hos). fold w.
  destruct (answers w (count_events is_confirm w)).
  - destruct (refuses s (length (calls s))); site_simpl.
    + repeat apply conj; try reflexivity.
      * rewrite !alerts_of_app. cbn. rewrite !app_nil_r. reflexivity.
      * intros H. discriminate H.
      * intros _. repeat apply conj; try reflexivity.
        -- intros _. repeat apply conj; try reflexivity.
           rewrite <- app_assoc. reflexivity.
        -- intros H. discriminate H.
    + repeat apply conj; try reflexivity.
      * rewrite !alerts_of_app. cbn. rewrite !app_nil_r. reflexivity.
      * intros H. discriminate H.
      * intros _. repeat apply conj; try reflexivity.
        -- intros H. discriminate H.
        -- intros _. eexists. split; [reflexivity |].
           split; [reflexivity |].
           change (LookCards.looks (LookCards.setLooks ?v st)) with v.
           fold (others lookId (LookCards.looks st) os).
           split; [intros l; apply (elem_of_others lookId _ os w l Hos) |].
           split; [apply others_sublist; exact Hlen |].
           split; [intros r; rewrite list_elem_of_filter; tauto |].
           intros p l o Hdistinct Hl Hobj Hid.
           destruct (unique_identity _ _ os p l o Hwf Hdistinct Hos Hl Hobj) as [Ho Huniq].
           apply (others_delete lookId _ os p o Hlen Ho Hid).
           intros q o' Hq E. apply (Huniq q o' Hq). congruence.
  - site_simpl. repeat apply conj; try reflexivity.
    + rewrite !alerts_of_app. cbn. rewrite !app_nil_r. reflexivity.
    + intros _. repeat apply conj; reflexivity.
    + intros H. discriminate H.
Qed.

Lemma deleteLook_outcome_witness :
  exists st' : LookCards.State,
    fst (LookCards.deleteLook 101%nat Studio.cards Studio.site) = Returned st'
    /\ LookCards.looks st' = [10; 12]%nat.
Proof.
  destruct (gallery_facts Samples.galleryWorld eq_refl eq_refl)
    as (Hwf & _ & Hdistinct & _).
  destruct (deleteLook_outcome 101%nat Studio.cards Studio.site Hwf) as (_ & _ & _ & Hyes).
  destruct (Hyes eq_refl) as (_ & _ & Hok).
  destruct (Hok eq_refl) as (st' & Hst & _ & _ & _ & _ & Hdelete).
  exists st'. split; [exact Hst |].
  apply (Hdelete 1%nat 11%nat (Samples.look 101%nat "Resort" 1) Hdistinct);
    reflexivity.
Defined.

(** X18. A reorder after a delete repeats a sequence index.  In a
    well-formed gallery whose looks are different rows, each carrying its
    position as its sequence index: when the look at position p is
    deleted, the looks behind it keep their sequence indices, one more
    than their new positions; [moveUp] at an index i with
    p + 2 <= i <= N - 2 then gives the look that it moves to position
    i - 1 the sequence index i - 1, which the look at position i - 2
    already carries. *)
Theorem reorder_after_delete_repeats_an_index
    (lookId : rowid) (p i : nat) (st : LookCards.State) (s : Site) (l : loc) (o : Look.t) :
  let w := world s in
  well_formed (LookCards.gallery st) w -> in_step (LookCards.gallery st) w ->
  distinct_rows (LookCards.gallery st) w ->
  LookCards.looks st !! p = Some l -> objects w !! l = Some o -> Look.id o = lookId ->
  answers w (count_events is_confirm w) = true ->
  refuses s (length (calls s)) = false ->
  (p + 2 <= i <= length (LookCards.looks st) - 2)%nat ->
  exists (st1 : LookCards.State) (s1 : Site) (g2 : LooksManagement.State) (w2 : World)
         (la lb : loc) (oa ob : Look.t),
    LookCards.deleteLook lookId st s = (Returned st1, s1)
    /\ LookCards.looks st1 = delete p (LookCards.looks st)
    /\ LooksManagement.moveUp i (LookCards.gallery st1) (world s1) = (Returned g2, w2)
    /\ LooksManagement.looks g2 !! (i - 2)%nat = Some la
    /\ LooksManagement.looks g2 !! (i - 1)%nat = Some lb
    /\ la ≠ lb
    /\ objects w2 !! la = Some oa /\ objects w2 !! lb = Some ob
    /\ Look.sequence_order oa = Z.of_nat (i - 1)
    /\ Look.sequence_order ob = Z.of_nat (i - 1).
Proof.
  intros w Hwf Hstep Hdistinct Hl Hobj Hid Hyes Hok Hrange.
  destruct (objects_exist _ _ (proj2 Hwf)) as [os Hos].
  pose proof (Forall2_length _ _ _ Hos) as Hlen.
  destruct (unique_identity _ _ os p l o Hwf Hdistinct Hos Hl Hobj) as [Ho Huniq].
  pose proof (deleteLook_run lookId st s os Hos) as Hrun. cbv zeta in Hrun.
  fold w in Hrun. rewrite Hyes, Hok in Hrun.
  change (fst <$> filter _ (zip (LookCards.looks st) os))
    with (others lookId (LookCards.looks st) os) in Hrun.
  rewrite (others_delete lookId (LookCards.looks st) os p o Hlen Ho Hid) in Hrun
    by (intros q o' Hq E; apply (Huniq q o' Hq); congruence).
  set (ls := LookCards.looks st) in *.
  set (st1 := LookCards.setLooks (delete p ls) st) in *.
  match type of Hrun with _ = (_, ?x) => set (s1 := x) in * end.
  assert (Hobjects : objects (world s1) = objects w) by reflexivity.
  assert (Hlooks1 : LooksManagement.looks (LookCards.gallery st1) = delete p ls)
    by reflexivity.
  assert (Hplt : (p < length ls)%nat) by (eapply lookup_lt_Some; exact Hl).
  assert (Hlen1 : length (delete p ls) = (length ls - 1)%nat).
  { pose proof (length_delete ls p (mk_is_Some _ _ Hl)). lia. }
  assert (Hwf1 : well_formed (LookCards.gallery st1) (world s1)).
  { destruct Hwf as [Hnd Halloc]. split.
    - rewrite Hlooks1. eapply sublist_NoDup; first [apply sublist_delete | exact Hnd].
    - intros x Hx. rewrite Hlooks1 in Hx. rewrite Hobjects. apply Halloc.
      eapply list_elem_of_delete_inv. exact Hx. }
  assert (Hrange1 : (0 < i <= length (LooksManagement.looks (LookCards.gallery st1)) - 1)%nat)
    by (rewrite Hlooks1, Hlen1; lia).
  destruct (moveUp_swapped i (LookCards.gallery st1) (world s1) Hwf1 Hrange1)
    as (a & b & oa & ob & g2 & w2 & Ha & Hb & Hoa & Hob & Hab & Hmove & [Hg2 Ho2] & _).
  rewrite Hlooks1 in Ha, Hb.
  (* the look two positions up *)
  destruct (lookup_lt_is_Some_2 ls (i - 1)) as [la Hla]; [lia |].
  assert (Hla1 : delete p ls !! (i - 2)%nat = Some la).
  { rewrite list_lookup_delete_ge by lia. replace (S (i - 2)) with (i - 1)%nat by lia.
    exact Hla. }
  destruct (Hstep (i - 1)%nat la Hla) as (ola & Hola & Hseq).
  destruct Hwf1 as [Hnd1 _]. rewrite Hlooks1 in Hnd1.
  assert (Hla_a : la ≠ a).
  { intros ->. pose proof (NoDup_lookup _ _ _ _ Hnd1 Hla1 Ha). lia. }
  assert (Hla_b : la ≠ b).
  { intros ->. pose proof (NoDup_lookup _ _ _ _ Hnd1 Hla1 Hb). lia. }
  exists st1, s1, g2, w2, la, a, ola, (Look.set_sequence_order (Z.of_nat (i - 1)) oa).
  split; [exact Hrun |]. split; [reflexivity |]. split; [exact Hmove |].
  rewrite Hg2. cbn [LooksManagement.looks LooksManagement.setLooks]. rewrite Hlooks1.
  split; [rewrite !list_lookup_insert_ne by lia; exact Hla1 |].
  split; [apply list_lookup_insert_eq; rewrite length_insert, Hlen1; lia |].
  split; [exact Hla_a |].
  rewrite Ho2, Hobjects.
  split; [rewrite !lookup_alter_ne by congruence; exact Hola |].
  split.
  - rewrite lookup_alter_eq, lookup_alter_ne by congruence.
    rewrite Hobjects in Hoa. rewrite Hoa. reflexivity.
  - split; [exact Hseq | reflexivity].
Qed.

Section CatalogueFacts.

Lemma catalogue_facts :
  well_formed (LookCards.gallery Studio.catalogue) Studio.catalogueWorld
  /\ in_step (LookCards.gallery Studio.catalogue) Studio.catalogueWorld
  /\ distinct_rows (LookCards.gallery Studio.catalogue) Studio.catalogueWorld.
Proof.
  assert (Hcases : forall l, l ∈ LookCards.looks Studio.catalogue ->
                     l = 20%nat \/ l = 21%nat \/ l = 22%nat \/ l = 23%nat).
  { intros l Hl. cbn in Hl.
    repeat (apply elem_of_cons in Hl as [-> | Hl]; [tauto |]).
    apply elem_of_nil in Hl. contradiction. }
  repeat apply conj.
  - apply (bool_decide_unpack _). vm_compute. exact I.
  - intros l Hl. destruct (Hcases l Hl) as [-> | [-> | [-> | ->]]]; eexists; reflexivity.
  - intros i l Hi.
    destruct i as [| [| [| [| i]]]]; simpl in Hi; try discriminate; injection Hi as <-;
      eexists; (split; [reflexivity |]); reflexivity.
  - intros l l' o o' Hl Hl' Hlo Hlo' E.
    destruct (Hcases l Hl) as [-> | [-> | [-> | ->]]];
      destruct (Hcases l' Hl') as [-> | [-> | [-> | ->]]];
      try reflexivity;
      vm_compute in Hlo, Hlo'; injection Hlo as <-; injection Hlo' as <-;
      discriminate E.
Qed.

End CatalogueFacts.

Lemma reorder_after_delete_repeats_an_index_witness :
  exists (st1 : LookCards.State) (s1 : Site) (g2 : LooksManagement.State) (w2 : World)
         (la lb : loc) (oa ob : Look.t),
    LookCards.deleteLook 200%nat Studio.catalogue Studio.catalogueSite = (Returned st1, s1)
    /\ LooksManagement.moveUp 2 (LookCards.gallery st1) (world s1) = (Returned g2, w2)
    /\ LooksManagement.looks g2 !! 0%nat = Some la
    /\ LooksManagement.looks g2 !! 1%nat = Some lb
    /\ la ≠ lb
    /\ objects w2 !! la = Some oa /\ objects w2 !! lb = Some ob
    /\ Look.sequence_order oa = Look.sequence_order ob.
Proof.
  destruct catalogue_facts as (Hwf & Hstep & Hdistinct).
  destruct (reorder_after_delete_repeats_an_index 200%nat 0 2 Studio.catalogue
              Studio.catalogueSite 20%nat (Samples.look 200%nat "Casual Denim" 0)
              Hwf Hstep Hdistinct eq_refl eq_refl eq_refl eq_refl eq_refl)
    as (st1 & s1 & g2 & w2 & la & lb & oa & ob & Hdel & _ & Hmove & Hla & Hlb & Hne
        & Hoa & Hob & Hsa & Hsb).
  - simpl. lia.
  - exists st1, s1, g2, w2, la, lb, oa, ob.
    repeat apply conj; try assumption. congruence.
Defined.

(** ** uploadImage and updateImageUrl *)

Section Images.
Import LookCards.

Lemma withImage_miss (lookId : rowid) (m : Act string) (l : loc) (o : Look.t) (s : Site) :
  objects (world s) !! l = Some o -> Look.id o ≠ lookId ->
  withImage lookId m l s = (Returned l, s).
Proof.
  intros Hl Hid. unfold withImage. rewrite act_bind_run, lift_run.
  unfold LooksManagement.deref. rewrite Hl. cbn [fst snd]. rewrite with_world_same.
  destruct (decide (Look.id o = lookId)); [contradiction | reflexivity].
Qed.

Lemma withImage_hit (lookId : rowid) (m : Act string) (l : loc) (o : Look.t)
    (s s1 : Site) (url : string) :
  objects (world s) !! l = Some o -> Look.id o = lookId ->
  m s = (Returned url, s1) -> world s1 = world s ->
  withImage lookId m l s
  = (Returned (fresh (dom (objects (world s)))),
     with_world
       (with_objects (<[fresh (dom (objects (world s))) := Backend.with_image_url url o]>
                        (objects (world s))) (world s)) s1).
Proof.
  intros Hl Hid Hm Hw. unfold withImage. rewrite act_bind_run, lift_run.
  unfold LooksManagement.deref. rewrite Hl. cbn [fst snd]. rewrite with_world_same.
  destruct (decide (Look.id o = lookId)); [| contradiction].
  rewrite act_bind_run, Hm, lift_run. unfold LooksManagement.allocate.
  cbn [fst snd]. rewrite Hw. reflexivity.
Qed.

Lemma mapM_withImage_miss (lookId : rowid) (m : Act string) (ls : list loc) (s : Site) :
  (forall l, l ∈ ls -> exists o, objects (world s) !! l = Some o /\ Look.id o ≠ lookId) ->
  mapM (withImage lookId m) ls s = (Returned ls, s).
Proof.
  induction ls as [| l ls IH]; intros Hall; [reflexivity |].
  cbn [mapM]. destruct (Hall l (list_elem_of_here _ _)) as (o & Hl & Hid).
  rewrite act_bind_run, (withImage_miss lookId m l o s Hl Hid).
  rewrite act_bind_run, IH; [reflexivity |].
  intros x Hx. apply Hall. apply list_elem_of_further. exact Hx.
Qed.

Lemma mapM_withImage_at (lookId : rowid) (m : Act string) (ls : list loc) (p : nat)
    (l : loc) (o : Look.t) (s s1 : Site) (url : string) :
  ls !! p = Some l ->
  (forall q x, ls !! q = Some x -> q ≠ p ->
     exists o', objects (world s) !! x = Some o' /\ Look.id o' ≠ lookId) ->
  objects (world s) !! l = Some o -> Look.id o = lookId ->
  m s = (Returned url, s1) -> world s1 = world s ->
  mapM (withImage lookId m) ls s
  = (Returned (<[p := fresh (dom (objects (world s)))]> ls),
     with_world
       (with_objects (<[fresh (dom (objects (world s))) := Backend.with_image_url url o]>
                        (objects (world s))) (world s)) s1).
Proof.
  revert p. induction ls as [| x ls IH]; intros p Hp Hothers Hl Hid Hm Hw;
    [discriminate Hp |].
  cbn [mapM]. destruct p as [| p].
  - injection Hp as ->.
    rewrite act_bind_run, (withImage_hit lookId m l o s s1 url Hl Hid Hm Hw).
    rewrite act_bind_run, mapM_withImage_miss; [reflexivity |].
    intros y Hy. apply list_elem_of_lookup in Hy as [q Hq].
    destruct (Hothers (S q) y Hq) as (o' & Ho' & Hid'); [lia |].
    exists o'. split; [| exact Hid']. site_simpl.
    rewrite lookup_insert_ne; [exact Ho' |].
    intros E. rewrite <- E, fresh_object in Ho'. discriminate Ho'.
  - destruct (Hothers 0%nat x eq_refl) as (o' & Ho' & Hid'); [lia |].
    rewrite act_bind_run, (withImage_miss lookId m x o' s Ho' Hid').
    rewrite act_bind_run, (IH p Hp); try assumption.
    + reflexivity.
    + intros q y Hq Hne. apply (Hothers (S q) y Hq). lia.
Qed.

Lemma others_miss (st : LooksManagement.State) (w : World) (p : nat) (l : loc) (o : Look.t) :
  well_formed st w -> distinct_rows st w ->
  LooksManagement.looks st !! p = Some l -> objects w !! l = Some o ->
  forall q x, LooksManagement.looks st !! q = Some x -> q ≠ p ->
    exists o', objects w !! x = Some o' /\ Look.id o' ≠ Look.id o.
Proof.
  intros [Hnd Halloc] Hdistinct Hl Hobj q x Hq Hne.
  assert (Hx : x ∈ LooksManagement.looks st) by (eapply list_elem_of_lookup_2; exact Hq).
  destruct (Halloc x Hx) as [o' Ho']. exists o'. split; [exact Ho' |].
  intros E. apply Hne.
  assert (x = l).
  { apply (Hdistinct x l o' o); try assumption. eapply list_elem_of_lookup_2. exact Hl. }
  subst x. exact (NoDup_lookup _ _ _ _ Hnd Hq Hl).
Qed.

End Images.

(** X19. [uploadImage] makes a URL for the update and another one for the
    page.  In a well-formed gallery whose looks are different rows, for
    the look at position p: when the backend rejects the update, the user
    gets the alert "Failed to upload image" and the page, the look objects
    and the table are what they were; when the backend accepts it, the
    rows of the look store the first URL, while position p of the page
    refers to a new object, a copy of the look with the second URL, and
    the object that was there is not written to.  As every call of
    [URL.createObjectURL] makes a URL of its own, no stored row of the
    look carries the URL that the page shows.  In both cases [uploading]
    is null at the end. *)
Theorem uploadImage_shows_another_url
    (lookId : rowid) (file : File) (st : LookCards.State) (s : Site)
    (p : nat) (l : loc) (o : Look.t) :
  let w := world s in
  let url1 := object_urls s (length (blobs s)) in
  let url2 := object_urls s (S (length (blobs s))) in
  well_formed (LookCards.gallery st) w -> distinct_rows (LookCards.gallery st) w ->
  LookCards.looks st !! p = Some l -> objects w !! l = Some o -> Look.id o = lookId ->
  (refuses s (length (calls s)) = true ->
   exists s' : Site,
     LookCards.uploadImage lookId file st s
     = (Returned (LookCards.setUploading None st), s')
     /\ alerts_of (log (world s')) = alerts_of (log w) ++ ["Failed to upload image"]
     /\ looks_table (world s') = looks_table w
     /\ objects (world s') = objects w
     /\ calls s' = calls s ++ [UpdateLookImageUrl lookId url1])
  /\
  (refuses s (length (calls s)) = false ->
   exists (s' : Site) (l' : loc),
     LookCards.uploadImage lookId file st s
     = (Returned (LookCards.setUploading None
                    (LookCards.setLooks (<[p := l']> (LookCards.looks st)) st)), s')
     /\ objects w !! l' = None
     /\ objects (world s') = <[l' := Backend.with_image_url url2 o]> (objects w)
     /\ looks_table (world s') = Backend.set_image_where lookId url1 (looks_table w)
     /\ calls s' = calls s ++ [UpdateLookImageUrl lookId url1]
     /\ blobs s' = blobs s ++ [(url1, file); (url2, file)]
     /\ alerts_of (log (world s')) = alerts_of (log w)
     /\ (url1 ≠ url2 ->
         forall r, r ∈ looks_table (world s') -> Look.id r = lookId ->
           Look.image_url r ≠ Some url2)).
Proof.
  intros w url1 url2 Hwf Hdistinct Hl Hobj Hid. split; intros Hk.
  - eexists. split.
    + unfold LookCards.uploadImage. rewrite act_bind_run. unfold createObjectURL at 1.
      cbv beta zeta. rewrite act_bind_run. unfold Backend.update_look_image_url.
      rewrite act_bind_run. unfold call_backend at 1. site_simpl. rewrite Hk. cbn [negb].
      rewrite act_ret_run. act. site_simpl. reflexivity.
    + site_simpl. repeat apply conj; try reflexivity.
      rewrite !alerts_of_app. cbn. rewrite app_nil_r. reflexivity.
  - pose (sA := with_blobs (blobs s ++ [(url1, file)]) s).
    pose (sB := with_world (with_looks_table
                              (Backend.set_image_where lookId url1 (looks_table w)) w)
                  (with_calls (calls s ++ [UpdateLookImageUrl lookId url1]) sA)).
    pose (sC := with_blobs (blobs sB ++ [(url2, file)]) sB).
    assert (Hm : createObjectURL file sB = (Returned url2, sC)).
    { unfold createObjectURL, sC. do 2 f_equal.
      - unfold sB, sA. site_simpl. rewrite length_app. cbn. unfold url2. f_equal. lia.
      - unfold sB, sA. site_simpl. rewrite length_app. cbn. do 4 f_equal. unfold url2.
        f_equal. lia. }
    assert (Hmap := mapM_withImage_at lookId (createObjectURL file) (LookCards.looks st)
                      p l o sB sC url2 Hl).
    assert (Hothers : forall q x, LookCards.looks st !! q = Some x -> q ≠ p ->
              exists o', objects (world sB) !! x = Some o' /\ Look.id o' ≠ lookId).
    { intros q x Hq Hne. rewrite <- Hid.
      exact (others_miss _ _ p l o Hwf Hdistinct Hl Hobj q x Hq Hne). }
    specialize (Hmap Hothers Hobj Hid Hm eq_refl).
    do 2 eexists. split.
    + unfold LookCards.uploadImage. rewrite act_bind_run. unfold createObjectURL at 1.
      cbv beta zeta. fold url1. fold sA. rewrite act_bind_run.
      unfold Backend.update_look_image_url.
      rewrite act_bind_run. unfold call_backend at 1.
      change (refuses sA (length (calls sA))) with (refuses s (length (calls s))).
      rewrite Hk. cbn [negb]. rewrite act_bind_run, lift_run. unfold update_world.
      cbn [fst snd]. rewrite act_ret_run.
      change (with_world _ (with_calls _ sA)) with sB.
      rewrite act_bind_run.
      change (LookCards.looks (LookCards.setUploading (Some lookId) st))
        with (LookCards.looks st).
      rewrite act_bind_run, Hmap. rewrite act_bind_run. unfold console_log at 1.
      rewrite act_ret_run, act_ret_run. reflexivity.
    + site_simpl. change (objects (world sB)) with (objects w).
      split; [apply fresh_object |]. split; [reflexivity |]. split; [reflexivity |].
      split; [reflexivity |].
      split; [unfold sC, sB, sA; site_simpl; rewrite <- app_assoc; reflexivity |].
      split; [reflexivity |].
      intros Hne r Hr Hrid Hshown.
      unfold Backend.set_image_where in Hr. apply list_elem_of_fmap in Hr as (r0 & -> & _).
      destruct (decide (Look.id r0 = lookId)) as [_ | Hd].
      * cbn in Hshown. congruence.
      * apply Hd. exact Hrid.
Qed.

Lemma uploadImage_shows_another_url_witness :
  exists (s' : Site) (l' : loc),
    LookCards.uploadImage 101%nat "resort.jpg" Studio.cards Studio.site
    = (Returned (LookCards.setUploading None
                   (LookCards.setLooks [10; l'; 12]%nat Studio.cards)), s')
    /\ objects (world s')
       = <[l' := Backend.with_image_url "blob:1" (Samples.look 101%nat "Resort" 1)]>
           (objects Samples.galleryWorld)
    /\ forall r, r ∈ looks_table (world s') -> Look.id r = 101%nat ->
         Look.image_url r ≠ Some "blob:1".
Proof.
  destruct (gallery_facts Samples.galleryWorld eq_refl eq_refl)
    as (Hwf & _ & Hdistinct & _).
  destruct (uploadImage_shows_another_url 101%nat "resort.jpg" Studio.cards Studio.site
              1 11%nat (Samples.look 101%nat "Resort" 1) Hwf Hdistinct eq_refl eq_refl eq_refl)
    as (_ & Hok).
  destruct (Hok eq_refl) as (s' & l' & Hrun & _ & Hobjects & _ & _ & _ & _ & Hurl).
  exists s', l'. split; [exact Hrun |]. split; [exact Hobjects |].
  apply Hurl. vm_compute. discriminate.
Defined.

(** X20. [updateImageUrl] stores and shows the same URL.  In a
    well-formed gallery whose looks are different rows, for the look at
    position p: when the backend rejects the update, the user gets the
    alert "Failed to save image URL" and the page, the look objects and
    the table are what they were; when the backend accepts it, every
    stored row of the look carries the URL, and position p of the page
    refers to a new object, a copy of the look with the URL, while no
    other object is written to and no alert is raised. *)
Theorem updateImageUrl_outcome
    (lookId : rowid) (imageUrl : string) (st : LookCards.State) (s : Site)
    (p : nat) (l : loc) (o : Look.t) :
  let w := world s in
  well_formed (LookCards.gallery st) w -> distinct_rows (LookCards.gallery st) w ->
  LookCards.looks st !! p = Some l -> objects w !! l = Some o -> Look.id o = lookId ->
  (refuses s (length (calls s)) = true ->
   exists s' : Site,
     LookCards.updateImageUrl lookId imageUrl st s = (Returned st, s')
     /\ alerts_of (log (world s')) = alerts_of (log w) ++ ["Failed to save image URL"]
     /\ looks_table (world s') = looks_table w
     /\ objects (world s') = objects w
     /\ calls s' = calls s ++ [UpdateLookImageUrl lookId imageUrl])
  /\
  (refuses s (length (calls s)) = false ->
   exists (s' : Site) (l' : loc),
     LookCards.updateImageUrl lookId imageUrl st s
     = (Returned (LookCards.setLooks (<[p := l']> (LookCards.looks st)) st), s')
     /\ objects w !! l' = None
     /\ objects (world s') = <[l' := Backend.with_image_url imageUrl o]> (objects w)
     /\ looks_table (world s') = Backend.set_image_where lookId imageUrl (looks_table w)
     /\ calls s' = calls s ++ [UpdateLookImageUrl lookId imageUrl]
     /\ alerts_of (log (world s')) = alerts_of (log w)
     /\ (forall r, r ∈ looks_table (world s') -> Look.id r = lookId ->
           Look.image_url r = Some imageUrl)).
Proof.
  intros w Hwf Hdistinct Hl Hobj Hid. split; intros Hk.
  - eexists. split.
    + unfold LookCards.updateImageUrl. rewrite act_bind_run. unfold console_log at 1.
      rewrite act_bind_run. unfold Backend.update_look_image_url.
      rewrite act_bind_run. unfold call_backend at 1. site_simpl. rewrite Hk. cbn [negb].
      rewrite act_ret_run. act. site_simpl. reflexivity.
    + site_simpl. repeat apply conj; try reflexivity.
      rewrite !alerts_of_app. cbn. rewrite app_nil_r. reflexivity.
  - pose (sA := with_console (console s ++ ["🔗 Updating image URL for look:"]) s).
    pose (sB := with_world (with_looks_table
                              (Backend.set_image_where lookId imageUrl (looks_table w)) w)
                  (with_calls (calls s ++ [UpdateLookImageUrl lookId imageUrl]) sA)).
    assert (Hmap := mapM_withImage_at lookId (mret imageUrl) (LookCards.looks st)
                      p l o sB sB imageUrl Hl).
    assert (Hothers : forall q x, LookCards.looks st !! q = Some x -> q ≠ p ->
              exists o', objects (world sB) !! x = Some o' /\ Look.id o' ≠ lookId).
    { intros q x Hq Hne. rewrite <- Hid.
      exact (others_miss _ _ p l o Hwf Hdistinct Hl Hobj q x Hq Hne). }
    specialize (Hmap Hothers Hobj Hid eq_refl eq_refl).
    do 2 eexists. split.
    + unfold LookCards.updateImageUrl. rewrite act_bind_run. unfold console_log at 1.
      fold sA. rewrite act_bind_run.
      unfold Backend.update_look_image_url.
      rewrite act_bind_run. unfold call_backend at 1.
      change (refuses sA (length (calls sA))) with (refuses s (length (calls s))).
      rewrite Hk. cbn [negb]. rewrite act_bind_run, lift_run. unfold update_world.
      cbn [fst snd]. rewrite act_ret_run.
      change (with_world _ (with_calls _ sA)) with sB.
      rewrite act_bind_run, Hmap. rewrite act_bind_run. unfold console_log at 1.
      rewrite act_ret_run. reflexivity.
    + site_simpl. change (objects (world sB)) with (objects w).
      split; [apply fresh_object |]. split; [reflexivity |]. split; [reflexivity |].
      split; [reflexivity |]. split; [reflexivity |].
      intros r Hr Hrid.
      unfold Backend.set_image_where in Hr. apply list_elem_of_fmap in Hr as (r0 & -> & _).
      destruct (decide (Look.id r0 = lookId)) as [_ | Hd]; [reflexivity |].
      exfalso. apply Hd. exact Hrid.
Qed.

Lemma updateImageUrl_outcome_witness :
  exists s' : Site,
    LookCards.updateImageUrl 101%nat "https://example.org/resort.jpg" Studio.cards
      Studio.site_refusing = (Returned Studio.cards, s')
    /\ alerts_of (log (world s')) = ["Failed to save image URL"].
Proof.
  destruct (gallery_facts Samples.galleryWorld eq_refl eq_refl)
    as (Hwf & _ & Hdistinct & _).
  destruct (updateImageUrl_outcome 101%nat "https://example.org/resort.jpg" Studio.cards
              Studio.site_refusing 1 11%nat (Samples.look 101%nat "Resort" 1)
              Hwf Hdistinct eq_refl eq_refl eq_refl) as (Hrejected & _).
  destruct (Hrejected eq_refl) as (s' & Hrun & Halerts & _).
  exists s'. split; [exact Hrun | exact Halerts].
Defined.

(** ** The buttons of a look card *)

Section PastTheEnd.
Import LooksManagement.

Lemma moveUp_past_the_end_throws (index : nat) (st : State) (w : World) :
  (length (looks st) <= index)%nat -> index ≠ 0%nat ->
  exists (e : string) (w' : World),
    moveUp index st w = (Threw e, w')
    /\ log w' = log w /\ looks_table w' = looks_table w.
Proof.
  intros Hge Hne. unfold moveUp. apply Nat.eqb_neq in Hne. rewrite Hne.
  rewrite (proj2 (lookup_ge_None (looks st) index) Hge).
  destruct (looks st !! (index - 1)%nat) as [b |]; unfold assign_sequence_order; run;
    do 2 eexists; (split; [reflexivity |]); split; reflexivity.
Qed.

Lemma moveDown_past_the_end_throws (index : nat) (st : State) (w : World) :
  (length (looks st) <= index)%nat ->
  exists e : string, moveDown index st w = (Threw e, w).
Proof.
  intros Hge. unfold moveDown.
  assert (Hguard : (Z.of_nat index =? Z.of_nat (length (looks st)) - 1) = false)
    by (apply Z.eqb_neq; lia).
  rewrite Hguard.
  rewrite (proj2 (lookup_ge_None (looks st) (index + 1)) ltac:(lia)).
  unfold assign_sequence_order. run. eexists. reflexivity.
Qed.

End PastTheEnd.

(** X21. No button of a look card can make a reorder throw.  For the card
    at an index of a well-formed gallery, the handler of a reorder button
    that is not disabled returns a new state, and the handler of a
    disabled one would return at once.  Only at an index past the end of
    the list, which no card has, both handlers throw a TypeError, before
    any request is sent. *)
Theorem reorder_buttons_never_throw (index : nat) (st : LookCards.State) (w : World) :
  well_formed (LookCards.gallery st) w ->
  ((index < length (LookCards.looks st))%nat ->
   (exists (g : LooksManagement.State) (w' : World),
      LooksManagement.moveUp index (LookCards.gallery st) w = (Returned g, w')
      /\ (LookCards.upDisabled index = true -> g = LookCards.gallery st /\ w' = w))
   /\
   (exists (g : LooksManagement.State) (w' : World),
      LooksManagement.moveDown index (LookCards.gallery st) w = (Returned g, w')
      /\ (LookCards.downDisabled st index = true -> g = LookCards.gallery st /\ w' = w)))
  /\
  ((length (LookCards.looks st) <= index)%nat -> index ≠ 0%nat ->
   (exists (e : string) (w' : World),
      LooksManagement.moveUp index (LookCards.gallery st) w = (Threw e, w')
      /\ log w' = log w)
   /\
   (exists e : string,
      LooksManagement.moveDown index (LookCards.gallery st) w = (Threw e, w))).
Proof.
  intros Hwf. split.
  - intros Hlt. split.
    + destruct (decide (index = 0%nat)) as [-> | Hne].
      * exists (LookCards.gallery st), w. split; [apply moveUp_first | tauto].
      * destruct (moveUp_swapped index (LookCards.gallery st) w Hwf)
          as (_ & _ & _ & _ & g & w' & _ & _ & _ & _ & _ & Hrun & _);
          [unfold LookCards.looks in Hlt; lia |].
        exists g, w'. split; [exact Hrun |].
        unfold LookCards.upDisabled. intros E. apply Nat.eqb_eq in E. contradiction.
    + destruct (decide (index = (length (LookCards.looks st) - 1)%nat)) as [E | Hne].
      * exists (LookCards.gallery st), w. split; [| tauto].
        apply moveDown_last. unfold LookCards.looks in *. lia.
      * destruct (moveDown_swapped index (LookCards.gallery st) w Hwf)
          as (_ & _ & _ & _ & g & w' & _ & _ & _ & _ & _ & Hrun & _);
          [unfold LookCards.looks in *; lia |].
        exists g, w'. split; [exact Hrun |].
        unfold LookCards.downDisabled. intros E. apply Z.eqb_eq in E. lia.
  - intros Hge Hne. split.
    + destruct (moveUp_past_the_end_throws index (LookCards.gallery st) w Hge Hne)
        as (e & w' & Hrun & Hlog & _).
      exists e, w'. split; assumption.
    + apply moveDown_past_the_end_throws. exact Hge.
Qed.

Lemma reorder_buttons_never_throw_witness :
  exists (g : LooksManagement.State) (w' : World),
    LooksManagement.moveDown 1 Samples.gallery Samples.galleryWorld = (Returned g, w').
Proof.
  destruct (proj1 (reorder_buttons_never_throw 1 Studio.cards Samples.galleryWorld
                     (well_formedb_sound Samples.gallery Samples.galleryWorld eq_refl)))
    as (_ & g & w' & Hrun & _).
  - simpl. lia.
  - exists g, w'. exact Hrun.
Defined.

(** ** The order of the page *)

Section Ascending.

Lemma ordered_sublist {A : Type} (R : A -> A -> Prop) (l1 l2 : list A) :
  l1 `sublist_of` l2 ->
  (forall i j x y, (i < j)%nat -> l2 !! i = Some x -> l2 !! j = Some y -> R x y) ->
  forall i j x y, (i < j)%nat -> l1 !! i = Some x -> l1 !! j = Some y -> R x y.
Proof.
  induction 1 as [| a l1 l2 Hsub IH | a l1 l2 Hsub IH]; intros Hord i j x y Hij Hi Hj.
  - discriminate Hi.
  - destruct j as [| j]; [lia |]. destruct i as [| i].
    + injection Hi as ->. cbn in Hj.
      assert (Hy : y ∈ l2).
      { eapply elem_of_sublist; [| exact Hsub]. eapply list_elem_of_lookup_2. exact Hj. }
      apply list_elem_of_lookup in Hy as [k Hk].
      apply (Hord 0%nat (S k)); [lia | reflexivity | exact Hk].
    + cbn in Hi, Hj. apply (IH (fun i j x y Hij Hi Hj =>
                                  Hord (S i) (S j) x y ltac:(lia) Hi Hj) i j); [lia | assumption..].
  - apply (IH (fun i j x y Hij Hi Hj => Hord (S i) (S j) x y ltac:(lia) Hi Hj) i j);
      assumption.
Qed.

Lemma nextOrder_above (orders : list Z) (y : Z) :
  y ∈ orders -> y < nextOrder_of orders.
Proof.
  destruct orders as [| x rest]; intros Hy; [apply elem_of_nil in Hy; contradiction |].
  cbn. destruct (Math_max_spec x rest) as [_ Hub]. specialize (Hub y Hy). lia.
Qed.

End Ascending.

(** X22. The handlers that add and remove looks keep the page in the order
    of the sequence indices.  In a well-formed gallery that is ascending,
    a look further down carrying a greater sequence index, the gallery is
    ascending after an accepted [createLook], when the indices are below
    2^53 in magnitude, where the next index is exact in a double, and
    after a confirmed and accepted [deleteLook]: a query sorted by
    sequence index lists the looks as the page shows them. *)
Theorem create_and_delete_keep_the_order (st : LookCards.State) (s : Site) :
  let w := world s in
  well_formed (LookCards.gallery st) w -> ascending (LookCards.gallery st) w ->
  (Js.trim (LooksManagement.newLookName (LookCards.gallery st)) ≠ "" ->
   rejects w (count_events is_request w) = false ->
   (forall (l : loc) (o : Look.t),
      l ∈ LookCards.looks st -> objects w !! l = Some o ->
      Z.abs (Look.sequence_order o) < 2 ^ 53) ->
   exists (g : LooksManagement.State) (w' : World),
     LooksManagement.createLook (LookCards.gallery st) w = (Returned g, w')
     /\ ascending g w')
  /\
  (forall lookId : rowid,
     answers w (count_events is_confirm w) = true ->
     refuses s (length (calls s)) = false ->
     exists (st' : LookCards.State) (s' : Site),
       LookCards.deleteLook lookId st s = (Returned st', s')
       /\ ascending (LookCards.gallery st') (world s')).
Proof.
  intros w Hwf Hasc.
  destruct (objects_exist _ _ (proj2 Hwf)) as [os Hos].
  pose proof (Forall2_length _ _ _ Hos) as Hlen. split.
  - intros Hname Hk _.
    pose proof (createLook_run (LookCards.gallery st) w os Hname Hos) as Hrun.
    cbv zeta in Hrun. rewrite Hk in Hrun.
    do 2 eexists. split; [exact Hrun |].
    set (l' := fresh (dom (objects w))).
    assert (Hfresh : forall x o, objects w !! x = Some o -> x ≠ l').
    { intros x o Hx ->. unfold l' in Hx. rewrite fresh_object in Hx. discriminate Hx. }
    intros i j li lj oi oj Hij Hi Hj Hoi Hoj.
    cbn [LooksManagement.looks LooksManagement.setLooks LooksManagement.setNewLookName] in Hi, Hj.
    revert Hoi Hoj. world_simpl. intros Hoi Hoj.
    pose proof (lookup_lt_Some _ _ _ Hj) as Hjlt. rewrite length_app in Hjlt. cbn in Hjlt.
    rewrite lookup_app_l in Hi by lia.
    destruct (proj2 Hwf li) as [oi0 Hoi0].
    { eapply list_elem_of_lookup_2. exact Hi. }
    rewrite lookup_insert_ne in Hoi by (apply not_eq_sym; eapply Hfresh; exact Hoi0).
    destruct (decide (j < length (LooksManagement.looks (LookCards.gallery st)))%nat)
      as [Hlt | Hge].
    + rewrite lookup_app_l in Hj by exact Hlt.
      destruct (proj2 Hwf lj) as [oj0 Hoj0].
      { eapply list_elem_of_lookup_2. exact Hj. }
      rewrite lookup_insert_ne in Hoj by (apply not_eq_sym; eapply Hfresh; exact Hoj0).
      exact (Hasc i j li lj oi oj Hij Hi Hj Hoi Hoj).
    + rewrite lookup_app_r in Hj by lia.
      destruct (j - length (LooksManagement.looks (LookCards.gallery st)))%nat as [| n];
        [| destruct n; discriminate Hj].
      injection Hj as <-. rewrite lookup_insert_eq in Hoj. injection Hoj as <-.
      cbn [Look.sequence_order Look.of_draft lookRow Look.d_sequence_order].
      apply nextOrder_above. apply list_elem_of_fmap. exists oi. split; [reflexivity |].
      destruct (Forall2_lookup_l _ _ _ _ _ Hos Hi) as (o' & Ho' & Hobj).
      rewrite Hoi in Hobj. injection Hobj as <-.
      eapply list_elem_of_lookup_2. exact Ho'.
  - intros lookId Hyes Hok.
    pose proof (deleteLook_run lookId st s os Hos) as Hrun. cbv zeta in Hrun.
    fold w in Hrun. rewrite Hyes, Hok in Hrun.
    do 2 eexists. split; [exact Hrun |].
    intros i j li lj oi oj Hij Hi Hj Hoi Hoj.
    revert Hoi Hoj. site_simpl. intros Hoi Hoj.
    change (LooksManagement.looks (LookCards.gallery (LookCards.setLooks ?v st)))
      with v in Hi, Hj.
    change (fst <$> filter _ (zip (LookCards.looks st) os))
      with (others lookId (LookCards.looks st) os) in Hi, Hj.
    revert oi oj Hoi Hoj.
    apply (ordered_sublist
             (fun li lj => forall oi oj, objects w !! li = Some oi ->
                             objects w !! lj = Some oj ->
                             Look.sequence_order oi < Look.sequence_order oj)
             (others lookId (LookCards.looks st) os) (LookCards.looks st)
             (others_sublist lookId _ os Hlen)) with (i := i) (j := j);
      try assumption.
    intros i' j' x y Hij' Hx Hy oi oj Hoi Hoj.
    exact (Hasc i' j' x y oi oj Hij' Hx Hy Hoi Hoj).
Qed.

Lemma in_step_ascending (st : LooksManagement.State) (w : World) :
  in_step st w -> ascending st w.
Proof.
  intros Hstep i j li lj oi oj Hij Hi Hj Hoi Hoj.
  destruct (Hstep i li Hi) as (oi' & Hoi' & Hsi). rewrite Hoi in Hoi'. injection Hoi' as <-.
  destruct (Hstep j lj Hj) as (oj' & Hoj' & Hsj). rewrite Hoj in Hoj'. injection Hoj' as <-.
  lia.
Qed.

Lemma create_and_delete_keep_the_order_witness :
  (exists (g : LooksManagement.State) (w' : World),
     LooksManagement.createLook Samples.gallery Samples.galleryWorld = (Returned g, w')
     /\ ascending g w')
  /\ exists (st' : LookCards.State) (s' : Site),
       LookCards.deleteLook 101%nat Studio.cards Studio.site = (Returned st', s')
       /\ ascending (LookCards.gallery st') (world s').
Proof.
  destruct (gallery_facts Samples.galleryWorld eq_refl eq_refl) as (Hwf & Hstep & _).
  destruct (create_and_delete_keep_the_order Studio.cards Studio.site Hwf
              (in_step_ascending _ _ Hstep)) as [Hcreate Hdelete].
  split.
  - apply Hcreate.
    + vm_compute. congruence.
    + reflexivity.
    + intros l o Hl Ho. apply list_elem_of_lookup in Hl as [i Hi].
      destruct (Hstep i l Hi) as (o' & Ho' & Horder).
      change (world Studio.site) with Samples.galleryWorld in Ho.
      rewrite Ho in Ho'. injection Ho' as <-. rewrite Horder.
      apply lookup_lt_Some in Hi. cbn in Hi.
      apply Z.abs_lt. split; [lia |].
      apply Z.lt_trans with 3; [lia | reflexivity].
  - apply (Hdelete 101%nat); reflexivity.
Defined.

(** ** loadLooks *)

#[local] Instance by_sequence_order_transitive : Transitive Backend.by_sequence_order.
Proof. unfold Backend.by_sequence_order. intros a b c. lia. Qed.

#[local] Instance by_sequence_order_total : Total Backend.by_sequence_order.
Proof. unfold Backend.by_sequence_order. intros a b. lia. Qed.

Section LoadLooks.
Import LookCards.

(** The rows of a response become objects of their own, in order, and
    nothing else of the world changes. *)
Lemma allocate_all (data : list Look.t) (w : World) :
  exists (ls : list loc) (w' : World),
    mapM LooksManagement.allocate data w = (Returned ls, w')
    /\ Forall2 (fun l o => objects w' !! l = Some o) ls data
    /\ NoDup ls
    /\ (forall l, l ∈ ls -> objects w !! l = None)
    /\ (forall x, is_Some (objects w !! x) -> objects w' !! x = objects w !! x)
    /\ log w' = log w /\ looks_table w' = looks_table w.
Proof.
  revert w. induction data as [| o data IH]; intros w.
  - exists [], w. repeat apply conj; try reflexivity; try constructor.
    intros l Hl. apply elem_of_nil in Hl. contradiction.
  - set (l := fresh (dom (objects w))).
    set (w1 := with_objects (<[l := o]> (objects w)) w).
    destruct (IH w1) as (ls & w' & Hrun & Hall & Hnd & Hnew & Hold & Hlog & Htab).
    assert (Hl1 : objects w1 !! l = Some o) by apply lookup_insert_eq.
    exists (l :: ls), w'. repeat apply conj.
    + cbn [mapM]. rewrite bind_run. unfold LooksManagement.allocate at 1.
      fold l. fold w1. rewrite bind_run, Hrun. reflexivity.
    + constructor; [| exact Hall]. rewrite Hold by (rewrite Hl1; eauto). exact Hl1.
    + apply NoDup_cons. split; [| exact Hnd].
      intros Hin. specialize (Hnew l Hin). rewrite Hl1 in Hnew. discriminate Hnew.
    + intros x Hx. apply elem_of_cons in Hx as [-> | Hx]; [apply fresh_object |].
      specialize (Hnew x Hx). unfold w1 in Hnew. cbn in Hnew.
      apply lookup_insert_None in Hnew. tauto.
    + intros x Hx. rewrite Hold.
      * unfold w1. cbn. apply lookup_insert_ne. intros <-.
        unfold l in Hx. rewrite fresh_object in Hx. destruct Hx as [? Hx]. discriminate Hx.
      * unfold w1. cbn. destruct (decide (l = x)) as [-> | Hne].
        -- rewrite lookup_insert_eq. eauto.
        -- rewrite lookup_insert_ne by exact Hne. exact Hx.
    + rewrite Hlog. reflexivity.
    + rewrite Htab. reflexivity.
Qed.

Lemma ascending_sorted (st : LooksManagement.State) (w : World) (os : list Look.t) :
  ascending st w ->
  Forall2 (fun l o => objects w !! l = Some o) (LooksManagement.looks st) os ->
  StronglySorted Backend.by_sequence_order os
  /\ forall x y, x ∈ os -> y ∈ os -> Look.sequence_order x = Look.sequence_order y -> x = y.
Proof.
  intros Hasc Hos.
  assert (Hlt : forall i j x y, (i < j)%nat -> os !! i = Some x -> os !! j = Some y ->
                  Look.sequence_order x < Look.sequence_order y).
  { intros i j x y Hij Hx Hy.
    destruct (Forall2_lookup_r _ _ _ _ _ Hos Hx) as (lx & Hlx & Hox).
    destruct (Forall2_lookup_r _ _ _ _ _ Hos Hy) as (ly & Hly & Hoy).
    exact (Hasc i j lx ly x y Hij Hlx Hly Hox Hoy). }
  clear Hos Hasc. split.
  - induction os as [| o os IH]; [constructor |].
    constructor.
    + apply IH. intros i j x y Hij Hx Hy. apply (Hlt (S i) (S j)); [lia | assumption..].
    + apply Forall_forall. intros y Hy. apply list_elem_of_lookup in Hy as [j Hj].
      unfold Backend.by_sequence_order.
      specialize (Hlt 0%nat (S j) o y ltac:(lia) eq_refl Hj). lia.
  - intros x y Hx Hy E.
    apply list_elem_of_lookup in Hx as [i Hi]. apply list_elem_of_lookup in Hy as [j Hj].
    destruct (Nat.lt_trichotomy i j) as [Hij | [-> | Hij]].
    + specialize (Hlt i j x y Hij Hi Hj). lia.
    + congruence.
    + specialize (Hlt j i y x Hij Hj Hi). lia.
Qed.

End LoadLooks.

(** X23. [loadLooks] sends one query and ends with [loading] false,
    whether the backend answers or not.  When the backend rejects the
    query, the list of the page is what it was and the failure goes to the
    console.  When it answers, the page lists new objects that hold
    exactly the stored rows of the production, by sequence index from low
    to high.  A reload changes nothing that the user sees when the page
    was in order: if the looks shown were exactly the stored rows of the
    production and their sequence indices grew strictly along the page,
    the reloaded page shows the same rows in the same order. *)
Theorem loadLooks_outcome (st : LookCards.State) (s : Site) :
  let w := world s in
  let pid := LooksManagement.params_id (LookCards.gallery st) in
  let stored := filter (fun r => Look.production_id r = pid) (looks_table w) in
  (refuses s (length (calls s)) = true ->
   exists s' : Site,
     LookCards.loadLooks st s = (Returned (LookCards.setLoading false st), s')
     /\ calls s' = calls s ++ [SelectLooks pid]
     /\ log (world s') = log w ++ [ConsoleError "Error loading looks:"]
     /\ objects (world s') = objects w)
  /\
  (refuses s (length (calls s)) = false ->
   exists (ls : list loc) (rows : list Look.t) (s' : Site),
     LookCards.loadLooks st s
     = (Returned (LookCards.setLoading false (LookCards.setLooks ls st)), s')
     /\ calls s' = calls s ++ [SelectLooks pid]
     /\ Forall2 (fun l o => objects (world s') !! l = Some o) ls rows
     /\ NoDup ls
     /\ rows ≡ₚ stored
     /\ (forall i j x y, (i <= j)%nat -> rows !! i = Some x -> rows !! j = Some y ->
           Look.sequence_order x <= Look.sequence_order y)
     /\ looks_table (world s') = looks_table w
     /\ alerts_of (log (world s')) = alerts_of (log w)
     /\ (forall os : list Look.t,
           Forall2 (fun l o => objects w !! l = Some o) (LookCards.looks st) os ->
           os ≡ₚ stored -> ascending (LookCards.gallery st) w ->
           rows = os)).
Proof.
  intros w pid stored. split; intros Hk.
  - eexists. split.
    + unfold LookCards.loadLooks. rewrite act_bind_run. unfold Backend.select_looks.
      rewrite act_bind_run. unfold call_backend at 1. rewrite Hk. cbn [negb].
      rewrite act_ret_run. act. site_simpl. reflexivity.
    + site_simpl. repeat apply conj; reflexivity.
  - set (rows := merge_sort Backend.by_sequence_order stored).
    set (sA := with_calls (calls s ++ [SelectLooks pid]) s).
    set (sB := with_console (console sA ++ ["✅ Loaded looks:"]) sA).
    destruct (allocate_all rows w) as (ls & w' & Hrun & Hall & Hnd & _ & _ & Hlog & Htab).
    exists ls, rows, (with_world w' sB). split.
    + unfold LookCards.loadLooks. rewrite act_bind_run. unfold Backend.select_looks.
      rewrite act_bind_run. unfold call_backend at 1. rewrite Hk. cbn [negb].
      fold pid. fold sA. rewrite act_bind_run, lift_run. unfold read_world.
      cbn [fst snd]. rewrite with_world_same, act_ret_run.
      change (looks_table (world sA)) with (looks_table w). fold stored. fold rows.
      rewrite act_bind_run. unfold console_log at 1.
      rewrite act_bind_run. cbv beta. fold sB.
      rewrite act_bind_run, lift_run.
      change (world sB) with w. rewrite Hrun. cbn [fst snd].
      rewrite act_ret_run, act_ret_run. reflexivity.
    + site_simpl. split; [reflexivity |]. split; [exact Hall |]. split; [exact Hnd |].
      split; [apply merge_sort_Permutation |].
      pose proof (StronglySorted_merge_sort Backend.by_sequence_order stored) as Hsorted.
      fold rows in Hsorted.
      split.
      { intros i j x y Hij Hx Hy. destruct (decide (i = j)) as [-> | Hne].
        - rewrite Hx in Hy. injection Hy as ->. lia.
        - clear -Hsorted Hij Hne Hx Hy. revert i j Hij Hne Hx Hy.
          induction Hsorted as [| a l _ IH Hall]; intros i j Hij Hne Hx Hy;
            [discriminate Hx |].
          destruct j as [| j]; [lia |]. destruct i as [| i].
          + injection Hx as ->. cbn in Hy.
            rewrite Forall_forall in Hall. apply Hall.
            eapply list_elem_of_lookup_2. exact Hy.
          + cbn in Hx, Hy. apply (IH i j); [lia | lia | assumption..]. }
      split; [exact Htab |]. split; [rewrite Hlog; reflexivity |].
      intros os Hos Hperm Hasc.
      destruct (ascending_sorted _ _ os Hasc Hos) as [Hsorted' Huniq].
      apply (StronglySorted_unique_strong Backend.by_sequence_order); try assumption.
      * intros x y Hx Hy Hxy Hyx. apply Huniq; [| exact Hy |].
        -- rewrite Hperm. unfold rows in Hx. rewrite merge_sort_Permutation in Hx. exact Hx.
        -- unfold Backend.by_sequence_order in *. lia.
      * unfold rows. rewrite merge_sort_Permutation. symmetry. exact Hperm.
Qed.

Lemma loadLooks_outcome_witness :
  exists (ls : list loc) (rows : list Look.t) (s' : Site),
    LookCards.loadLooks Studio.cards Studio.site
    = (Returned (LookCards.setLoading false (LookCards.setLooks ls Studio.cards)), s')
    /\ rows = [Samples.look 100%nat "Casual Denim" 0; Samples.look 101%nat "Resort" 1;
               Samples.look 102%nat "Tailoring" 2].
Proof.
  destruct (gallery_facts Samples.galleryWorld eq_refl eq_refl) as (_ & Hstep & _).
  destruct (proj2 (loadLooks_outcome Studio.cards Studio.site) eq_refl)
    as (ls & rows & s' & Hrun & _ & _ & _ & _ & _ & _ & _ & Hsame).
  exists ls, rows, s'. split; [exact Hrun |].
  apply Hsame.
  - repeat constructor.
  - reflexivity.
  - apply in_step_ascending. exact Hstep.
Defined.

(** ** The gallery under every handler *)

Section WellFormed.
Import LookCards.

Lemma well_formed_same_objects (g : LooksManagement.State) (w w' : World) :
  objects w' = objects w -> well_formed g w -> well_formed g w'.
Proof. intros E [Hnd Halloc]. split; [exact Hnd |]. rewrite E. exact Halloc. Qed.

Lemma createObjectURL_makes_url (file : File) : makes_url (createObjectURL file).
Proof. intros s. do 2 eexists. split; reflexivity. Qed.

Lemma mret_makes_url (url : string) : makes_url (mret url).
Proof. intros s. do 2 eexists. split; reflexivity. Qed.

Lemma mapM_withImage_well_formed (lookId : rowid) (m : Act string) (ls : list loc) (s : Site) :
  makes_url m -> NoDup ls ->
  (forall l, l ∈ ls -> is_Some (objects (world s) !! l)) ->
  exists (ls' : list loc) (s' : Site),
    mapM (withImage lookId m) ls s = (Returned ls', s')
    /\ NoDup ls'
    /\ (forall l, l ∈ ls' -> is_Some (objects (world s') !! l))
    /\ (forall l, l ∈ ls' -> l ∈ ls \/ objects (world s) !! l = None)
    /\ (forall x, is_Some (objects (world s) !! x) ->
          objects (world s') !! x = objects (world s) !! x)
    /\ alerts_of (log (world s')) = alerts_of (log (world s)).
Proof.
  intros Hm. revert s. induction ls as [| x ls IH]; intros s Hnd Halloc.
  - exists [], s. split; [reflexivity |]. split; [apply NoDup_nil_2 |].
    split; [intros l Hl; apply elem_of_nil in Hl; contradiction |].
    split; [intros l Hl; apply elem_of_nil in Hl; contradiction |].
    split; [intros x Hx; reflexivity | reflexivity].
  - apply NoDup_cons in Hnd as [Hx Hnd].
    destruct (Halloc x (list_elem_of_here _ _)) as [o Ho].
    assert (Hrest : forall l, l ∈ ls -> is_Some (objects (world s) !! l))
      by (intros l Hl; apply Halloc, list_elem_of_further, Hl).
    cbn [mapM]. rewrite act_bind_run.
    destruct (decide (Look.id o = lookId)) as [Hid | Hid].
    + destruct (Hm s) as (url & s1 & Hrun & Hw).
      rewrite (withImage_hit lookId m x o s s1 url Ho Hid Hrun Hw).
      set (l' := fresh (dom (objects (world s)))).
      set (s2 := with_world _ s1).
      assert (Hobj2 : objects (world s2) = <[l' := Backend.with_image_url url o]>
                                             (objects (world s))) by reflexivity.
      assert (Hkept : forall y, is_Some (objects (world s) !! y) ->
                        objects (world s2) !! y = objects (world s) !! y).
      { intros y [oy Hy]. rewrite Hobj2. apply lookup_insert_ne. intros <-.
        unfold l' in Hy. rewrite fresh_object in Hy. discriminate Hy. }
      destruct (IH s2 Hnd) as (ls' & s' & Hmap & Hnd' & Halloc' & Horigin & Hold & Hal).
      { intros l Hl. rewrite Hkept by (apply Hrest, Hl). apply Hrest, Hl. }
      assert (Hl2 : objects (world s2) !! l' = Some (Backend.with_image_url url o))
        by (rewrite Hobj2; apply lookup_insert_eq).
      exists (l' :: ls'), s'. rewrite act_bind_run, Hmap. repeat apply conj.
      * reflexivity.
      * apply NoDup_cons. split; [| exact Hnd'].
        intros Hin. destruct (Horigin l' Hin) as [Hin' | Hnone].
        -- destruct (Hrest l' Hin') as [? Hsome]. unfold l' in Hsome.
           rewrite fresh_object in Hsome. discriminate Hsome.
        -- rewrite Hl2 in Hnone. discriminate Hnone.
      * intros l Hl. apply elem_of_cons in Hl as [-> | Hl]; [| apply Halloc', Hl].
        rewrite Hold by (rewrite Hl2; eauto). rewrite Hl2. eauto.
      * intros l Hl. apply elem_of_cons in Hl as [-> | Hl].
        -- right. apply fresh_object.
        -- destruct (Horigin l Hl) as [Hin | Hnone].
           ++ left. apply list_elem_of_further. exact Hin.
           ++ right. rewrite Hobj2 in Hnone. apply lookup_insert_None in Hnone. tauto.
      * intros y Hy. rewrite Hold by (rewrite Hkept by exact Hy; exact Hy).
        apply Hkept. exact Hy.
      * rewrite Hal. reflexivity.
    + rewrite (withImage_miss lookId m x o s Ho Hid).
      destruct (IH s Hnd Hrest) as (ls' & s' & Hmap & Hnd' & Halloc' & Horigin & Hold & Hal).
      exists (x :: ls'), s'. rewrite act_bind_run, Hmap. repeat apply conj.
      * reflexivity.
      * apply NoDup_cons. split; [| exact Hnd'].
        intros Hin. destruct (Horigin x Hin) as [Hin' | Hnone]; [contradiction |].
        rewrite Ho in Hnone. discriminate Hnone.
      * intros l Hl. apply elem_of_cons in Hl as [-> | Hl]; [| apply Halloc', Hl].
        rewrite Hold by eauto. eauto.
      * intros l Hl. apply elem_of_cons in Hl as [-> | Hl].
        -- left. apply list_elem_of_here.
        -- destruct (Horigin l Hl) as [Hin | Hnone]; [left | right; exact Hnone].
           apply list_elem_of_further. exact Hin.
      * exact Hold.
      * exact Hal.
Qed.

End WellFormed.

Section EveryHandler.
Import LookCards.

Lemma createLook_well_formed (g : LooksManagement.State) (w : World) :
  well_formed g w ->
  exists g' w', LooksManagement.createLook g w = (Returned g', w') /\ well_formed g' w'.
Proof.
  intros Hwf. destruct (decide (Js.trim (LooksManagement.newLookName g) = "")) as [Hb | Hname].
  - exists g, w. split; [apply createLook_blank; exact Hb | exact Hwf].
  - destruct (objects_exist _ _ (proj2 Hwf)) as [os Hos].
    rewrite (createLook_run g w os Hname Hos).
    destruct (rejects w (count_events is_request w)).
    + do 2 eexists. split; [reflexivity |].
      apply (well_formed_same_objects g w); [reflexivity | exact Hwf].
    + do 2 eexists. split; [reflexivity |]. destruct Hwf as [Hnd Halloc].
      assert (Hfresh : fresh (dom (objects w)) ∉ LooksManagement.looks g).
      { intros Hin. destruct (Halloc _ Hin) as [o Ho].
        rewrite fresh_object in Ho. discriminate Ho. }
      split.
      * cbn. apply NoDup_app. repeat apply conj.
        -- exact Hnd.
        -- intros x Hx Hx'. apply list_elem_of_singleton in Hx'. subst x. exact (Hfresh Hx).
        -- apply NoDup_singleton.
      * cbn. intros l Hl. apply elem_of_app in Hl as [Hl | Hl].
        -- destruct (decide (l = fresh (dom (objects w)))) as [-> | Hne]; [contradiction |].
           rewrite lookup_insert_ne by congruence. apply Halloc. exact Hl.
        -- apply list_elem_of_singleton in Hl. subst l.
           rewrite lookup_insert_eq. eexists. reflexivity.
Qed.

Lemma moveUp_well_formed (index : nat) (g : LooksManagement.State) (w : World) :
  well_formed g w -> (index < length (LooksManagement.looks g))%nat ->
  exists g' w', LooksManagement.moveUp index g w = (Returned g', w') /\ well_formed g' w'.
Proof.
  intros Hwf Hlt. destruct (decide (index = 0%nat)) as [-> | Hne].
  - exists g, w. split; [apply moveUp_first | exact Hwf].
  - destruct (moveUp_swapped index g w Hwf)
      as (a & b & _ & _ & g' & w' & Ha & Hb & _ & _ & _ & Hrun & Hsw & _); [lia |].
    exists g', w'. split; [exact Hrun |].
    apply (swapped_well_formed g w index (index - 1) a b g' w'); try assumption. lia.
Qed.

Lemma moveDown_well_formed (index : nat) (g : LooksManagement.State) (w : World) :
  well_formed g w -> (index < length (LooksManagement.looks g))%nat ->
  exists g' w', LooksManagement.moveDown index g w = (Returned g', w') /\ well_formed g' w'.
Proof.
  intros Hwf Hlt.
  destruct (decide (index = (length (LooksManagement.looks g) - 1)%nat)) as [E | Hne].
  - exists g, w. split; [apply moveDown_last; lia | exact Hwf].
  - destruct (moveDown_swapped index g w Hwf)
      as (a & b & _ & _ & g' & w' & Ha & Hb & _ & _ & _ & Hrun & Hsw & _); [lia |].
    exists g', w'. split; [exact Hrun |].
    apply (swapped_well_formed g w index (index + 1) a b g' w'); try assumption. lia.
Qed.

Lemma deleteLook_well_formed (lookId : rowid) (st : State) (s : Site) :
  well_formed (gallery st) (world s) ->
  exists st' s', deleteLook lookId st s = (Returned st', s')
                 /\ well_formed (gallery st') (world s').
Proof.
  intros Hwf. destruct (objects_exist _ _ (proj2 Hwf)) as [os Hos].
  pose proof (Forall2_length _ _ _ Hos) as Hlen.
  rewrite (deleteLook_run lookId st s os Hos).
  destruct (answers _ _); [destruct (refuses _ _) |].
  - do 2 eexists. split; [reflexivity |].
    apply (well_formed_same_objects _ (world s)); [reflexivity | exact Hwf].
  - do 2 eexists. split; [reflexivity |].
    change (fst <$> filter _ (zip (looks st) os)) with (others lookId (looks st) os).
    destruct Hwf as [Hnd Halloc].
    pose proof (others_sublist lookId (looks st) os Hlen) as Hsub. split.
    + eapply sublist_NoDup; first [exact Hsub | exact Hnd].
    + intros l Hl. site_simpl. apply Halloc. eapply elem_of_sublist; [exact Hl | exact Hsub].
  - do 2 eexists. split; [reflexivity |].
    apply (well_formed_same_objects _ (world s)); [reflexivity | exact Hwf].
Qed.

Lemma image_well_formed (lookId : rowid) (m : Act string) (st : State) (s : Site) :
  makes_url m -> well_formed (gallery st) (world s) ->
  exists ls' s', mapM (withImage lookId m) (looks st) s = (Returned ls', s')
                 /\ well_formed (LooksManagement.setLooks ls' (gallery st)) (world s').
Proof.
  intros Hm [Hnd Halloc].
  destruct (mapM_withImage_well_formed lookId m (looks st) s Hm Hnd Halloc)
    as (ls' & s' & Hrun & Hnd' & Halloc' & _).
  exists ls', s'. split; [exact Hrun |]. split; assumption.
Qed.

Lemma uploadImage_well_formed (lookId : rowid) (file : File) (st : State) (s : Site) :
  well_formed (gallery st) (world s) ->
  exists st' s', uploadImage lookId file st s = (Returned st', s')
                 /\ well_formed (gallery st') (world s').
Proof.
  intros Hwf. unfold uploadImage. rewrite act_bind_run. unfold createObjectURL at 1.
  cbv beta zeta. set (sA := with_blobs _ s). rewrite act_bind_run.
  unfold Backend.update_look_image_url. rewrite act_bind_run. unfold call_backend at 1.
  destruct (refuses sA (length (calls sA))); cbn [negb].
  - rewrite act_ret_run. act. site_simpl. do 2 eexists. split; [reflexivity |].
    apply (well_formed_same_objects _ (world s)); [reflexivity | exact Hwf].
  - rewrite act_bind_run, lift_run. unfold update_world. cbn [fst snd]. rewrite act_ret_run.
    set (sB := with_world _ _).
    assert (HwfB : well_formed (gallery (setUploading (Some lookId) st)) (world sB))
      by (apply (well_formed_same_objects _ (world s)); [reflexivity | exact Hwf]).
    destruct (image_well_formed lookId (createObjectURL file)
                (setUploading (Some lookId) st) sB (createObjectURL_makes_url file) HwfB)
      as (ls' & s' & Hrun & Hwf').
    rewrite act_bind_run, act_bind_run, Hrun. rewrite act_bind_run. unfold console_log at 1.
    rewrite act_ret_run, act_ret_run. do 2 eexists. split; [reflexivity |]. exact Hwf'.
Qed.

Lemma updateImageUrl_well_formed (lookId : rowid) (imageUrl : string) (st : State) (s : Site) :
  well_formed (gallery st) (world s) ->
  exists st' s', updateImageUrl lookId imageUrl st s = (Returned st', s')
                 /\ well_formed (gallery st') (world s').
Proof.
  intros Hwf. unfold updateImageUrl. rewrite act_bind_run. unfold console_log at 1.
  set (sA := with_console _ s). rewrite act_bind_run.
  unfold Backend.update_look_image_url. rewrite act_bind_run. unfold call_backend at 1.
  destruct (refuses sA (length (calls sA))); cbn [negb].
  - rewrite act_ret_run. act. site_simpl. do 2 eexists. split; [reflexivity |].
    apply (well_formed_same_objects _ (world s)); [reflexivity | exact Hwf].
  - rewrite act_bind_run, lift_run. unfold update_world. cbn [fst snd]. rewrite act_ret_run.
    set (sB := with_world _ _).
    assert (HwfB : well_formed (gallery st) (world sB))
      by (apply (well_formed_same_objects _ (world s)); [reflexivity | exact Hwf]).
    destruct (image_well_formed lookId (mret imageUrl) st sB (mret_makes_url imageUrl) HwfB)
      as (ls' & s' & Hrun & Hwf').
    rewrite act_bind_run, Hrun. rewrite act_bind_run. unfold console_log at 1.
    rewrite act_ret_run. do 2 eexists. split; [reflexivity |]. exact Hwf'.
Qed.

Lemma loadLooks_well_formed (st : State) (s : Site) :
  well_formed (gallery st) (world s) ->
  exists st' s', loadLooks st s = (Returned st', s')
                 /\ well_formed (gallery st') (world s').
Proof.
  intros Hwf. unfold loadLooks. rewrite act_bind_run. unfold Backend.select_looks.
  rewrite act_bind_run. unfold call_backend at 1.
  destruct (refuses s (length (calls s))); cbn [negb].
  - rewrite act_ret_run. act. site_simpl. do 2 eexists. split; [reflexivity |].
    apply (well_formed_same_objects _ (world s)); [reflexivity | exact Hwf].
  - set (sA := with_calls _ s). rewrite act_bind_run, lift_run. unfold read_world.
    cbn [fst snd]. rewrite with_world_same, act_ret_run.
    set (rows := merge_sort _ _).
    rewrite act_bind_run. unfold console_log at 1. rewrite act_bind_run. cbv beta.
    set (sB := with_console _ sA).
    destruct (allocate_all rows (world sB)) as (ls & w' & Hrun & Hall & Hnd & _).
    rewrite act_bind_run, lift_run, Hrun. cbn [fst snd].
    rewrite act_ret_run, act_ret_run. do 2 eexists. split; [reflexivity |].
    split; [exact Hnd |].
    intros l Hl. site_simpl. cbn in Hl.
    apply list_elem_of_lookup in Hl as [i Hi].
    destruct (Forall2_lookup_l _ _ _ _ _ Hall Hi) as (o & _ & Ho). eauto.
Qed.

End EveryHandler.

(** X24. Every handler of the looks page keeps the gallery well formed.
    When the list of the page has no reference twice and every reference
    has its object, then [createLook], [deleteLook], [uploadImage],
    [updateImageUrl] and [loadLooks] return, whatever their arguments,
    the answers of the user and of the backend, and so do [moveUp] and
    [moveDown] at the index of a card; the list they leave has no
    reference twice and every reference has its object. *)
Theorem gallery_stays_well_formed (st : LookCards.State) (s : Site) :
  let w := world s in
  well_formed (LookCards.gallery st) w ->
  (exists g' w',
     LooksManagement.createLook (LookCards.gallery st) w = (Returned g', w')
     /\ well_formed g' w')
  /\ (forall index : nat,
        (index < length (LookCards.looks st))%nat ->
        (exists g' w',
           LooksManagement.moveUp index (LookCards.gallery st) w = (Returned g', w')
           /\ well_formed g' w')
        /\ (exists g' w',
              LooksManagement.moveDown index (LookCards.gallery st) w = (Returned g', w')
              /\ well_formed g' w'))
  /\ (forall lookId : rowid,
        exists st' s', LookCards.deleteLook lookId st s = (Returned st', s')
                       /\ well_formed (LookCards.gallery st') (world s'))
  /\ (forall (lookId : rowid) (file : File),
        exists st' s', LookCards.uploadImage lookId file st s = (Returned st', s')
                       /\ well_formed (LookCards.gallery st') (world s'))
  /\ (forall (lookId : rowid) (imageUrl : string),
        exists st' s', LookCards.updateImageUrl lookId imageUrl st s = (Returned st', s')
                       /\ well_formed (LookCards.gallery st') (world s'))
  /\ (exists st' s', LookCards.loadLooks st s = (Returned st', s')
                     /\ well_formed (LookCards.gallery st') (world s')).
Proof.
  intros w Hwf.
  split; [apply createLook_well_formed; exact Hwf |].
  split; [intros index Hlt; split;
          [apply moveUp_well_formed | apply moveDown_well_formed]; assumption |].
  split; [intros lookId; apply deleteLook_well_formed; exact Hwf |].
  split; [intros lookId file; apply uploadImage_well_formed; exact Hwf |].
  split; [intros lookId imageUrl; apply updateImageUrl_well_formed; exact Hwf |].
  apply loadLooks_well_formed. exact Hwf.
Qed.

Lemma gallery_stays_well_formed_witness :
  exists st' s',
    LookCards.uploadImage 101%nat "resort.jpg" Studio.cards Studio.site = (Returned st', s')
    /\ well_formed (LookCards.gallery st') (world s').
Proof.
  destruct (gallery_stays_well_formed Studio.cards Studio.site
              (well_formedb_sound Samples.gallery Samples.galleryWorld eq_refl))
    as (_ & _ & _ & Hupload & _).
  apply (Hupload 101%nat "resort.jpg").
Defined.
